(** * graspy tutorial notebooks: call structure, data flow and failure behaviour

    The repository consists of two Jupyter notebooks,
    - the latent-distribution two-graph testing tutorial (the notebook whose
      first cell is the heading "Latent Distribution Two-Graph Testing"), and
    - docs/tutorials/embedding/Omnibus.ipynb,
    whose code cells call graspy, numpy and matplotlib.

    The notebooks are transcribed cell by cell and statement by statement into
    the abstract syntax of the Python fragment they are written in.  An
    executable interpreter runs that syntax against an arbitrary external
    library: every call that leaves the notebook (a function of an imported
    module, a method, an attribute read or a subscript of a library object) is
    handed to the library, which answers with a value or an exception and
    threads its own hidden state (the global random generator, the contents
    of the objects it created).  The interpreter records each such call in a
    trace.

    Conventions of the model:
    - cells are numbered from 0 and markdown cells count, so the first code
      cell of either notebook is cell 1;
    - an [import] binds a name and does nothing else, and the IPython magic
      [%matplotlib inline] has no effect on the namespace;
    - [print] is an external call like any other; [range] is evaluated by the
      interpreter to the integers a loop over it visits;
    - a float literal is kept as the decimal it is written as. *)

From Stdlib Require Import ZArith Ascii String.
From stdpp Require Import gmap strings list sorting.

Set Warnings "-register-all".

Local Open Scope string_scope.
Local Open Scope list_scope.
Local Open Scope Z_scope.

(** ** Syntax of the Python fragment *)

Inductive binop := Add | Mul.

(** A float literal is kept as its decimal text: [EFloat m k] is the literal
    whose value is m / 10^k, so [.3] is [EFloat 3 1] and [0.15] is
    [EFloat 15 2]. *)
Inductive expr :=
| EName (x : string)
| EInt (n : Z)
| EFloat (m : Z) (k : nat)
| EStr (s : string)
| EList (es : list expr)
| ETuple (es : list expr)
| EAttr (e : expr) (a : string)
| ESubscript (e : expr) (i : expr)
| ESlice (lo hi : option expr)
| EBinOp (op : binop) (e1 e2 : expr)
| ECall (f : expr) (args : list expr) (kwargs : list (string * expr)).

Inductive target :=
| TName (x : string)
| TUnpack (xs : list string).

Inductive stmt :=
| SImport (module : string) (alias : option string)
| SFromImport (module : string) (names : list string)
| SMagic (line : string)
| SAssign (t : target) (e : expr)
| SExpr (e : expr)
| SFor (x : string) (iter : expr) (body : list stmt)
| SIf (cond : expr) (thn els : list stmt)
| STry (body handler : list stmt)
| SRaise (cls msg : string).

(** A markdown cell is kept by its first line only; it has no effect. *)
Inductive cell :=
| Markdown (first_line : string)
| Code (src : list stmt).

Definition notebook := list cell.

(** ** Values, exceptions, events *)

(** [VExt q] is a module, function or class of an imported package, named by
    its qualified name; [VRef id] is an object the library returned, known to
    the notebook only by its identity.  Lists, tuples and slices are built by
    the notebook itself. *)
Inductive value :=
| VNone
| VBool (b : bool)
| VInt (n : Z)
| VFloat (m : Z) (k : nat)
| VStr (s : string)
| VList (vs : list value)
| VTuple (vs : list value)
| VSlice (lo hi : value)
| VExt (qualname : string)
| VRef (id : nat).

Inductive exn := PyExn (cls msg : string).

Inductive outcome :=
| Ret (v : value)
| Exn (e : exn).

(** What an external call addresses: a function or class by qualified name,
    a method of a receiver, an attribute read, or a subscript. *)
Inductive callee :=
| CFun (qualname : string)
| CMethod (recv : value) (name : string)
| CGetAttr (recv : value) (name : string)
| CGetItem (recv : value).

Record event := Event {
  ev_cell : nat;
  ev_callee : callee;
  ev_args : list value;
  ev_kwargs : list (string * value);
  ev_out : outcome
}.

(** The external world: numpy, matplotlib, graspy and the Python runtime's
    printing.  [W] is the hidden state calls may read and change. *)
Class Library (W : Type) :=
  lib_call : callee -> list value -> list (string * value) -> W -> outcome * W.

(** ** Interpreter state and monad *)

Record state (W : Type) := State {
  env : gmap string value;
  world : W;
  trace : list event;
  cur_cell : nat
}.
Arguments State {W}.
Arguments env {W}.
Arguments world {W}.
Arguments trace {W}.
Arguments cur_cell {W}.

Inductive result (W A : Type) :=
| Done (a : A) (st : state W)
| Raised (e : exn) (st : state W).
Arguments Done {W A}.
Arguments Raised {W A}.

Definition M (W A : Type) := state W -> result W A.

Definition ret {W A} (a : A) : M W A := fun st => Done a st.

Definition raise {W A} (cls msg : string) : M W A :=
  fun st => Raised (PyExn cls msg) st.

Definition bind {W A B} (m : M W A) (f : A -> M W B) : M W B :=
  fun st =>
    match m st with
    | Done a st' => f a st'
    | Raised e st' => Raised e st'
    end.

Declare Scope py_scope.
Delimit Scope py_scope with py.
Notation "x <- m ;; k" := (bind m (fun x => k))
  (at level 100, m at next level, right associativity) : py_scope.
Notation "m ;;; k" := (bind m (fun _ => k))
  (at level 100, right associativity) : py_scope.
Local Open Scope py_scope.

Fixpoint mapM {W A B} (f : A -> M W B) (l : list A) : M W (list B) :=
  match l with
  | [] => ret []
  | a :: l' => b <- f a ;; bs <- mapM f l' ;; ret (b :: bs)
  end.

Definition lookup_name {W} (x : string) : M W value :=
  fun st =>
    match env st !! x with
    | Some v => Done v st
    | None => Raised (PyExn "NameError" x) st
    end.

Definition bind_name {W} (x : string) (v : value) : M W unit :=
  fun st => Done tt (State (<[x := v]> (env st)) (world st) (trace st) (cur_cell st)).

(** The one place where control leaves the notebook. *)
Definition ext_call {W} `{Library W} (c : callee) (vs : list value)
    (kvs : list (string * value)) : M W value :=
  fun st =>
    let '(out, w') := lib_call c vs kvs (world st) in
    let st' := State (env st) w'
                 (trace st ++ [Event (cur_cell st) c vs kvs out]) (cur_cell st) in
    match out with
    | Ret v => Done v st'
    | Exn e => Raised e st'
    end.

(** ** Built-in operations on the interpreter's own values *)

Definition qualify (q a : string) : string := q +:+ "." +:+ a.

Fixpoint top_package (q : string) : string :=
  match q with
  | EmptyString => EmptyString
  | String c q' => if Ascii.eqb c "."%char then EmptyString else String c (top_package q')
  end.

Definition py_range (lo hi : Z) : list value :=
  map (fun i => VInt (lo + Z.of_nat i)) (seq 0 (Z.to_nat (hi - lo))).

(** Python's index normalisation for sequences of length [len]. *)
Definition py_index {A} (l : list A) (i : Z) : option A :=
  let len := Z.of_nat (length l) in
  let j := if i <? 0 then i + len else i in
  if (0 <=? j) && (j <? len) then l !! Z.to_nat j else None.

Definition slice_bound (len : Z) (dflt : Z) (b : value) : option Z :=
  match b with
  | VNone => Some dflt
  | VInt i => Some (if i <? 0 then Z.max (i + len) 0 else Z.min i len)
  | _ => None
  end.

Definition py_slice {A} (l : list A) (lo hi : value) : option (list A) :=
  let len := Z.of_nat (length l) in
  match slice_bound len 0 lo, slice_bound len len hi with
  | Some a, Some b => Some (take (Z.to_nat (b - a)) (drop (Z.to_nat a) l))
  | _, _ => None
  end.

Definition truthy (v : value) : bool :=
  match v with
  | VNone => false
  | VBool b => b
  | VInt n => negb (n =? 0)
  | VFloat m _ => negb (m =? 0)
  | VStr s => match s with EmptyString => false | String _ _ => true end
  | VList vs | VTuple vs => match vs with [] => false | _ => true end
  | _ => true
  end.

(** [+] and [*] on integers, strings, lists and tuples.  Float arithmetic and
    operators of library objects do not occur in the notebooks and are outside
    the fragment. *)
Definition bin_op {W} (op : binop) (x y : value) : M W value :=
  match op, x, y with
  | Add, VInt a, VInt b => ret (VInt (a + b))
  | Add, VStr a, VStr b => ret (VStr (a +:+ b))
  | Add, VList a, VList b => ret (VList (a ++ b))
  | Add, VTuple a, VTuple b => ret (VTuple (a ++ b))
  | Mul, VInt a, VInt b => ret (VInt (a * b))
  | Mul, VList a, VInt n | Mul, VInt n, VList a =>
      ret (VList (concat (replicate (Z.to_nat n) a)))
  | Mul, VTuple a, VInt n | Mul, VInt n, VTuple a =>
      ret (VTuple (concat (replicate (Z.to_nat n) a)))
  | _, _, _ => raise "TypeError" "unsupported operand type(s)"
  end.

Section Interp.
Context {W : Type} `{Library W}.

(** [v.a] read as a value: a member of a module is named by qualification,
    anything else is an attribute read answered by the library. *)
Definition get_attr (v : value) (a : string) : M W value :=
  match v with
  | VExt q => ret (VExt (qualify q a))
  | _ => ext_call (CGetAttr v a) [] []
  end.

(** [v[k]]: interpreter-owned lists and tuples are indexed here, every other
    receiver is a library object. *)
Definition get_item (v k : value) : M W value :=
  match v with
  | VList l | VTuple l =>
      match k with
      | VInt i =>
          match py_index l i with
          | Some x => ret x
          | None => raise "IndexError" "index out of range"
          end
      | VSlice lo hi =>
          match py_slice l lo hi with
          | Some l' => ret (match v with VTuple _ => VTuple l' | _ => VList l' end)
          | None => raise "TypeError" "slice indices must be integers or None"
          end
      | _ => raise "TypeError" "indices must be integers or slices"
      end
  | _ => ext_call (CGetItem v) [k] []
  end.

(** Calling a value.  [range] is evaluated here (to the list of integers a
    loop over it visits); every other callable is external. *)
Definition call_value (f : value) (vs : list value)
    (kvs : list (string * value)) : M W value :=
  match f with
  | VExt q =>
      if String.eqb q "builtins.range" then
        match vs, kvs with
        | [VInt n], [] => ret (VList (py_range 0 n))
        | [VInt a; VInt b], [] => ret (VList (py_range a b))
        | _, _ => raise "TypeError" "range: unsupported arguments"
        end
      else ext_call (CFun q) vs kvs
  | VRef _ => ext_call (CMethod f "__call__") vs kvs
  | _ => raise "TypeError" "object is not callable"
  end.

(** [r.m(...)]: a member of a module is called by its qualified name, a
    method of anything else is a method call on that receiver. *)
Definition call_attr (r : value) (m : string) (vs : list value)
    (kvs : list (string * value)) : M W value :=
  match r with
  | VExt q => call_value (VExt (qualify q m)) vs kvs
  | _ => ext_call (CMethod r m) vs kvs
  end.

Fixpoint eval (e : expr) : M W value :=
  match e with
  | EName x => lookup_name x
  | EInt n => ret (VInt n)
  | EFloat m k => ret (VFloat m k)
  | EStr s => ret (VStr s)
  | EList es => vs <- mapM eval es ;; ret (VList vs)
  | ETuple es => vs <- mapM eval es ;; ret (VTuple vs)
  | EAttr e' a => v <- eval e' ;; get_attr v a
  | ESubscript e' i => v <- eval e' ;; k <- eval i ;; get_item v k
  | ESlice lo hi =>
      l <- match lo with Some e' => eval e' | None => ret VNone end ;;
      h <- match hi with Some e' => eval e' | None => ret VNone end ;;
      ret (VSlice l h)
  | EBinOp op e1 e2 => x <- eval e1 ;; y <- eval e2 ;; bin_op op x y
  | ECall f args kwargs =>
      match f with
      | EAttr r m =>
          rv <- eval r ;;
          vs <- mapM eval args ;;
          kvs <- mapM (fun '(k, e') => v <- eval e' ;; ret (k, v)) kwargs ;;
          call_attr rv m vs kvs
      | _ =>
          fv <- eval f ;;
          vs <- mapM eval args ;;
          kvs <- mapM (fun '(k, e') => v <- eval e' ;; ret (k, v)) kwargs ;;
          call_value fv vs kvs
      end
  end.

Definition assign (t : target) (v : value) : M W unit :=
  match t with
  | TName x => bind_name x v
  | TUnpack xs =>
      match v with
      | VTuple vs | VList vs =>
          if Nat.eqb (length xs) (length vs)
          then mapM (fun '(x, v') => bind_name x v') (zip xs vs) ;;; ret tt
          else raise "ValueError" "wrong number of values to unpack"
      | _ => raise "TypeError" "cannot unpack non-iterable object"
      end
  end.

(** What a [for] loop visits.  The notebooks iterate over a [range] only;
    iterating a library object is outside the fragment. *)
Definition iter_values (v : value) : M W (list value) :=
  match v with
  | VList vs | VTuple vs => ret vs
  | _ => raise "TypeError" "object is not iterable"
  end.

(** [for x in vs: body] *)
Fixpoint for_each (x : string) (body : M W unit) (vs : list value) : M W unit :=
  match vs with
  | [] => ret tt
  | v :: vs' => bind_name x v ;;; body ;;; for_each x body vs'
  end.

Fixpoint exec (s : stmt) : M W unit :=
  let block := fix block (ss : list stmt) : M W unit :=
    match ss with
    | [] => ret tt
    | s' :: ss' => exec s' ;;; block ss'
    end in
  match s with
  | SImport m alias =>
      bind_name (match alias with Some a => a | None => top_package m end)
                (VExt (match alias with Some _ => m | None => top_package m end))
  | SFromImport m names =>
      mapM (fun n => bind_name n (VExt (qualify m n))) names ;;; ret tt
  | SMagic _ => ret tt
  | SAssign t e => v <- eval e ;; assign t v
  | SExpr e => eval e ;;; ret tt
  | SFor x it body =>
      v <- eval it ;;
      vs <- iter_values v ;;
      for_each x (block body) vs
  | SIf c thn els =>
      v <- eval c ;; if truthy v then block thn else block els
  | STry body handler =>
      fun st =>
        match block body st with
        | Done a st' => Done a st'
        | Raised _ st' => block handler st'
        end
  | SRaise cls msg => raise cls msg
  end.

Fixpoint exec_block (ss : list stmt) : M W unit :=
  match ss with
  | [] => ret tt
  | s :: ss' => exec s ;;; exec_block ss'
  end.

(** Running a notebook top to bottom: cells share one namespace, and the
    first exception stops the run in the cell that raised it. *)
Inductive run_result :=
| Completed (st : state W)
| Failed (cell_index : nat) (e : exn) (st : state W).

Definition enter_cell (i : nat) (st : state W) : state W :=
  State (env st) (world st) (trace st) i.

Fixpoint run_cells (i : nat) (cs : list cell) (st : state W) : run_result :=
  match cs with
  | [] => Completed st
  | Markdown _ :: cs' => run_cells (S i) cs' st
  | Code src :: cs' =>
      match exec_block src (enter_cell i st) with
      | Done _ st' => run_cells (S i) cs' st'
      | Raised e st' => Failed i e st'
      end
  end.

Definition builtins : gmap string value :=
  <["print" := VExt "builtins.print"]> (<["range" := VExt "builtins.range"]> ∅).

Definition init (w : W) : state W := State builtins w [] 0.

Definition run (nb : notebook) (w : W) : run_result := run_cells 0 nb (init w).

End Interp.

(** ** The notebooks *)

(** Shorthands used in the transcription. *)
Definition fn_call (f : string) (args : list expr) (kwargs : list (string * expr)) : expr :=
  ECall (EName f) args kwargs.

Definition method_call (r : expr) (m : string) (args : list expr)
    (kwargs : list (string * expr)) : expr :=
  ECall (EAttr r m) args kwargs.

Definition matrix2 (a b c d : expr) : expr := EList [EList [a; b]; EList [c; d]].

Module LatentDistributionNotebook.

(** [AdjacencySpectralEmbed(n_components=n_components).fit_transform(A)] *)
Definition ase_fit_transform (A : string) : expr :=
  method_call
    (fn_call "AdjacencySpectralEmbed" [] [("n_components", EName "n_components")])
    "fit_transform" [EName A] [].

(** [LatentDistributionTest(test, metric="euclidean", n_bootstraps=200)] *)
Definition new_ldt (test : string) : expr :=
  fn_call "LatentDistributionTest" [EStr test]
    [("metric", EStr "euclidean"); ("n_bootstraps", EInt 200)].

Definition cell_imports : list stmt :=
  [ SImport "numpy" (Some "np");
    SImport "matplotlib.pyplot" (Some "plt");
    SExpr (method_call (EAttr (EName "np") "random") "seed" [EInt 8888] []);
    SFromImport "graspy.inference" ["LatentDistributionTest"];
    SFromImport "graspy.embed" ["AdjacencySpectralEmbed"];
    SFromImport "graspy.simulations" ["sbm"; "rdpg"];
    SFromImport "graspy.utils" ["symmetrize"];
    SFromImport "graspy.plot" ["heatmap"; "pairplot"];
    SMagic "matplotlib inline" ].

Definition cell_first_graph : list stmt :=
  [ SAssign (TName "n_components") (EInt 2);
    SAssign (TName "P")
      (method_call (EName "np") "array"
         [matrix2 (EFloat 9 1) (EFloat 6 1) (EFloat 6 1) (EFloat 9 1)] []);
    SAssign (TName "csize") (EBinOp Mul (EList [EInt 50]) (EInt 2));
    SAssign (TName "A1") (fn_call "sbm" [EName "csize"; EName "P"] []);
    SAssign (TName "X1") (ase_fit_transform "A1");
    SExpr (fn_call "heatmap" [EName "A1"]
             [("title", EStr "2-block SBM adjacency matrix")]);
    SExpr (fn_call "pairplot" [EName "X1"]
             [("title", EStr "2-block adjacency spectral embedding");
              ("height", EFloat 45 1)]) ].

Definition cell_second_graph : list stmt :=
  [ SAssign (TName "A2") (fn_call "sbm" [EName "csize"; EName "P"] []);
    SAssign (TName "X2") (ase_fit_transform "A2");
    SAssign (TName "A1") (fn_call "sbm" [EName "csize"; EName "P"] []);
    SAssign (TName "X1") (ase_fit_transform "A1");
    SExpr (fn_call "heatmap" [EName "A2"]
             [("title", EStr "2-block SBM adjacency matrix")]);
    SExpr (fn_call "pairplot" [EName "X2"]
             [("title", EStr "2-block adjacency spectral embedding");
              ("height", EFloat 45 1)]) ].

(** [ldt = LatentDistributionTest(...)] followed by [ldt.fit(A, B)] *)
Definition cell_fit (ldt test A B : string) : list stmt :=
  [ SAssign (TName ldt) (new_ldt test);
    SExpr (method_call (EName ldt) "fit" [EName A; EName B] []) ].

Definition cell_print : list stmt :=
  [ SExpr (fn_call "print"
             [EAttr (EName "ldt_dcorr") "p_value_"; EAttr (EName "ldt_mgc") "p_value_"]
             []) ].

(** One histogram panel: [ax[i].hist], [ax[i].axvline], [ax[i].set_title]. *)
Definition panel (i : Z) (ldt label : string) : list stmt :=
  [ SExpr (method_call (ESubscript (EName "ax") (EInt i)) "hist"
             [EAttr (EName ldt) "null_distribution_"; EInt 50] []);
    SExpr (method_call (ESubscript (EName "ax") (EInt i)) "axvline"
             [EAttr (EName ldt) "sample_T_statistic_"] [("color", EStr "r")]);
    SExpr (method_call (ESubscript (EName "ax") (EInt i)) "set_title"
             [method_call (EStr label) "format" [EAttr (EName ldt) "p_value_"] []]
             [("fontsize", EInt 20)]) ].

Definition cell_histograms : list stmt :=
  [ SAssign (TUnpack ["fig"; "ax"])
      (method_call (EName "plt") "subplots" [EInt 1; EInt 2]
         [("figsize", ETuple [EInt 10; EInt 6])]) ]
  ++ panel 0 "ldt_dcorr" "DCorr: P-value = {}"
  ++ panel 1 "ldt_mgc" "MGC: P-value = {}"
  ++ [ SExpr (method_call (EName "plt") "show" [] []) ].

Definition cell_third_graph : list stmt :=
  [ SAssign (TName "P2")
      (method_call (EName "np") "array"
         [matrix2 (EFloat 9 1) (EFloat 4 1) (EFloat 4 1) (EFloat 9 1)] []);
    SAssign (TName "A3") (fn_call "sbm" [EName "csize"; EName "P2"] []);
    SExpr (fn_call "heatmap" [EName "A3"]
             [("title", EStr "2-block SBM adjacency matrix A3")]);
    SAssign (TName "X3") (ase_fit_transform "A3");
    SExpr (fn_call "pairplot" [EName "X3"]
             [("title", EStr "2-block adjacency spectral embedding A3");
              ("height", EFloat 45 1)]) ].

Definition cells : notebook :=
  [ (* 0 *)  Markdown "## Latent Distribution Two-Graph Testing";
    (* 1 *)  Code cell_imports;
    (* 2 *)  Markdown "### Generate a stochastic block model graph";
    (* 3 *)  Code cell_first_graph;
    (* 4 *)  Markdown "We generate a second SBM in the same way.";
    (* 5 *)  Code cell_second_graph;
    (* 6 *)  Markdown "### Latent distribution test where null is true";
    (* 7 *)  Markdown "### Plots of Null Distribution for Dcorr and MGC";
    (* 8 *)  Code (cell_fit "ldt_dcorr" "dcorr" "A1" "A2");
    (* 9 *)  Code (cell_fit "ldt_mgc" "mgc" "A1" "A2");
    (* 10 *) Code cell_print;
    (* 11 *) Code cell_histograms;
    (* 12 *) Markdown "We see that the test static is small, resulting in p-values above 0.05. Thus, we cannot reject the null hypothesis that the two graphs come from the same generating distributions.";
    (* 13 *) Markdown "### Latent distribution test where null is false";
    (* 14 *) Code cell_third_graph;
    (* 15 *) Markdown "### Plot of Null Distribution";
    (* 16 *) Code (cell_fit "ldt_dcorr" "dcorr" "A1" "A3");
    (* 17 *) Code (cell_fit "ldt_mgc" "mgc" "A1" "A3");
    (* 18 *) Code cell_print;
    (* 19 *) Code cell_histograms;
    (* 20 *) Code [] ].

End LatentDistributionNotebook.

Module OmnibusNotebook.

Definition cell_imports : list stmt :=
  [ SImport "graspy" None;
    SImport "matplotlib.pyplot" (Some "plt");
    SImport "numpy" (Some "np");
    SMagic "matplotlib inline" ].

Definition cell_simulate : list stmt :=
  [ SFromImport "graspy.simulations" ["sbm"];
    SAssign (TName "n") (EList [EInt 25; EInt 25]);
    SAssign (TName "P1") (matrix2 (EFloat 3 1) (EFloat 1 1) (EFloat 1 1) (EFloat 7 1));
    SAssign (TName "P2") (matrix2 (EFloat 3 1) (EFloat 1 1) (EFloat 1 1) (EFloat 3 1));
    SExpr (method_call (EAttr (EName "np") "random") "seed" [EInt 8] []);
    SAssign (TName "G1") (fn_call "sbm" [EName "n"; EName "P1"] []);
    SAssign (TName "G2") (fn_call "sbm" [EName "n"; EName "P2"] []) ].

Definition cell_heatmaps : list stmt :=
  [ SFromImport "graspy.plot" ["heatmap"];
    SExpr (fn_call "heatmap" [EName "G1"]
             [("figsize", ETuple [EInt 7; EInt 7]);
              ("title", EStr "Visualization of Graph 1")]);
    SExpr (fn_call "heatmap" [EName "G2"]
             [("figsize", ETuple [EInt 7; EInt 7]);
              ("title", EStr "Visualization of Graph 2")]) ].

Definition cell_embed : list stmt :=
  [ SFromImport "graspy.embed" ["OmnibusEmbed"];
    SAssign (TName "embedder") (fn_call "OmnibusEmbed" [] []);
    SAssign (TName "Zhat")
      (method_call (EName "embedder") "fit_transform"
         [EList [EName "G1"; EName "G2"]] []);
    SExpr (fn_call "print" [EAttr (EName "Zhat") "shape"] []) ].

(** [X[lo:hi, col]] *)
Definition rows_col (X : string) (lo hi : option Z) (col : Z) : expr :=
  ESubscript (EName X)
    (ETuple [ESlice (EInt <$> lo) (EInt <$> hi); EInt col]).

(** [X[i, col]] *)
Definition entry (X i : string) (col : Z) : expr :=
  ESubscript (EName X) (ETuple [EName i; EInt col]).

(** [ax.scatter(X[lo:hi, 0], X[lo:hi, 1], marker=.., c=.., label=..)] *)
Definition scatter (X : string) (lo hi : option Z) (marker colour label : string) : stmt :=
  SExpr (method_call (EName "ax") "scatter"
           [rows_col X lo hi 0; rows_col X lo hi 1]
           [("marker", EStr marker); ("c", EStr colour); ("label", EStr label)]).

Definition plot_line : stmt :=
  SExpr (method_call (EName "ax") "plot"
           [EList [entry "Xhat1" "i" 0; entry "Xhat2" "i" 0];
            EList [entry "Xhat1" "i" 1; entry "Xhat2" "i" 1];
            EStr "black"]
           [("alpha", EFloat 15 2)]).

Definition lines_loop : stmt :=
  SFor "i" (fn_call "range" [EInt 50] []) [plot_line].

Definition cell_plot_head : list stmt :=
  [ SAssign (TName "Xhat1") (ESubscript (EName "Zhat") (EInt 0));
    SAssign (TName "Xhat2") (ESubscript (EName "Zhat") (EInt 1));
    SAssign (TUnpack ["fig"; "ax"])
      (method_call (EName "plt") "subplots" []
         [("figsize", ETuple [EInt 10; EInt 10])]);
    scatter "Xhat1" None (Some 25) "s" "blue" "Graph 1, Block 1";
    scatter "Xhat1" (Some 25) None "o" "blue" "Graph 1, Block 2";
    scatter "Xhat2" None (Some 25) "s" "red" "Graph 2, Block 1";
    scatter "Xhat2" (Some 25) None "o" "red" "Graph 2, Block 2";
    SExpr (method_call (EName "ax") "legend" [] []) ].

Definition cell_plot_tail : list stmt :=
  [ SExpr (method_call (EName "ax") "set_title"
             [EStr "Latent Positions from Omnibus Embedding"]
             [("fontsize", EInt 20)]) ].

Definition cell_plot : list stmt :=
  cell_plot_head ++ [lines_loop] ++ cell_plot_tail.

Definition cells : notebook :=
  [ (* 0 *) Markdown "# Embedding Multiple Graphs";
    (* 1 *) Code cell_imports;
    (* 2 *) Markdown "## Simulate two different graphs using stochastic block models (SBM)";
    (* 3 *) Code cell_simulate;
    (* 4 *) Markdown "## Visualize the graphs using heatmap";
    (* 5 *) Code cell_heatmaps;
    (* 6 *) Markdown "## Embed the two graphs using omnibus embedding";
    (* 7 *) Code cell_embed;
    (* 8 *) Markdown "## Visualize the latent positions";
    (* 9 *) Code cell_plot ].

(** The block-probability matrices as the markdown cell 2 states them
    (its LaTeX: P_1 = [0.2 0.1; 0.1 0.7], P_2 = [0.2 0.1; 0.1 0.2]). *)
Definition markdown_P1 : value :=
  VList [VList [VFloat 2 1; VFloat 1 1]; VList [VFloat 1 1; VFloat 7 1]].
Definition markdown_P2 : value :=
  VList [VList [VFloat 2 1; VFloat 1 1]; VList [VFloat 1 1; VFloat 2 1]].

End OmnibusNotebook.

(** ** A library of fresh objects

    Every call returns an object nobody has seen before, named by a counter;
    [plt.subplots] returns its (figure, axes) pair.  Running a notebook
    against it names each value by the call that produced it. *)
Definition fresh_objects : Library nat :=
  fun c _ _ n =>
    match c with
    | CFun q =>
        if String.eqb q "matplotlib.pyplot.subplots"
        then (Ret (VTuple [VRef n; VRef (S n)]), S (S n))
        else (Ret (VRef n), S n)
    | _ => (Ret (VRef n), S n)
    end.

Definition run_fresh (nb : notebook) : @run_result nat := @run nat fresh_objects nb 0%nat.

Definition final_trace {W} (r : @run_result W) : list event :=
  match r with
  | Completed st => trace st
  | Failed _ _ st => trace st
  end.

(** A library whose sampler rejects its input; everything else returns
    [None]. *)
Definition sampler_raises : Library unit :=
  fun c _ _ w =>
    match c with
    | CFun q =>
        if String.eqb q "graspy.simulations.sbm"
        then (Exn (PyExn "ValueError" "p must be a probability matrix"), w)
        else (Ret VNone, w)
    | _ => (Ret VNone, w)
    end.

(** A toy generator: the state is an integer, seeding sets it, sampling
    returns it and steps it (a linear congruential step); [plt.subplots]
    returns a pair. *)
Definition toy_generator : Library Z :=
  fun c vs _ z =>
    match c with
    | CFun q =>
        if String.eqb q "numpy.random.seed"
        then (Ret VNone, match vs with [VInt k] => k | _ => z end)
        else if String.eqb q "graspy.simulations.sbm"
        then (Ret (VInt z), (1103515245 * z + 12345) mod 2 ^ 31)
        else if String.eqb q "matplotlib.pyplot.subplots"
        then (Ret (VTuple [VRef 0; VRef 1]), z)
        else (Ret (VRef 2), z)
    | _ => (Ret (VRef 3), z)
    end.

(** ** Reading a trace: who produced a value, and from which entry point *)

Lemma value_eq_dec : forall a b : value, {a = b} + {a <> b}.
Proof.
  fix IH 1.
  decide equality;
    first [ apply Z.eq_dec | apply Nat.eq_dec | apply string_dec | apply Bool.bool_dec
          | apply (List.list_eq_dec IH) ].
Defined.

#[export] Instance value_eq_decision : EqDecision value := value_eq_dec.

Definition is_fun (q : string) (ev : event) : bool :=
  match ev_callee ev with
  | CFun q' => String.eqb q q'
  | _ => false
  end.

Definition is_method (m : string) (ev : event) : bool :=
  match ev_callee ev with
  | CMethod _ m' => String.eqb m m'
  | _ => false
  end.

Definition receiver (ev : event) : option value :=
  match ev_callee ev with
  | CFun _ => None
  | CMethod r _ | CGetAttr r _ | CGetItem r => Some r
  end.

Definition result_of (ev : event) : option value :=
  match ev_out ev with
  | Ret v => Some v
  | Exn _ => None
  end.

(** [ev] returned [v], alone or as a component of a returned tuple. *)
Definition yields (ev : event) (v : value) : bool :=
  match ev_out ev with
  | Ret r =>
      bool_decide (r = v)
      || match r with VTuple vs => bool_decide (v ∈ vs) | _ => false end
  | Exn _ => false
  end.

Definition producer (T : list event) (v : value) : option event :=
  List.find (fun ev => yields ev v) T.

(** The function or class at the root of the calls that produced [v]: the
    producer's own name when it is a function call, otherwise the root of the
    receiver it was obtained from. *)
Fixpoint root (fuel : nat) (T : list event) (v : value) : option string :=
  match fuel with
  | O => None
  | S fuel' =>
      match producer T v with
      | None => None
      | Some ev =>
          match ev_callee ev with
          | CFun q => Some q
          | CMethod r _ | CGetAttr r _ | CGetItem r => root fuel' T r
          end
      end
  end.

Definition origin (T : list event) (v : value) : option string := root (length T) T v.

(** The entry point an event goes through: the called function, or the root
    of the receiver. *)
Definition entry_point (T : list event) (ev : event) : option string :=
  match ev_callee ev with
  | CFun q => Some q
  | CMethod r _ | CGetAttr r _ | CGetItem r => origin T r
  end.

Definition graspy_entry (T : list event) (ev : event) : option string :=
  match entry_point T ev with
  | Some q => if String.prefix "graspy." q then Some q else None
  | None => None
  end.

(** The entry points of graspy the specification lists, by qualified name. *)
Module Graspy.
Definition sbm : string := "graspy.simulations.sbm".
Definition AdjacencySpectralEmbed : string := "graspy.embed.AdjacencySpectralEmbed".
Definition OmnibusEmbed : string := "graspy.embed.OmnibusEmbed".
Definition LatentDistributionTest : string := "graspy.inference.LatentDistributionTest".
Definition heatmap : string := "graspy.plot.heatmap".
Definition pairplot : string := "graspy.plot.pairplot".
End Graspy.

Definition six_entry_points : list string :=
  [ Graspy.AdjacencySpectralEmbed; Graspy.OmnibusEmbed; Graspy.LatentDistributionTest;
    Graspy.sbm; Graspy.heatmap; Graspy.pairplot ].

(** [v] occurs in [x], at any depth of lists, tuples and slices. *)
Fixpoint mentions (v x : value) : bool :=
  bool_decide (x = v)
  || match x with
     | VList xs | VTuple xs => existsb (mentions v) xs
     | VSlice lo hi => mentions v lo || mentions v hi
     | _ => false
     end.

Definition uses (v : value) (ev : event) : bool :=
  existsb (mentions v) (ev_args ev)
  || existsb (fun kv => mentions v kv.2) (ev_kwargs ev)
  || match receiver ev with Some r => mentions v r | None => false end.

(** *** Phases of the flow the specification describes *)

Inductive phase := Generating | Embedding | Testing | Plotting.

#[export] Instance phase_eq_decision : EqDecision phase.
Proof. solve_decision. Defined.

Definition phase_of_entry (q : string) : option phase :=
  if String.eqb q Graspy.sbm then Some Generating
  else if String.eqb q Graspy.AdjacencySpectralEmbed
          || String.eqb q Graspy.OmnibusEmbed then Some Embedding
  else if String.eqb q Graspy.LatentDistributionTest then Some Testing
  else if String.prefix "graspy.plot." q || String.prefix "matplotlib." q then Some Plotting
  else None.

(** Function and method calls have a phase; attribute reads and subscripts
    render, sample, embed or test nothing. *)
Definition phase_of (T : list event) (ev : event) : option phase :=
  match ev_callee ev with
  | CFun q => phase_of_entry q
  | CMethod r _ => origin T r ≫= phase_of_entry
  | _ => None
  end.

Definition phases (T : list event) : list phase := omap (phase_of T) T.

Definition phase_rank (p : phase) : nat :=
  match p with Generating => 0 | Embedding => 1 | Testing => 2 | Plotting => 3 end%nat.

(** generate, then embed, then test, then plot: ranks never decrease. *)
Fixpoint linear_flow (ps : list phase) : bool :=
  match ps with
  | p :: (q :: _) as ps' => (phase_rank p <=? phase_rank q)%nat && linear_flow ps'
  | _ => true
  end.

(** No plot before the first test (and a test there is). *)
Fixpoint no_plot_before_test (ps : list phase) : bool :=
  match ps with
  | [] => false
  | Testing :: _ => true
  | Plotting :: _ => false
  | _ :: ps' => no_plot_before_test ps'
  end.

(** Runs of equal neighbours collapsed to one. *)
Fixpoint runs {A} `{EqDecision A} (l : list A) : list A :=
  match l with
  | a :: (b :: _) as l' => if decide (a = b) then runs l' else a :: runs l'
  | _ => l
  end.

(** The traces of the two notebooks when every call succeeds and returns a
    fresh object: in them a value is the same as another exactly when the
    same call produced both, so they show which call's result reaches which
    call.  The trace of a run against any library whose calls return objects
    is one of these with the objects renamed ([fresh_run_is_general]). *)
Definition T_ldt : list event := final_trace (run_fresh LatentDistributionNotebook.cells).
Definition T_omni : list event := final_trace (run_fresh OmnibusNotebook.cells).

Definition calls (q : string) (T : list event) : list event := List.filter (is_fun q) T.

Definition method_calls (m : string) (T : list event) : list event :=
  List.filter (is_method m) T.

Definition on_receiver (o : value) (T : list event) : list event :=
  List.filter (fun ev => bool_decide (receiver ev = Some o)) T.

Definition users (v : value) (T : list event) : list event := List.filter (uses v) T.

(** A callee in short: a function by its qualified name, [.m] for a method,
    [@a] for an attribute read, [[]] for a subscript. *)
Definition callee_name (c : callee) : string :=
  match c with
  | CFun q => q
  | CMethod _ m => "." +:+ m
  | CGetAttr _ a => "@" +:+ a
  | CGetItem _ => "[]"
  end.

Definition signature (ev : event) : list value * list (string * value) :=
  (ev_args ev, ev_kwargs ev).

Definition completed {W} (r : @run_result W) : bool :=
  match r with
  | Completed _ => true
  | Failed _ _ _ => false
  end.

(** The namespace after the cells up to and including cell [k] have run. *)
Definition env_after (k : nat) (nb : notebook) (x : string) : option value :=
  match run_fresh (take (S k) nb) with
  | Completed st => env st !! x
  | Failed _ _ _ => None
  end.

(** Every argument of every [fit] is something a [fit_transform] returned. *)
Definition tests_on_embeddings (T : list event) : bool :=
  forallb
    (fun ev =>
       forallb (fun a => bool_decide (Some a ∈ map result_of (method_calls "fit_transform" T)))
               (ev_args ev))
    (method_calls "fit" T).

(** Every argument of every [fit] has been passed to a [fit_transform] by an
    earlier event. *)
Fixpoint embedded_before_tested (seen rest : list event) : bool :=
  match rest with
  | [] => true
  | ev :: rest' =>
      (if is_method "fit" ev
       then forallb
              (fun a => existsb (fun ev' => is_method "fit_transform" ev'
                                            && bool_decide (ev_args ev' = [a])) seen)
              (ev_args ev)
       else true)
      && embedded_before_tested (seen ++ [ev]) rest'
  end.

(** *** 2 x 2 matrices of literals *)

Definition matrix_entry (M : value) (i j : nat) : option value :=
  match M with
  | VList rows =>
      match rows !! i with
      | Some (VList xs) => xs !! j
      | _ => None
      end
  | _ => None
  end.

(** Two literals denote the same number. *)
Definition same_number (a b : option value) : bool :=
  match a, b with
  | Some (VFloat m k), Some (VFloat m' k') =>
      m * 10 ^ Z.of_nat k' =? m' * 10 ^ Z.of_nat k
  | _, _ => false
  end.

Definition positions : list (nat * nat) := [(0, 0); (0, 1); (1, 0); (1, 1)]%nat.

Definition differing_entries (A B : value) : list (nat * nat) :=
  List.filter (fun '(i, j) => negb (same_number (matrix_entry A i j) (matrix_entry B i j)))
              positions.

Definition symmetric (M : value) : bool :=
  same_number (matrix_entry M 0 1) (matrix_entry M 1 0).

Definition has_entry (x : value) (M : value) : bool :=
  existsb (fun '(i, j) => same_number (matrix_entry M i j) (Some x)) positions.

Definition total_size (n : value) : option Z :=
  match n with
  | VList sizes =>
      foldr (fun v acc => match v, acc with VInt k, Some t => Some (k + t) | _, _ => None end)
            (Some 0) sizes
  | _ => None
  end.

(** The subscript that produced [v]: the object subscripted and the index. *)
Definition subscript_of (T : list event) (v : value) : option (value * list value) :=
  match producer T v with
  | Some ev =>
      match ev_callee ev with
      | CGetItem r => Some (r, ev_args ev)
      | _ => None
      end
  | None => None
  end.

Definition subscripts_of (o : value) (T : list event) : list event :=
  List.filter (fun ev => match ev_callee ev with
                         | CGetItem r => bool_decide (r = o)
                         | _ => false
                         end) T.

Definition kwarg (k : string) (ev : event) : option value :=
  snd <$> List.find (fun kv => String.eqb k kv.1) (ev_kwargs ev).

(** The subscripts behind the coordinate lists of an [ax.plot] call. *)
Definition line_ends (T : list event) (ev : event) : list (list (option (value * list value))) :=
  omap (fun a => match a with
                 | VList xs => Some (map (subscript_of T) xs)
                 | _ => None
                 end) (ev_args ev).

(** *** Shape of the code *)

Definition code_of (c : cell) : list stmt :=
  match c with
  | Markdown _ => []
  | Code src => src
  end.

Definition all_stmts (nb : notebook) : list stmt := concat (map code_of nb).

(** Imports, assignments and expression statements: no loop, no branch, no
    handler, no raise. *)
Definition straight_line_stmt (s : stmt) : bool :=
  match s with
  | SImport _ _ | SFromImport _ _ | SMagic _ | SAssign _ _ | SExpr _ => true
  | SFor _ _ _ | SIf _ _ _ | STry _ _ | SRaise _ _ => false
  end.

Definition straight_line (nb : notebook) : bool := forallb straight_line_stmt (all_stmts nb).

Definition control_stmts (nb : notebook) : list stmt :=
  List.filter (fun s => negb (straight_line_stmt s)) (all_stmts nb).

(** *** Names in the code *)

(** The names called as functions anywhere in an expression. *)
Fixpoint called_names (e : expr) : list string :=
  match e with
  | EName _ | EInt _ | EFloat _ _ | EStr _ => []
  | EList es | ETuple es => flat_map called_names es
  | EAttr e' _ => called_names e'
  | ESubscript e' i => called_names e' ++ called_names i
  | ESlice lo hi =>
      match lo with Some e' => called_names e' | None => [] end
      ++ match hi with Some e' => called_names e' | None => [] end
  | EBinOp _ e1 e2 => called_names e1 ++ called_names e2
  | ECall f args kwargs =>
      match f with EName x => [x] | _ => called_names f end
      ++ flat_map called_names args
      ++ flat_map (fun '(_, e') => called_names e') kwargs
  end.

(** Every name an expression mentions. *)
Fixpoint used_names (e : expr) : list string :=
  match e with
  | EName x => [x]
  | EInt _ | EFloat _ _ | EStr _ => []
  | EList es | ETuple es => flat_map used_names es
  | EAttr e' _ => used_names e'
  | ESubscript e' i => used_names e' ++ used_names i
  | ESlice lo hi =>
      match lo with Some e' => used_names e' | None => [] end
      ++ match hi with Some e' => used_names e' | None => [] end
  | EBinOp _ e1 e2 => used_names e1 ++ used_names e2
  | ECall f args kwargs =>
      used_names f ++ flat_map used_names args
      ++ flat_map (fun '(_, e') => used_names e') kwargs
  end.

(** The expressions of a statement, loop and branch bodies included. *)
Fixpoint stmt_exprs (s : stmt) : list expr :=
  match s with
  | SImport _ _ | SFromImport _ _ | SMagic _ | SRaise _ _ => []
  | SAssign _ e | SExpr e => [e]
  | SFor _ it body => it :: flat_map stmt_exprs body
  | SIf c thn els => c :: flat_map stmt_exprs thn ++ flat_map stmt_exprs els
  | STry body handler => flat_map stmt_exprs body ++ flat_map stmt_exprs handler
  end.

Definition notebook_exprs (nb : notebook) : list expr := flat_map stmt_exprs (all_stmts nb).

(** The names a notebook imports from graspy with [from graspy... import],
    each with the qualified name it stands for. *)
Definition graspy_imports (nb : notebook) : list (string * string) :=
  flat_map (fun s => match s with
                     | SFromImport m names =>
                         if String.prefix "graspy." m
                         then map (fun n => (n, qualify m n)) names
                         else []
                     | _ => []
                     end) (all_stmts nb).

(** Those of them the notebook calls. *)
Definition graspy_called (nb : notebook) : list string :=
  snd <$> List.filter
            (fun nq => bool_decide (nq.1 ∈ flat_map called_names (notebook_exprs nb)))
            (graspy_imports nb).

(** [for x in range(lo, hi): body] written out:
    [x = lo; body; x = lo + 1; body; ...]. *)
Definition unrolled (x : string) (lo hi : Z) (body : list stmt) : list stmt :=
  concat (map (fun i => SAssign (TName x) (EInt (lo + Z.of_nat i)) :: body)
              (seq 0 (Z.to_nat (hi - lo)))).

Module OmnibusUnrolled.
Import OmnibusNotebook.

Definition cell_plot : list stmt :=
  cell_plot_head ++ unrolled "i" 0 50 [plot_line] ++ cell_plot_tail.

Definition cells : notebook := take 9 OmnibusNotebook.cells ++ [Code cell_plot].

End OmnibusUnrolled.

Definition target_names (t : target) : list string :=
  match t with
  | TName x => [x]
  | TUnpack xs => xs
  end.

(** The names a statement may bind. *)
Fixpoint bound_names (s : stmt) : list string :=
  match s with
  | SImport m alias => [match alias with Some a => a | None => top_package m end]
  | SFromImport _ names => names
  | SAssign t _ => target_names t
  | SFor x _ body => x :: flat_map bound_names body
  | SIf _ thn els => flat_map bound_names thn ++ flat_map bound_names els
  | STry body handler => flat_map bound_names body ++ flat_map bound_names handler
  | SMagic _ | SExpr _ | SRaise _ _ => []
  end.

(** No [try] anywhere in the statement. *)
Fixpoint handler_free (s : stmt) : bool :=
  match s with
  | STry _ _ => false
  | SFor _ _ body => forallb handler_free body
  | SIf _ thn els => forallb handler_free thn && forallb handler_free els
  | _ => true
  end.

Definition shape {W A} (r : result W A) : option exn * state W :=
  match r with
  | Done _ st => (None, st)
  | Raised e st => (Some e, st)
  end.

(** ** Exceptions of the library *)

Definition raising (ev : event) : bool :=
  match ev_out ev with
  | Exn _ => true
  | Ret _ => false
  end.

(** No event of the trace raised. *)
Definition clean (T : list event) : Prop := Forall (fun ev => raising ev = false) T.

(** [st'] is the state a call made in cell [i] left behind when it raised
    [e]: nothing ran after that call, and no call before it had raised. *)
Definition stopped_by {W} `{Library W} (st' : state W) (i : nat) (e : exn) : Prop :=
  exists (st0 : state W) (c : callee) (vs : list value) (kvs : list (string * value)),
    cur_cell st0 = i /\ clean (trace st0) /\ ext_call c vs kvs st0 = Raised e st'.

Definition handler_free_notebook (nb : notebook) : bool :=
  forallb handler_free (all_stmts nb).

(** ** Seeding *)

(** [np.random.seed(k)] *)
Definition seed_stmt (k : Z) : stmt :=
  SExpr (method_call (EAttr (EName "np") "random") "seed" [EInt k] []).

(** Seeding leaves the library in a state, and with an answer, that depend on
    the seed alone. *)
Definition seed_resets {W} (L : Library W) : Prop :=
  forall (k : Z) (w w' : W),
    lib_call (CFun "numpy.random.seed") [VInt k] [] w
    = lib_call (CFun "numpy.random.seed") [VInt k] [] w'.

(** [np.random.seed(...)] as a statement, and a notebook without them. *)
Definition is_seed_stmt (s : stmt) : bool :=
  match s with
  | SExpr (ECall (EAttr (EAttr (EName "np") "random") "seed") _ _) => true
  | _ => false
  end.

Definition without_seed (nb : notebook) : notebook :=
  map (fun c => match c with
                | Code src => Code (List.filter (fun s => negb (is_seed_stmt s)) src)
                | Markdown t => Markdown t
                end) nb.

(** The namespace of the omnibus notebook after its import cell, and after
    the literals of its simulation cell. *)
Definition omnibus_env1 : gmap string value :=
  <["np" := VExt "numpy"]>
    (<["plt" := VExt "matplotlib.pyplot"]> (<["graspy" := VExt "graspy"]> builtins)).

Definition omnibus_env2 : gmap string value :=
  <["P2" := VList [VList [VFloat 3 1; VFloat 1 1]; VList [VFloat 1 1; VFloat 3 1]]]>
    (<["P1" := VList [VList [VFloat 3 1; VFloat 1 1]; VList [VFloat 1 1; VFloat 7 1]]]>
       (<["n" := VList [VInt 25; VInt 25]]>
          (<["sbm" := VExt "graspy.simulations.sbm"]> omnibus_env1))).

(** What the hypothesis-test notebook passes to every test it constructs
    besides the test's name, and what it does with a test object. *)
Definition ldt_kwargs : list (string * value) :=
  [("metric", VStr "euclidean"); ("n_bootstraps", VInt 200)].

Definition fit_then_report : list string :=
  [".fit"; "@p_value_"; "@null_distribution_"; "@sample_T_statistic_"; "@p_value_"].

(** Subscripts [lo:hi, col] and [i, col] as the library receives them. *)
Definition rows (lo hi : value) (col : Z) : list value := [VTuple [VSlice lo hi; VInt col]].

Definition at_row (i : nat) (col : Z) : list value := [VTuple [VInt (Z.of_nat i); VInt col]].

(** ** Renaming the objects of a run *)

(** [ren σ v]: every object [VRef i] of [v] replaced by the object [σ] names
    at position [i]. *)
Fixpoint ren (σ : list nat) (v : value) : value :=
  match v with
  | VRef i => VRef (default 0%nat (σ !! i))
  | VList vs => VList (ren σ <$> vs)
  | VTuple vs => VTuple (ren σ <$> vs)
  | VSlice lo hi => VSlice (ren σ lo) (ren σ hi)
  | _ => v
  end.

(** Every object of [v] has a number below [n]. *)
Fixpoint bounded (n : nat) (v : value) : bool :=
  match v with
  | VRef i => (i <? n)%nat
  | VList vs | VTuple vs => forallb (bounded n) vs
  | VSlice lo hi => bounded n lo && bounded n hi
  | _ => true
  end.

Definition ren_kw (σ : list nat) (kv : string * value) : string * value := (kv.1, ren σ kv.2).

Definition ren_callee (σ : list nat) (c : callee) : callee :=
  match c with
  | CFun q => CFun q
  | CMethod r m => CMethod (ren σ r) m
  | CGetAttr r a => CGetAttr (ren σ r) a
  | CGetItem r => CGetItem (ren σ r)
  end.

Definition ren_out (σ : list nat) (o : outcome) : outcome :=
  match o with
  | Ret v => Ret (ren σ v)
  | Exn e => Exn e
  end.

Definition ren_event (σ : list nat) (ev : event) : event :=
  Event (ev_cell ev) (ren_callee σ (ev_callee ev)) (ren σ <$> ev_args ev)
        (ren_kw σ <$> ev_kwargs ev) (ren_out σ (ev_out ev)).

Definition callee_bounded (n : nat) (c : callee) : bool :=
  match c with
  | CFun _ => true
  | CMethod r _ | CGetAttr r _ | CGetItem r => bounded n r
  end.

Definition event_bounded (n : nat) (ev : event) : bool :=
  callee_bounded n (ev_callee ev)
  && forallb (bounded n) (ev_args ev)
  && forallb (fun kv => bounded n kv.2) (ev_kwargs ev)
  && match ev_out ev with Ret v => bounded n v | Exn _ => true end.

(** A library of objects: every call returns an object, [plt.subplots] a pair
    of objects, and no call raises. *)
Definition object_returning {W} (L : Library W) : Prop :=
  forall c vs kvs w,
    match c with
    | CFun q =>
        if String.eqb q "matplotlib.pyplot.subplots"
        then exists i j w', lib_call c vs kvs w = (Ret (VTuple [VRef i; VRef j]), w')
        else exists i w', lib_call c vs kvs w = (Ret (VRef i), w')
    | _ => exists i w', lib_call c vs kvs w = (Ret (VRef i), w')
    end.

(** The subscript reads of a run, in order. *)
Definition item_reads (T : list event) : list event :=
  List.filter (fun ev => match ev_callee ev with CGetItem _ => true | _ => false end) T.

(** The functions and classes a run calls by name, in order. *)
Definition fun_names (T : list event) : list string :=
  omap (fun ev => match ev_callee ev with CFun q => Some q | _ => None end) T.

(** *** Reading a cell's calls *)

(** The events of cell [k]. *)
Definition cell_events (k : nat) (T : list event) : list event :=
  List.filter (fun ev => Nat.eqb (ev_cell ev) k) T.

(** A call as the library sees it, with what it answered. *)
Definition call_view : Type := callee * list value * list (string * value) * option value.

Definition view (ev : event) : call_view :=
  (ev_callee ev, ev_args ev, ev_kwargs ev, result_of ev).

(** The objects one histogram panel handles: the three reads of the axis, the
    three attributes of the test, the formatted title, and what the three
    drawing calls answer. *)
Record panel_objects := PanelObjects {
  hist_axis : value; null_distribution : value; hist_answer : value;
  line_axis : value; statistic : value; line_answer : value;
  title_axis : value; p_value : value; title_text : value; title_answer : value
}.

(** The calls of [panel i ldt label] when [ax] is bound to [axes] and [ldt]
    to [t]. *)
Definition panel_calls (i : Z) (label : string) (axes t : value) (o : panel_objects)
    : list call_view :=
  [ (CGetItem axes, [VInt i], [], Some (hist_axis o));
    (CGetAttr t "null_distribution_", [], [], Some (null_distribution o));
    (CMethod (hist_axis o) "hist", [null_distribution o; VInt 50], [], Some (hist_answer o));
    (CGetItem axes, [VInt i], [], Some (line_axis o));
    (CGetAttr t "sample_T_statistic_", [], [], Some (statistic o));
    (CMethod (line_axis o) "axvline", [statistic o], [("color", VStr "r")],
     Some (line_answer o));
    (CGetItem axes, [VInt i], [], Some (title_axis o));
    (CGetAttr t "p_value_", [], [], Some (p_value o));
    (CMethod (VStr label) "format", [p_value o], [], Some (title_text o));
    (CMethod (title_axis o) "set_title", [title_text o], [("fontsize", VInt 20)],
     Some (title_answer o)) ].

(** The calls of the histogram cell for the tests [td] and [tm]. *)
Definition histogram_calls (td tm fig axes : value) (d m : panel_objects) (shown : value)
    : list call_view :=
  (CFun "matplotlib.pyplot.subplots", [VInt 1; VInt 2],
   [("figsize", VTuple [VInt 10; VInt 6])], Some (VTuple [fig; axes]))
  :: panel_calls 0 "DCorr: P-value = {}" axes td d
  ++ panel_calls 1 "MGC: P-value = {}" axes tm m
  ++ [(CFun "matplotlib.pyplot.show", [], [], Some shown)].

(** The objects of ten consecutive answers starting at object [k]. *)
Definition panel_at (σ : list nat) (k : nat) : panel_objects :=
  PanelObjects (ren σ (VRef k)) (ren σ (VRef (k + 1))) (ren σ (VRef (k + 2)))
               (ren σ (VRef (k + 3))) (ren σ (VRef (k + 4))) (ren σ (VRef (k + 5)))
               (ren σ (VRef (k + 6))) (ren σ (VRef (k + 7))) (ren σ (VRef (k + 8)))
               (ren σ (VRef (k + 9))).

Record scatter_objects := ScatterObjects {
  xs_read : value; ys_read : value; scatter_answer : value
}.

(** The calls of [scatter X lo hi marker colour label] when [ax] is bound to
    [axes] and [X] to [X]. *)
Definition scatter_calls (axes X lo hi : value) (marker colour label : string)
    (o : scatter_objects) : list call_view :=
  [ (CGetItem X, rows lo hi 0, [], Some (xs_read o));
    (CGetItem X, rows lo hi 1, [], Some (ys_read o));
    (CMethod axes "scatter", [xs_read o; ys_read o],
     [("marker", VStr marker); ("c", VStr colour); ("label", VStr label)],
     Some (scatter_answer o)) ].

(** The objects of one pass of the loop: the four coordinate reads and the
    answer of [ax.plot]. *)
Record line_objects := LineObjects {
  x_first : value; x_second : value; y_first : value; y_second : value;
  plot_answer : value
}.

(** The calls of [plot_line] when [i] is bound to [i]. *)
Definition line_calls (axes X1 X2 : value) (i : nat) (o : line_objects) : list call_view :=
  [ (CGetItem X1, at_row i 0, [], Some (x_first o));
    (CGetItem X2, at_row i 0, [], Some (x_second o));
    (CGetItem X1, at_row i 1, [], Some (y_first o));
    (CGetItem X2, at_row i 1, [], Some (y_second o));
    (CMethod axes "plot",
     [VList [x_first o; x_second o]; VList [y_first o; y_second o]; VStr "black"],
     [("alpha", VFloat 15 2)], Some (plot_answer o)) ].

Definition scatter_at (σ : list nat) (k : nat) : scatter_objects :=
  ScatterObjects (ren σ (VRef k)) (ren σ (VRef (k + 1))) (ren σ (VRef (k + 2))).

Definition line_at (σ : list nat) (k : nat) : line_objects :=
  LineObjects (ren σ (VRef k)) (ren σ (VRef (k + 1))) (ren σ (VRef (k + 2)))
              (ren σ (VRef (k + 3))) (ren σ (VRef (k + 4))).

(** *** Names bound before they are read *)

Definition exn_class (e : exn) : string :=
  match e with PyExn cls _ => cls end.

(** [e] is what the last call of [T] answered. *)
Definition raised_by_library (e : exn) (T : list event) : Prop :=
  ev_out <$> last T = Some (Exn e).

(** The names a statement has bound once it has completed. *)
Definition defines (s : stmt) : list string :=
  match s with
  | SImport m alias => [match alias with Some a => a | None => top_package m end]
  | SFromImport _ names => names
  | SAssign t _ => target_names t
  | _ => []
  end.

Definition defined_after (D : list string) (ss : list stmt) : list string :=
  foldl (fun D s => defines s ++ D) D ss.

Definition reads_within (D : list string) (e : expr) : bool :=
  forallb (fun x => bool_decide (x ∈ D)) (used_names e).

(** Every name [s] reads is in [D] or bound earlier in [s]; [s] does not
    raise a [NameError] of its own. *)
Fixpoint reads_defined (D : list string) (s : stmt) : bool :=
  let block := fix block (D : list string) (ss : list stmt) : bool :=
    match ss with
    | [] => true
    | s' :: ss' => reads_defined D s' && block (defines s' ++ D) ss'
    end in
  match s with
  | SAssign _ e | SExpr e => reads_within D e
  | SFor x it body => reads_within D it && block (x :: D) body
  | SIf c thn els => reads_within D c && block D thn && block D els
  | STry body handler => block D body && block D handler
  | SRaise cls _ => negb (String.eqb cls "NameError")
  | SImport _ _ | SFromImport _ _ | SMagic _ => true
  end.

Fixpoint block_reads_defined (D : list string) (ss : list stmt) : bool :=
  match ss with
  | [] => true
  | s :: ss' => reads_defined D s && block_reads_defined (defines s ++ D) ss'
  end.

Fixpoint cells_read_defined (D : list string) (cs : list cell) : bool :=
  match cs with
  | [] => true
  | c :: cs' =>
      block_reads_defined D (code_of c)
      && cells_read_defined (defined_after D (code_of c)) cs'
  end.

Definition defined_after_cells (D : list string) (cs : list cell) : list string :=
  foldl (fun D c => defined_after D (code_of c)) D cs.

Definition final_env {W} (r : @run_result W) : gmap string value :=
  match r with
  | Completed st => env st
  | Failed _ _ st => env st
  end.

(** A run that failed did not fail on an unbound name: its exception is the
    library's, or it is not a [NameError]. *)

(** *** Imports *)

(** What an import statement binds. *)
Definition import_bindings (s : stmt) : list (string * value) :=
  match s with
  | SImport m alias =>
      [(match alias with Some a => a | None => top_package m end,
        VExt (match alias with Some _ => m | None => top_package m end))]
  | SFromImport m names => map (fun n => (n, VExt (qualify m n))) names
  | _ => []
  end.

Definition imports (nb : notebook) : list (string * value) :=
  flat_map import_bindings (all_stmts nb).

(** [s] binds the names of the table [tbl] only by importing them as [tbl]
    has them. *)
Definition keeps_imports (tbl : gmap string value) (s : stmt) : bool :=
  match s with
  | SImport _ _ | SFromImport _ _ =>
      forallb (fun xv => bool_decide (tbl !! xv.1 = Some xv.2)) (import_bindings s)
  | _ => forallb (fun x => bool_decide (tbl !! x = None)) (bound_names s)
  end.

(** Every name of [tbl] is unbound in [E] or bound as in [tbl]. *)
Definition agrees (tbl E : gmap string value) : Prop :=
  forall x v, tbl !! x = Some v -> E !! x = None \/ E !! x = Some v.

(** The names a notebook never rebinds: the two builtins it uses and its
    imports. *)
Definition fixed_names (nb : notebook) : list (string * value) :=
  [("print", VExt "builtins.print"); ("range", VExt "builtins.range")] ++ imports nb.

(** *** Cells and calls *)



(** The most calls an expression can make: one for each attribute read,
    subscript and call in it. *)
Fixpoint max_calls (e : expr) : nat :=
  match e with
  | EName _ | EInt _ | EFloat _ _ | EStr _ => 0
  | EList es | ETuple es => sum_list_with max_calls es
  | EAttr e' _ => S (max_calls e')
  | ESubscript e' i => S (max_calls e' + max_calls i)
  | ESlice lo hi =>
      match lo with Some e' => max_calls e' | None => 0 end
      + match hi with Some e' => max_calls e' | None => 0 end
  | EBinOp _ e1 e2 => max_calls e1 + max_calls e2
  | ECall f args kwargs =>
      S (match f with EAttr r _ => max_calls r | _ => max_calls f end
         + sum_list_with max_calls args
         + sum_list_with (fun kv : string * expr => max_calls kv.2) kwargs)
  end.

(** The most calls a statement without loop or branch can make. *)
Definition stmt_max_calls (s : stmt) : nat :=
  match s with
  | SAssign _ e | SExpr e => max_calls e
  | _ => 0
  end.

Definition notebook_max_calls (nb : notebook) : nat :=
  sum_list_with stmt_max_calls (all_stmts nb).

(** The calls of [X = AdjacencySpectralEmbed(n_components=2).fit_transform(A)]. *)
Definition embed_calls (A ase X : value) : list call_view :=
  [ (CFun Graspy.AdjacencySpectralEmbed, [], [("n_components", VInt 2)], Some ase);
    (CMethod ase "fit_transform", [A], [], Some X) ].


(** ** Theorems *)

Ltac by_computation := apply (bool_decide_unpack _); vm_compute; exact I.

Ltac split_all := repeat match goal with |- _ /\ _ => split end.

Ltac compute_Forall :=
  repeat (apply Forall_cons_2; [vm_compute; reflexivity |]); apply Forall_nil_2.

Ltac compute_all :=
  split_all;
  lazymatch goal with
  | |- Forall _ _ => compute_Forall
  | |- _ = _ => vm_compute; reflexivity
  | |- _ => idtac
  end.

(** ** Reasoning about every library *)

(** Induction over expressions and statements, through the lists they nest. *)
Section ExprInduction.
Variable P : expr -> Prop.
Hypothesis HName : forall x, P (EName x).
Hypothesis HInt : forall n, P (EInt n).
Hypothesis HFloat : forall m k, P (EFloat m k).
Hypothesis HStr : forall s, P (EStr s).
Hypothesis HList : forall es, Forall P es -> P (EList es).
Hypothesis HTuple : forall es, Forall P es -> P (ETuple es).
Hypothesis HAttr : forall e a, P e -> P (EAttr e a).
Hypothesis HSubscript : forall e i, P e -> P i -> P (ESubscript e i).
Hypothesis HSlice : forall lo hi,
  (forall e, lo = Some e -> P e) -> (forall e, hi = Some e -> P e) -> P (ESlice lo hi).
Hypothesis HBinOp : forall op e1 e2, P e1 -> P e2 -> P (EBinOp op e1 e2).
Hypothesis HCall : forall f args kwargs,
  P f -> (forall r m, f = EAttr r m -> P r) ->
  Forall P args -> Forall (fun kv => P kv.2) kwargs -> P (ECall f args kwargs).

Lemma expr_nested_ind (e : expr) : P e.
Proof.
  revert e. fix IH 1. intros [x|n|d k|s|es|es|e a|e i|lo hi|op e1 e2|f args kwargs].
  - apply HName.
  - apply HInt.
  - apply HFloat.
  - apply HStr.
  - apply HList. induction es; constructor; [apply IH | assumption].
  - apply HTuple. induction es; constructor; [apply IH | assumption].
  - apply HAttr, IH.
  - apply HSubscript; apply IH.
  - apply HSlice; [destruct lo as [e0|] | destruct hi as [e0|]];
      intros e Heq; try discriminate Heq;
      (assert (He0 : P e0) by apply IH); injection Heq as <-; exact He0.
  - apply HBinOp; apply IH.
  - apply HCall.
    + apply IH.
    + destruct f as [| | | | | |r0 m0| | | |]; intros rr mm Heq; try discriminate Heq.
      assert (Hr : P r0) by apply IH.
      injection Heq as <- _. exact Hr.
    + induction args; constructor; [apply IH | assumption].
    + induction kwargs as [|[k e] kwargs IHk]; constructor; [apply IH | assumption].
Qed.
End ExprInduction.

Section StmtInduction.
Variable P : stmt -> Prop.
Hypothesis HImport : forall m a, P (SImport m a).
Hypothesis HFromImport : forall m ns, P (SFromImport m ns).
Hypothesis HMagic : forall l, P (SMagic l).
Hypothesis HAssign : forall t e, P (SAssign t e).
Hypothesis HExpr : forall e, P (SExpr e).
Hypothesis HFor : forall x it body, Forall P body -> P (SFor x it body).
Hypothesis HIf : forall c thn els, Forall P thn -> Forall P els -> P (SIf c thn els).
Hypothesis HTry : forall body handler, Forall P body -> Forall P handler -> P (STry body handler).
Hypothesis HRaise : forall cls msg, P (SRaise cls msg).

Fixpoint stmt_nested_ind (s : stmt) : P s :=
  let all := fix all (ss : list stmt) : Forall P ss :=
    match ss with
    | [] => Forall_nil_2 P
    | s' :: ss' => Forall_cons_2 P s' ss' (stmt_nested_ind s') (all ss')
    end in
  match s with
  | SImport m a => HImport m a
  | SFromImport m ns => HFromImport m ns
  | SMagic l => HMagic l
  | SAssign t e => HAssign t e
  | SExpr e => HExpr e
  | SFor x it body => HFor x it body (all body)
  | SIf c thn els => HIf c thn els (all thn) (all els)
  | STry body handler => HTry body handler (all body) (all handler)
  | SRaise cls msg => HRaise cls msg
  end.
End StmtInduction.

Section Unfolding.
Context {W : Type} `{Library W}.

Lemma exec_for x it body :
  exec (SFor x it body)
  = (v <- eval it ;; vs <- iter_values v ;; for_each x (exec_block body) vs).
Proof. reflexivity. Qed.

Lemma exec_if c thn els :
  exec (SIf c thn els)
  = (v <- eval c ;; if truthy v then exec_block thn else exec_block els).
Proof. reflexivity. Qed.

Lemma exec_try body handler st :
  exec (STry body handler) st
  = match exec_block body st with
    | Done a st' => Done a st'
    | Raised _ st' => exec_block handler st'
    end.
Proof. reflexivity. Qed.

Lemma exec_block_cons s ss st :
  exec_block (s :: ss) st
  = match exec s st with
    | Done _ st' => exec_block ss st'
    | Raised e st' => Raised e st'
    end.
Proof. reflexivity. Qed.

Lemma exec_block_app ss1 ss2 st :
  exec_block (ss1 ++ ss2) st
  = match exec_block ss1 st with
    | Done _ st' => exec_block ss2 st'
    | Raised e st' => Raised e st'
    end.
Proof.
  revert st. induction ss1 as [|s ss1 IH]; intros st; [reflexivity|].
  rewrite <- app_comm_cons, !exec_block_cons.
  destruct (exec s st); [apply IH | reflexivity].
Qed.

Lemma run_cells_code i src cs st :
  run_cells i (Code src :: cs) st
  = match exec_block src (enter_cell i st) with
    | Done _ st' => run_cells (S i) cs st'
    | Raised e st' => Failed i e st'
    end.
Proof. reflexivity. Qed.

Lemma run_cells_app i cs1 cs2 st :
  run_cells i (cs1 ++ cs2) st
  = match run_cells i cs1 st with
    | Completed st' => run_cells (i + length cs1) cs2 st'
    | Failed j e st' => Failed j e st'
    end.
Proof.
  revert i st. induction cs1 as [|c cs1 IH]; intros i st.
  - simpl. by rewrite Nat.add_0_r.
  - destruct c as [t|src]; simpl.
    + rewrite IH. by replace (S i + length cs1)%nat with (i + S (length cs1))%nat by lia.
    + destruct (exec_block src (enter_cell i st)); [|reflexivity].
      rewrite IH. by replace (S i + length cs1)%nat with (i + S (length cs1))%nat by lia.
Qed.
End Unfolding.

(** A property [Q] of a computation's start state and its outcome that holds
    of every step the interpreter takes holds of every expression, and of
    every statement that binds only [allowed] names and, unless [Q] survives a
    handler, contains no [try]. *)
Section Soundness.
Context {W : Type} `{Library W}.
Variable Q : state W -> option exn * state W -> Prop.
Variable allowed : string -> Prop.
Variable catching : bool.

Hypothesis Q_refl : forall st, Q st (None, st).
Hypothesis Q_raise : forall st e, Q st (Some e, st).
Hypothesis Q_seq : forall st st1 r, Q st (None, st1) -> Q st1 r -> Q st r.
Hypothesis Q_ext : forall c vs kvs st, Q st (shape (ext_call c vs kvs st)).
Hypothesis Q_bind_name : forall x v st,
  allowed x -> Q st (None, State (<[x := v]> (env st)) (world st) (trace st) (cur_cell st)).
Hypothesis Q_catch : catching = true ->
  forall st e st1 r, Q st (Some e, st1) -> Q st1 r -> Q st r.

Definition sound {A} (m : M W A) : Prop := forall st, Q st (shape (m st)).

Lemma sound_ret {A} (a : A) : sound (ret a).
Proof. intros st. apply Q_refl. Qed.

Lemma sound_raise {A} cls msg : sound (raise (A := A) cls msg).
Proof. intros st. apply Q_raise. Qed.

Lemma sound_bind {A B} (m : M W A) (f : A -> M W B) :
  sound m -> (forall a, sound (f a)) -> sound (bind m f).
Proof.
  intros Hm Hf st. unfold bind. specialize (Hm st).
  destruct (m st) as [a st1|e st1]; simpl in *.
  - eapply Q_seq; [exact Hm | apply Hf].
  - exact Hm.
Qed.

Lemma sound_mapM {A B} (f : A -> M W B) (l : list A) :
  Forall (fun a => sound (f a)) l -> sound (mapM f l).
Proof.
  induction 1 as [|a l Ha _ IH]; simpl.
  - apply sound_ret.
  - apply sound_bind; [exact Ha | intros b].
    apply sound_bind; [exact IH | intros bs]. apply sound_ret.
Qed.

Lemma sound_lookup_name x : sound (lookup_name x).
Proof.
  intros st. unfold lookup_name. destruct (env st !! x); simpl; [apply Q_refl | apply Q_raise].
Qed.

Lemma sound_ext_call c vs kvs : sound (ext_call c vs kvs).
Proof. intros st. apply Q_ext. Qed.

Lemma sound_get_attr v a : sound (get_attr v a).
Proof. destruct v; simpl; first [apply sound_ret | apply sound_ext_call]. Qed.

Lemma sound_get_item v k : sound (get_item v k).
Proof.
  destruct v; simpl; try apply sound_ext_call;
    (destruct k; try apply sound_raise;
     [ destruct (py_index _ _); [apply sound_ret | apply sound_raise]
     | destruct (py_slice _ _ _); [apply sound_ret | apply sound_raise] ]).
Qed.

Lemma sound_call_value f vs kvs : sound (call_value f vs kvs).
Proof.
  destruct f; simpl; try apply sound_raise; try apply sound_ext_call.
  destruct (String.eqb _ _); [|apply sound_ext_call].
  destruct vs as [|[] [|[] []]]; try apply sound_raise;
    destruct kvs; first [apply sound_ret | apply sound_raise].
Qed.

Lemma sound_call_attr r m vs kvs : sound (call_attr r m vs kvs).
Proof.
  unfold call_attr. destruct r; first [apply sound_call_value | apply sound_ext_call].
Qed.

Lemma sound_bin_op op x y : sound (bin_op (W := W) op x y).
Proof. destruct op, x, y; simpl; first [apply sound_ret | apply sound_raise]. Qed.

Lemma sound_eval e : sound (eval e).
Proof.
  induction e using expr_nested_ind; simpl.
  - apply sound_lookup_name.
  - apply sound_ret.
  - apply sound_ret.
  - apply sound_ret.
  - apply sound_bind; [by apply sound_mapM | intros; apply sound_ret].
  - apply sound_bind; [by apply sound_mapM | intros; apply sound_ret].
  - apply sound_bind; [done | intros; apply sound_get_attr].
  - apply sound_bind; [done | intros].
    apply sound_bind; [done | intros; apply sound_get_item].
  - apply sound_bind; [destruct lo; [eauto | apply sound_ret] | intros].
    apply sound_bind; [destruct hi; [eauto | apply sound_ret] | intros].
    apply sound_ret.
  - apply sound_bind; [done | intros].
    apply sound_bind; [done | intros; apply sound_bin_op].
  - assert (Hkw : sound (mapM (fun '(k, e') => v <- eval e' ;; ret (k, v)) kwargs)).
    { apply sound_mapM. eapply Forall_impl; [eassumption|].
      intros [k e'] He'; simpl in *.
      apply sound_bind; [done | intros; apply sound_ret]. }
    assert (Hargs : sound (mapM eval args)) by by apply sound_mapM.
    destruct e; simpl.
    all: try (apply sound_bind; [done | intros];
              apply sound_bind; [done | intros];
              apply sound_bind; [done | intros; apply sound_call_value]).
    apply sound_bind; [by eapply H0 | intros].
    apply sound_bind; [done | intros].
    apply sound_bind; [done | intros; apply sound_call_attr].
Qed.
Lemma sound_bind_name x v : allowed x -> sound (bind_name x v).
Proof. intros Hx st. by apply Q_bind_name. Qed.

Lemma sound_bind_names (xs : list string) (vs : list value) :
  Forall allowed xs -> sound (mapM (fun '(x, v) => bind_name x v) (zip xs vs)).
Proof.
  intros Hxs. apply sound_mapM. revert vs.
  induction Hxs as [|x xs Hx _ IH]; intros [|v vs]; simpl; constructor.
  - by apply sound_bind_name.
  - apply IH.
Qed.

Lemma sound_assign t v : Forall allowed (target_names t) -> sound (assign t v).
Proof.
  intros Ht. destruct t as [x|xs]; simpl in *.
  - apply sound_bind_name. by inversion Ht.
  - destruct v; try apply sound_raise;
      (destruct (Nat.eqb _ _); [|apply sound_raise]);
      (apply sound_bind; [by apply sound_bind_names | intros; apply sound_ret]).
Qed.

Lemma sound_iter_values v : sound (iter_values v).
Proof. destruct v; simpl; first [apply sound_ret | apply sound_raise]. Qed.

Lemma sound_for_each x body vs : allowed x -> sound body -> sound (for_each x body vs).
Proof.
  intros Hx Hbody. induction vs as [|v vs IH]; simpl.
  - apply sound_ret.
  - apply sound_bind; [by apply sound_bind_name | intros _].
    apply sound_bind; [exact Hbody | intros _; exact IH].
Qed.

Lemma sound_exec_block ss : Forall (fun s => sound (exec s)) ss -> sound (exec_block ss).
Proof.
  induction 1 as [|s ss Hs _ IH]; simpl.
  - apply sound_ret.
  - apply sound_bind; [exact Hs | intros _; exact IH].
Qed.

Definition permitted (s : stmt) : Prop :=
  Forall allowed (bound_names s) /\ (catching = true \/ handler_free s = true).

Lemma permitted_block (ss : list stmt) :
  Forall allowed (flat_map bound_names ss) ->
  catching = true \/ forallb handler_free ss = true ->
  Forall permitted ss.
Proof.
  induction ss as [|s ss IH]; simpl; intros Hb Hc; constructor.
  - split.
    + apply Forall_app in Hb. tauto.
    + destruct Hc as [Hc|Hc]; [by left | right].
      apply andb_true_iff in Hc. tauto.
  - apply IH.
    + apply Forall_app in Hb. tauto.
    + destruct Hc as [Hc|Hc]; [by left | right].
      apply andb_true_iff in Hc. tauto.
Qed.

Lemma sound_block_of (ss : list stmt) :
  Forall (fun s => permitted s -> sound (exec s)) ss ->
  Forall permitted ss -> sound (exec_block ss).
Proof.
  intros IH Hp. apply sound_exec_block.
  induction IH as [|s ss Hs _ IHss]; constructor; inversion Hp; subst; auto.
Qed.

Theorem sound_exec s : permitted s -> sound (exec s).
Proof.
  induction s as [m a|m ns|l|t e|e|x it body IH|c thn els IH1 IH2|body handler IH1 IH2|cls msg]
    using stmt_nested_ind; intros [Hb Hc].
  - simpl in *. apply sound_bind_name. by inversion Hb.
  - simpl in *. apply sound_bind; [|intros; apply sound_ret].
    apply sound_mapM. eapply Forall_impl; [exact Hb|].
    intros n Hn. by apply sound_bind_name.
  - apply sound_ret.
  - simpl in *. apply sound_bind; [apply sound_eval | intros v; by apply sound_assign].
  - simpl. apply sound_bind; [apply sound_eval | intros; apply sound_ret].
  - rewrite exec_for. simpl in Hb, Hc. apply Forall_cons in Hb as [Hx Hb].
    apply sound_bind; [apply sound_eval | intros v].
    apply sound_bind; [apply sound_iter_values | intros vs].
    apply sound_for_each; [exact Hx|].
    apply sound_block_of; [exact IH|]. by apply permitted_block.
  - rewrite exec_if. simpl in Hb, Hc. apply Forall_app in Hb as [Hb1 Hb2].
    assert (Hc1 : catching = true \/ forallb handler_free thn = true).
    { destruct Hc as [Hc|Hc]; [by left | right]. apply andb_true_iff in Hc. tauto. }
    assert (Hc2 : catching = true \/ forallb handler_free els = true).
    { destruct Hc as [Hc|Hc]; [by left | right]. apply andb_true_iff in Hc. tauto. }
    apply sound_bind; [apply sound_eval | intros v].
    destruct (truthy v); apply sound_block_of; auto using permitted_block.
  - simpl in Hb, Hc. apply Forall_app in Hb as [Hb1 Hb2].
    destruct Hc as [Hc|Hc]; [|discriminate Hc].
    assert (S1 : sound (exec_block body))
      by (apply sound_block_of; auto using permitted_block).
    assert (S2 : sound (exec_block handler))
      by (apply sound_block_of; auto using permitted_block).
    intros st. rewrite exec_try. specialize (S1 st).
    destruct (exec_block body st) as [a st1|e st1]; simpl in *; [exact S1|].
    eapply Q_catch; [exact Hc | exact S1 | apply S2].
  - apply sound_raise.
Qed.

Lemma sound_cell (src : list stmt) : Forall permitted src -> sound (exec_block src).
Proof.
  intros Hp. apply sound_exec_block. eapply Forall_impl; [exact Hp|].
  intros s. apply sound_exec.
Qed.
End Soundness.

Section Propagation.
Context {W : Type} `{Library W}.

Definition propagated (st : state W) (r : option exn * state W) : Prop :=
  cur_cell r.2 = cur_cell st
  /\ (clean (trace st) ->
      match r.1 with
      | None => clean (trace r.2)
      | Some e => clean (trace r.2) \/ stopped_by r.2 (cur_cell st) e
      end).

Lemma ext_call_raised c vs kvs (st0 st' : state W) e :
  ext_call c vs kvs st0 = Raised e st' ->
  env st' = env st0
  /\ cur_cell st' = cur_cell st0
  /\ trace st' = trace st0 ++ [Event (cur_cell st0) c vs kvs (Exn e)]
  /\ lib_call c vs kvs (world st0) = (Exn e, world st').
Proof.
  unfold ext_call. destruct (lib_call c vs kvs (world st0)) as [[v|e0] w'];
    [discriminate|].
  intros [= <- <-]. by simpl.
Qed.

Lemma propagated_ext c vs kvs st : propagated st (shape (ext_call c vs kvs st)).
Proof.
  destruct (ext_call c vs kvs st) as [v st'|e st'] eqn:Hcall;
    (split; [|simpl; intros Hc]).
  - unfold ext_call in Hcall.
    destruct (lib_call c vs kvs (world st)) as [[v0|e0] w']; [|discriminate].
    by injection Hcall as _ <-.
  - unfold ext_call in Hcall.
    destruct (lib_call c vs kvs (world st)) as [[v0|e0] w']; [|discriminate].
    injection Hcall as _ <-. simpl.
    apply Forall_app. split; [exact Hc|]. by repeat constructor.
  - by apply ext_call_raised in Hcall as (_ & Hcell & _).
  - right. exists st, c, vs, kvs. done.
Qed.

Lemma exec_block_propagated (src : list stmt) :
  forallb handler_free src = true -> forall st, propagated st (shape (exec_block src st)).
Proof.
  intros Hf.
  apply (sound_cell propagated (fun _ => True) false).
  - intros st. split; [reflexivity | simpl; tauto].
  - intros st e. split; [reflexivity | simpl; tauto].
  - intros st st1 [oe st2] [Hc1 H1] [Hc2 H2]. unfold propagated. simpl in *.
    split; [congruence|].
    intros Hc. rewrite <- Hc1. apply H2. by apply H1.
  - apply propagated_ext.
  - intros x v st _. split; [reflexivity | simpl; tauto].
  - discriminate.
  - apply Forall_forall. intros s Hs. split.
    + apply Forall_forall. done.
    + right. rewrite forallb_forall in Hf. apply Hf. by apply list_elem_of_In.
Qed.

Lemma run_cells_propagated (cs : list cell) : forall (i : nat) (st : state W),
  handler_free_notebook cs = true -> clean (trace st) ->
  match run_cells i cs st with
  | Completed st' => clean (trace st')
  | Failed j e st' => clean (trace st') \/ stopped_by st' j e
  end.
Proof.
  induction cs as [|[t|src] cs IH]; intros i st Hf Hc; simpl.
  - exact Hc.
  - by apply IH.
  - unfold handler_free_notebook, all_stmts in Hf. simpl in Hf.
    rewrite forallb_app in Hf. apply andb_true_iff in Hf as [Hsrc Hcs].
    pose proof (exec_block_propagated src Hsrc (enter_cell i st)) as [Hcell Hp].
    destruct (exec_block src (enter_cell i st)) as [a st'|e st']; simpl in *.
    + apply IH; [exact Hcs | by apply Hp].
    + by apply Hp.
Qed.
End Propagation.

(** The trace only grows. *)
Section Growth.
Context {W : Type} `{Library W}.

Definition grows (st : state W) (r : option exn * state W) : Prop :=
  trace st `prefix_of` trace r.2.

Lemma exec_block_grows (src : list stmt) (st : state W) :
  grows st (shape (exec_block src st)).
Proof.
  revert st. apply (sound_cell grows (fun _ => True) true); unfold grows; simpl.
  - reflexivity.
  - reflexivity.
  - intros st st1 r H1 H2. by etrans.
  - intros c vs kvs st. unfold ext_call.
    destruct (lib_call c vs kvs (world st)) as [[v|e] w']; simpl; by apply prefix_app_r.
  - reflexivity.
  - intros _ st e st1 r H1 H2. simpl in *. by etrans.
  - apply Forall_forall. intros s Hs. split; [|by left].
    apply Forall_forall. done.
Qed.

Lemma run_cells_grows (cs : list cell) : forall (i : nat) (st : state W),
  trace st `prefix_of` final_trace (run_cells i cs st).
Proof.
  induction cs as [|[t|src] cs IH]; intros i st; simpl.
  - reflexivity.
  - apply IH.
  - pose proof (exec_block_grows src (enter_cell i st)) as Hg.
    destruct (exec_block src (enter_cell i st)) as [a st1|e st1];
      unfold grows in Hg; simpl in Hg.
    + etrans; [exact Hg | apply IH].
    + exact Hg.
Qed.
End Growth.

Section Seeding.
Context {W : Type} (L : Library W).
Hypothesis Hseed : seed_resets L.

Lemma exec_seed k (st : state W) :
  env st !! "np" = Some (VExt "numpy") ->
  exec (seed_stmt k) st
  = (ext_call (CFun "numpy.random.seed") [VInt k] [] ;;; ret tt) st.
Proof.
  intros Hnp. unfold seed_stmt, method_call. simpl.
  unfold bind at 1 2 3. unfold lookup_name. rewrite Hnp. reflexivity.
Qed.

Lemma seed_forgets k E T i (w w' : W) :
  E !! "np" = Some (VExt "numpy") ->
  exec (seed_stmt k) (State E w T i) = exec (seed_stmt k) (State E w' T i).
Proof.
  intros Hnp. rewrite !exec_seed by exact Hnp.
  unfold bind, ext_call. simpl. by rewrite (Hseed k w w').
Qed.

(** A cell that seeds before it makes any call ends the same wherever the
    library started. *)
Lemma seeded_block pre k post E E' T i :
  (forall w : W, exec_block pre (State E w T i) = Done tt (State E' w T i)) ->
  E' !! "np" = Some (VExt "numpy") ->
  forall w w' : W,
    exec_block (pre ++ seed_stmt k :: post) (State E w T i)
    = exec_block (pre ++ seed_stmt k :: post) (State E w' T i).
Proof.
  intros Hpre Hnp w w'. rewrite !exec_block_app, !Hpre, !exec_block_cons.
  by rewrite (seed_forgets k E' T i w w' Hnp).
Qed.

(** The seed call of such a cell is the first event of the run. *)
Lemma seeded_cell_head pre k post rest E E' i j (w : W) :
  (forall w0 : W, exec_block pre (State E w0 [] i) = Done tt (State E' w0 [] i)) ->
  E' !! "np" = Some (VExt "numpy") ->
  exists out,
    head (final_trace (run_cells i (Code (pre ++ seed_stmt k :: post) :: rest) (State E w [] j)))
    = Some (Event i (CFun "numpy.random.seed") [VInt k] [] out).
Proof.
  intros Hpre Hnp. rewrite run_cells_code. unfold enter_cell. simpl.
  rewrite exec_block_app, Hpre, exec_block_cons, exec_seed by exact Hnp.
  unfold bind, ext_call. simpl.
  destruct (lib_call (CFun "numpy.random.seed") [VInt k] [] w) as [[v|e] w1].
  - exists (Ret v).
    set (ev := Event i (CFun "numpy.random.seed") [VInt k] [] (Ret v)).
    change (head (final_trace (run_cells i (Code post :: rest) (State E' w1 [ev] i)))
            = Some ev).
    destruct (run_cells_grows (Code post :: rest) i (State E' w1 [ev] i)) as [T HT].
    rewrite HT. reflexivity.
  - exists (Exn e). reflexivity.
Qed.

Lemma ldt_seeded (w w' : W) :
  run LatentDistributionNotebook.cells w = run LatentDistributionNotebook.cells w'.
Proof.
  unfold run, LatentDistributionNotebook.cells.
  change (run_cells 0 (Markdown ?t :: ?cs) ?st) with (run_cells 1 cs st).
  rewrite !run_cells_code.
  change LatentDistributionNotebook.cell_imports
    with (take 2 LatentDistributionNotebook.cell_imports
          ++ seed_stmt 8888 :: drop 3 LatentDistributionNotebook.cell_imports).
  unfold enter_cell, init. simpl env. simpl world. simpl trace.
  rewrite (seeded_block _ 8888 _ builtins
             (<["plt" := VExt "matplotlib.pyplot"]> (<["np" := VExt "numpy"]> builtins))
             [] 1%nat) with (w := w) (w' := w'); [reflexivity | |].
  - intros w0. vm_compute. reflexivity.
  - vm_compute. reflexivity.
Qed.
Lemma omnibus_seeded (w w' : W) :
  run OmnibusNotebook.cells w = run OmnibusNotebook.cells w'.
Proof.
  assert (Himports : forall w0 : W,
            exec_block OmnibusNotebook.cell_imports (State builtins w0 [] 1%nat)
            = Done tt (State omnibus_env1 w0 [] 1%nat))
    by (intros w0; vm_compute; reflexivity).
  unfold run, OmnibusNotebook.cells.
  change (run_cells 0 (Markdown ?t :: ?cs) ?st) with (run_cells 1 cs st).
  rewrite !run_cells_code.
  unfold enter_cell, init. simpl env. simpl world. simpl trace.
  rewrite !Himports.
  change (run_cells 2 (Markdown ?t :: ?cs) ?st) with (run_cells 3 cs st).
  rewrite !run_cells_code.
  unfold enter_cell. simpl env. simpl world. simpl trace.
  change OmnibusNotebook.cell_simulate
    with (take 4 OmnibusNotebook.cell_simulate
          ++ seed_stmt 8 :: drop 5 OmnibusNotebook.cell_simulate).
  rewrite (seeded_block _ 8 _ omnibus_env1 omnibus_env2 [] 3%nat)
    with (w := w) (w' := w'); [reflexivity | |].
  - intros w0. vm_compute. reflexivity.
  - vm_compute. reflexivity.
Qed.
Lemma ldt_seed_first (w : W) :
  exists out,
    head (final_trace (run LatentDistributionNotebook.cells w))
    = Some (Event 1 (CFun "numpy.random.seed") [VInt 8888] [] out).
Proof.
  unfold run, init, LatentDistributionNotebook.cells.
  change (run_cells 0 (Markdown ?t :: ?cs) ?st) with (run_cells 1 cs st).
  change LatentDistributionNotebook.cell_imports
    with (take 2 LatentDistributionNotebook.cell_imports
          ++ seed_stmt 8888 :: drop 3 LatentDistributionNotebook.cell_imports).
  apply (seeded_cell_head _ 8888 _ _ builtins
           (<["plt" := VExt "matplotlib.pyplot"]> (<["np" := VExt "numpy"]> builtins))).
  - intros w0. vm_compute. reflexivity.
  - vm_compute. reflexivity.
Qed.

Lemma omnibus_seed_first (w : W) :
  exists out,
    head (final_trace (run OmnibusNotebook.cells w))
    = Some (Event 3 (CFun "numpy.random.seed") [VInt 8] [] out).
Proof.
  assert (Himports : forall w0 : W,
            exec_block OmnibusNotebook.cell_imports (State builtins w0 [] 1%nat)
            = Done tt (State omnibus_env1 w0 [] 1%nat))
    by (intros w0; vm_compute; reflexivity).
  unfold run, init, OmnibusNotebook.cells.
  change (run_cells 0 (Markdown ?t :: ?cs) ?st) with (run_cells 1 cs st).
  rewrite run_cells_code. unfold enter_cell. simpl env. simpl world. simpl trace.
  rewrite Himports.
  change (run_cells 2 (Markdown ?t :: ?cs) ?st) with (run_cells 3 cs st).
  change OmnibusNotebook.cell_simulate
    with (take 4 OmnibusNotebook.cell_simulate
          ++ seed_stmt 8 :: drop 5 OmnibusNotebook.cell_simulate).
  apply (seeded_cell_head _ 8 _ _ omnibus_env1 omnibus_env2).
  - intros w0. vm_compute. reflexivity.
  - vm_compute. reflexivity.
Qed.
End Seeding.

(** ** Loops over a range, written out *)

Section Frame.
Context {W : Type} `{Library W}.
Variable x : string.

Definition keeps (st : state W) (r : option exn * state W) : Prop :=
  env r.2 !! x = env st !! x.

Lemma exec_block_keeps (src : list stmt) (st : state W) :
  x ∉ flat_map bound_names src -> keeps st (shape (exec_block src st)).
Proof.
  intros Hx. revert st.
  apply (sound_cell keeps (fun y => y <> x) true); unfold keeps; simpl.
  - reflexivity.
  - reflexivity.
  - intros st st1 r H1 H2. congruence.
  - intros c vs kvs st. unfold ext_call.
    by destruct (lib_call c vs kvs (world st)) as [[v|e] w'].
  - intros y v st Hy. by apply lookup_insert_ne.
  - intros _ st e st1 r H1 H2. simpl in *. congruence.
  - apply Forall_forall. intros s Hs. split; [|by left].
    apply Forall_forall. intros y Hy ->. apply Hx.
    apply list_elem_of_In, in_flat_map. exists s.
    split; by apply list_elem_of_In.
Qed.

Lemma run_cells_keeps (cs : list cell) : forall (i : nat) (st st' : state W),
  x ∉ flat_map bound_names (all_stmts cs) ->
  run_cells i cs st = Completed st' -> env st' !! x = env st !! x.
Proof.
  induction cs as [|[t|src] cs IH]; intros i st st' Hx Hrun; simpl in Hrun.
  - by injection Hrun as <-.
  - by eapply IH.
  - unfold all_stmts in Hx. simpl in Hx. rewrite flat_map_app in Hx.
    apply not_elem_of_app in Hx as [Hsrc Hcs].
    pose proof (exec_block_keeps src (enter_cell i st) Hsrc) as Hk.
    destruct (exec_block src (enter_cell i st)) as [a st1|e st1]; [|discriminate].
    unfold keeps in Hk. simpl in Hk. rewrite <- Hk. by eapply IH.
Qed.
End Frame.

Section Unrolling.
Context {W : Type} `{Library W}.

Lemma for_each_unrolled x body lo (l : list nat) : forall st : state W,
  for_each x (exec_block body) (map (fun i => VInt (lo + Z.of_nat i)) l) st
  = exec_block
      (concat (map (fun i => SAssign (TName x) (EInt (lo + Z.of_nat i)) :: body) l)) st.
Proof.
  induction l as [|i l IH]; intros st; [reflexivity|].
  simpl map. simpl concat. rewrite exec_block_cons.
  simpl for_each. unfold bind at 1.
  change (exec (SAssign (TName x) (EInt (lo + Z.of_nat i))) st)
    with (bind_name (W := W) x (VInt (lo + Z.of_nat i)) st).
  unfold bind_name at 1 2. rewrite exec_block_app. unfold bind at 1.
  destruct (exec_block body _) as [a st1|e st1]; [apply IH | reflexivity].
Qed.

(** A loop over [range(n)] does what its unrolling does. *)
Lemma exec_range_loop x n body (st : state W) :
  env st !! "range" = Some (VExt "builtins.range") ->
  exec (SFor x (fn_call "range" [EInt n] []) body) st
  = exec_block (unrolled x 0 n body) st.
Proof.
  intros Hrange. rewrite exec_for. unfold fn_call. simpl eval.
  unfold bind at 1 2 3. unfold lookup_name. rewrite Hrange.
  simpl. apply for_each_unrolled.
Qed.

Lemma omnibus_unrolled (w : W) :
  run OmnibusNotebook.cells w = run OmnibusUnrolled.cells w.
Proof.
  unfold run.
  change OmnibusNotebook.cells
    with (take 9 OmnibusNotebook.cells ++ [Code OmnibusNotebook.cell_plot]).
  unfold OmnibusUnrolled.cells. rewrite !run_cells_app.
  destruct (run_cells 0 (take 9 OmnibusNotebook.cells) (init w)) as [st|j e st] eqn:Hrun;
    [|reflexivity].
  assert (Hrange : env st !! "range" = Some (VExt "builtins.range")).
  { rewrite (run_cells_keeps "range" (take 9 OmnibusNotebook.cells) 0%nat (init w) st);
      [reflexivity | by_computation | exact Hrun]. }
  rewrite !run_cells_code.
  unfold OmnibusNotebook.cell_plot, OmnibusUnrolled.cell_plot.
  rewrite !exec_block_app.
  pose proof (exec_block_keeps "range" OmnibusNotebook.cell_plot_head
                (enter_cell (0 + length (take 9 OmnibusNotebook.cells)) st)) as Hk.
  destruct (exec_block OmnibusNotebook.cell_plot_head _) as [a st1|e st1]; [|reflexivity].
  unfold keeps in Hk. simpl in Hk.
  assert (Hrange1 : env st1 !! "range" = Some (VExt "builtins.range")).
  { rewrite Hk; [exact Hrange | by_computation]. }
  rewrite !exec_block_app, exec_block_cons. unfold OmnibusNotebook.lines_loop.
  rewrite (exec_range_loop "i" 50 [OmnibusNotebook.plot_line] st1 Hrange1).
  destruct (exec_block (unrolled "i" 0 50 [OmnibusNotebook.plot_line]) st1); reflexivity.
Qed.
End Unrolling.

(** ** The run against fresh objects is the general run *)

Section ValueInduction.
Variable P : value -> Prop.
Hypothesis HNone : P VNone.
Hypothesis HBool : forall b, P (VBool b).
Hypothesis HInt : forall n, P (VInt n).
Hypothesis HFloat : forall m k, P (VFloat m k).
Hypothesis HStr : forall s, P (VStr s).
Hypothesis HList : forall vs, Forall P vs -> P (VList vs).
Hypothesis HTuple : forall vs, Forall P vs -> P (VTuple vs).
Hypothesis HSlice : forall lo hi, P lo -> P hi -> P (VSlice lo hi).
Hypothesis HExt : forall q, P (VExt q).
Hypothesis HRef : forall i, P (VRef i).

Fixpoint value_nested_ind (v : value) : P v :=
  let all := fix all (vs : list value) : Forall P vs :=
    match vs with
    | [] => Forall_nil_2 P
    | v' :: vs' => Forall_cons_2 P v' vs' (value_nested_ind v') (all vs')
    end in
  match v with
  | VNone => HNone
  | VBool b => HBool b
  | VInt n => HInt n
  | VFloat m k => HFloat m k
  | VStr s => HStr s
  | VList vs => HList vs (all vs)
  | VTuple vs => HTuple vs (all vs)
  | VSlice lo hi => HSlice lo hi (value_nested_ind lo) (value_nested_ind hi)
  | VExt q => HExt q
  | VRef i => HRef i
  end.
End ValueInduction.

Lemma ren_mono σ σ' v :
  σ `prefix_of` σ' -> bounded (length σ) v = true ->
  ren σ' v = ren σ v /\ bounded (length σ') v = true.
Proof.
  intros Hp.
  assert (Hlist : forall vs,
            Forall (fun v => bounded (length σ) v = true ->
                             ren σ' v = ren σ v /\ bounded (length σ') v = true) vs ->
            forallb (bounded (length σ)) vs = true ->
            ren σ' <$> vs = ren σ <$> vs /\ forallb (bounded (length σ')) vs = true).
  { induction 1 as [|v0 vs Hv _ IHvs]; [done|].
    rewrite !fmap_cons. cbn [forallb]. rewrite !andb_true_iff. intros [Hb1 Hb2].
    destruct (Hv Hb1) as [-> ->]. destruct (IHvs Hb2) as [-> ->]. done. }
  induction v as [| | | | |vs IH|vs IH|lo hi IHlo IHhi| |i] using value_nested_ind;
    cbn [ren bounded]; intros Hb; try done.
  - by destruct (Hlist vs IH Hb) as [-> ->].
  - by destruct (Hlist vs IH Hb) as [-> ->].
  - apply andb_true_iff in Hb as [Hb1 Hb2].
    destruct (IHlo Hb1) as [-> ->]. destruct (IHhi Hb2) as [-> ->]. done.
  - apply Nat.ltb_lt in Hb. destruct Hp as [k ->]. split.
    + by rewrite lookup_app_l.
    + apply Nat.ltb_lt. rewrite length_app. lia.
Qed.

Lemma ren_mono_list σ σ' vs :
  σ `prefix_of` σ' -> forallb (bounded (length σ)) vs = true ->
  ren σ' <$> vs = ren σ <$> vs /\ forallb (bounded (length σ')) vs = true.
Proof.
  intros Hp. induction vs as [|v vs IH]; [done|].
  rewrite !fmap_cons. cbn [forallb]. rewrite !andb_true_iff. intros [Hb1 Hb2].
  destruct (ren_mono σ σ' v Hp Hb1) as [-> ->]. destruct (IH Hb2) as [-> ->]. done.
Qed.

Lemma ren_mono_kwargs σ σ' (kvs : list (string * value)) :
  σ `prefix_of` σ' -> forallb (fun kv => bounded (length σ) kv.2) kvs = true ->
  ren_kw σ' <$> kvs = ren_kw σ <$> kvs
  /\ forallb (fun kv => bounded (length σ') kv.2) kvs = true.
Proof.
  intros Hp. induction kvs as [|[k v] kvs IH]; [done|].
  rewrite !fmap_cons. cbn [forallb]. rewrite !andb_true_iff. intros [Hb1 Hb2].
  unfold ren_kw at 1 3. simpl in *.
  destruct (ren_mono σ σ' v Hp Hb1) as [-> ->]. destruct (IH Hb2) as [-> ->]. done.
Qed.

Lemma ren_mono_callee σ σ' c :
  σ `prefix_of` σ' -> callee_bounded (length σ) c = true ->
  ren_callee σ' c = ren_callee σ c /\ callee_bounded (length σ') c = true.
Proof.
  intros Hp. destruct c; simpl; intros Hb; try done;
    by destruct (ren_mono σ σ' recv Hp Hb) as [-> ->].
Qed.

Lemma ren_mono_event σ σ' ev :
  σ `prefix_of` σ' -> event_bounded (length σ) ev = true ->
  ren_event σ' ev = ren_event σ ev /\ event_bounded (length σ') ev = true.
Proof.
  intros Hp. destruct ev as [i c vs kvs o]. unfold event_bounded, ren_event. simpl.
  rewrite !andb_true_iff. intros [[[Hc Hvs] Hkvs] Ho].
  destruct (ren_mono_callee σ σ' c Hp Hc) as [-> ->].
  destruct (ren_mono_list σ σ' vs Hp Hvs) as [-> ->].
  destruct (ren_mono_kwargs σ σ' kvs Hp Hkvs) as [-> ->].
  destruct o as [v|e]; simpl; [|done].
  by destruct (ren_mono σ σ' v Hp Ho) as [-> ->].
Qed.

Lemma ren_mono_trace σ σ' (T : list event) :
  σ `prefix_of` σ' -> Forall (fun ev => event_bounded (length σ) ev = true) T ->
  ren_event σ' <$> T = ren_event σ <$> T
  /\ Forall (fun ev => event_bounded (length σ') ev = true) T.
Proof.
  intros Hp. induction 1 as [|ev T Hev _ [IH1 IH2]]; [done|].
  rewrite !fmap_cons.
  destruct (ren_mono_event σ σ' ev Hp Hev) as [-> Hev']. rewrite IH1.
  split; [done | by constructor].
Qed.

Lemma ren_mono_env σ σ' (E : gmap string value) :
  σ `prefix_of` σ' -> map_Forall (fun _ v => bounded (length σ) v = true) E ->
  ren σ' <$> E = ren σ <$> E
  /\ map_Forall (fun _ v => bounded (length σ') v = true) E.
Proof.
  intros Hp HE. split.
  - apply map_fmap_ext. intros x v Hx. by apply ren_mono, (HE x v Hx).
  - intros x v Hx. by apply (ren_mono σ σ' v Hp), (HE x v Hx).
Qed.

Section Simulation.
Context {W : Type} (L : Library W).
Hypothesis HL : object_returning L.

(** The state of a run against [L] is the state of the run against
    [fresh_objects] with its objects renamed by [σ]. *)
Definition SR (σ : list nat) (stL : state W) (stF : state nat) : Prop :=
  env stL = ren σ <$> env stF
  /\ map_Forall (fun _ v => bounded (length σ) v = true) (env stF)
  /\ trace stL = ren_event σ <$> trace stF
  /\ Forall (fun ev => event_bounded (length σ) ev = true) (trace stF)
  /\ cur_cell stL = cur_cell stF
  /\ world stF = length σ.

Definition VR (σ : list nat) (vL vF : value) : Prop :=
  vL = ren σ vF /\ bounded (length σ) vF = true.

Definition VRs (σ : list nat) (vsL vsF : list value) : Prop :=
  vsL = ren σ <$> vsF /\ forallb (bounded (length σ)) vsF = true.

Definition KRs (σ : list nat) (kvsL kvsF : list (string * value)) : Prop :=
  kvsL = ren_kw σ <$> kvsF /\ forallb (fun kv => bounded (length σ) kv.2) kvsF = true.

Definition CR (σ : list nat) (cL cF : callee) : Prop :=
  cL = ren_callee σ cF /\ callee_bounded (length σ) cF = true.

Definition UR (σ : list nat) (a b : unit) : Prop := True.

Definition rel_from {A B} (σ0 : list nat) (RA : list nat -> A -> B -> Prop)
    (mL : M W A) (mF : M nat B) : Prop :=
  forall σ stL stF, σ0 `prefix_of` σ -> SR σ stL stF ->
    match mL stL, mF stF with
    | Done a stL', Done b stF' =>
        exists σ', σ `prefix_of` σ' /\ RA σ' a b /\ SR σ' stL' stF'
    | Raised e stL', Raised e' stF' =>
        e = e' /\ exists σ', σ `prefix_of` σ' /\ SR σ' stL' stF'
    | _, _ => False
    end.

Lemma VR_mono σ σ' vL vF : σ `prefix_of` σ' -> VR σ vL vF -> VR σ' vL vF.
Proof.
  intros Hp [-> Hb]. destruct (ren_mono σ σ' vF Hp Hb) as [Heq Hb'].
  split; [by rewrite Heq | done].
Qed.

Lemma VRs_mono σ σ' vsL vsF : σ `prefix_of` σ' -> VRs σ vsL vsF -> VRs σ' vsL vsF.
Proof.
  intros Hp [-> Hb]. destruct (ren_mono_list σ σ' vsF Hp Hb) as [Heq Hb'].
  split; [by rewrite Heq | done].
Qed.

Lemma KRs_mono σ σ' kL kF : σ `prefix_of` σ' -> KRs σ kL kF -> KRs σ' kL kF.
Proof.
  intros Hp [-> Hb]. destruct (ren_mono_kwargs σ σ' kF Hp Hb) as [Heq Hb'].
  split; [by rewrite Heq | done].
Qed.

Lemma CR_mono σ σ' cL cF : σ `prefix_of` σ' -> CR σ cL cF -> CR σ' cL cF.
Proof.
  intros Hp [-> Hb]. destruct (ren_mono_callee σ σ' cF Hp Hb) as [Heq Hb'].
  split; [by rewrite Heq | done].
Qed.

Lemma SR_mono σ σ' E w T i EF TF :
  σ `prefix_of` σ' ->
  SR σ (State E w T i) (State EF (length σ) TF i) ->
  forall w', SR σ' (State E w' T i) (State EF (length σ') TF i).
Proof.
  intros Hp (HE & HEb & HT & HTb & _ & _) w'. simpl in *.
  destruct (ren_mono_env σ σ' EF Hp HEb) as [HE' HEb'].
  destruct (ren_mono_trace σ σ' TF Hp HTb) as [HT' HTb'].
  unfold SR. simpl. rewrite HE', HT'. done.
Qed.

Lemma rel_ret {A B} σ0 (RA : list nat -> A -> B -> Prop) a b :
  (forall σ, σ0 `prefix_of` σ -> RA σ a b) -> rel_from σ0 RA (ret a) (ret b).
Proof. intros Ha σ stL stF Hp HS. simpl. exists σ. by auto. Qed.

Lemma rel_raise {A B} σ0 (RA : list nat -> A -> B -> Prop) cls msg :
  rel_from σ0 RA (raise cls msg) (raise cls msg).
Proof. intros σ stL stF Hp HS. simpl. split; [done|]. by exists σ. Qed.

Lemma rel_bind {A B A' B'} σ0 (RA : list nat -> A -> B -> Prop)
    (RB : list nat -> A' -> B' -> Prop) mL mF fL fF :
  rel_from σ0 RA mL mF ->
  (forall σ1 a b, σ0 `prefix_of` σ1 -> RA σ1 a b -> rel_from σ1 RB (fL a) (fF b)) ->
  rel_from σ0 RB (bind mL fL) (bind mF fF).
Proof.
  intros Hm Hf σ stL stF Hp HS. unfold bind. specialize (Hm σ stL stF Hp HS).
  destruct (mL stL) as [a stL'|e stL'], (mF stF) as [b stF'|e' stF']; try done.
  - destruct Hm as (σ' & Hp' & Hab & HS').
    assert (Hp0 : σ0 `prefix_of` σ') by by etrans.
    specialize (Hf σ' a b Hp0 Hab σ' stL' stF' (reflexivity _) HS').
    destruct (fL a stL') as [a' stL''|e stL''], (fF b stF') as [b' stF''|e' stF'']; try done.
    + destruct Hf as (σ'' & Hp'' & Hab' & HS''). exists σ''. split; [by etrans | done].
    + destruct Hf as (-> & σ'' & Hp'' & HS''). split; [done|]. exists σ''.
      split; [by etrans | done].
Qed.

Lemma rel_weaken {A B} σ0 σ1 (RA : list nat -> A -> B -> Prop) mL mF :
  σ0 `prefix_of` σ1 -> rel_from σ0 RA mL mF -> rel_from σ1 RA mL mF.
Proof. intros Hp Hm σ stL stF Hp1 HS. apply Hm; [by etrans | done]. Qed.
Lemma rel_lookup_name σ0 x : rel_from σ0 VR (lookup_name x) (lookup_name x).
Proof.
  unfold rel_from. intros σ stL stF Hp (HE & HEb & HS). unfold lookup_name.
  rewrite HE, lookup_fmap.
  destruct (env stF !! x) as [vF|] eqn:Hx; simpl.
  - exists σ. split; [done|]. split; [|done]. split; [done|]. by apply (HEb x).
  - split; [done|]. by exists σ.
Qed.

Lemma rel_bind_name σ0 x vL vF :
  VR σ0 vL vF -> rel_from σ0 UR (bind_name x vL) (bind_name x vF).
Proof.
  unfold rel_from. intros HV σ stL stF Hp (HE & HEb & HT & HTb & Hi & Hn). simpl.
  destruct (VR_mono σ0 σ _ _ Hp HV) as [HvL Hb].
  exists σ. split; [done|]. split; [done|]. unfold SR. simpl.
  rewrite HE, HvL, fmap_insert. split; [done|]. split; [|done].
  by apply map_Forall_insert_2.
Qed.

Lemma fresh_call c vs kvs (n : nat) :
  @lib_call nat fresh_objects c vs kvs n
  = match c with
    | CFun q =>
        if String.eqb q "matplotlib.pyplot.subplots"
        then (Ret (VTuple [VRef n; VRef (S n)]), S (S n))
        else (Ret (VRef n), S n)
    | _ => (Ret (VRef n), S n)
    end.
Proof. reflexivity. Qed.

Lemma SR_step σ σ' E w w' T i EF TF cL cF vsL vsF kL kF outF :
  σ `prefix_of` σ' ->
  SR σ (State E w T i) (State EF (length σ) TF i) ->
  CR σ cL cF -> VRs σ vsL vsF -> KRs σ kL kF ->
  match outF with Ret v => bounded (length σ') v = true | Exn _ => True end ->
  SR σ' (State E w' (T ++ [Event i cL vsL kL (ren_out σ' outF)]) i)
        (State EF (length σ') (TF ++ [Event i cF vsF kF outF]) i).
Proof.
  intros Hp HS HC HV HK Ho.
  apply (CR_mono σ σ') in HC as [-> HCb]; [|done].
  apply (VRs_mono σ σ') in HV as [-> HVb]; [|done].
  apply (KRs_mono σ σ') in HK as [-> HKb]; [|done].
  destruct (SR_mono σ σ' E w T i EF TF Hp HS w') as (HE & HEb & HT & HTb & _ & _).
  simpl in *. unfold SR. simpl. rewrite fmap_app, <- HT.
  split; [done|]. split; [done|]. split; [done|]. split; [|done].
  apply Forall_app. split; [done|]. constructor; [|constructor].
  unfold event_bounded. simpl. rewrite HCb, HVb, HKb. simpl. by destruct outF.
Qed.

Lemma VR_fresh σ a : VR (σ ++ [a]) (VRef a) (VRef (length σ)).
Proof.
  split; simpl.
  - by rewrite lookup_app_r, Nat.sub_diag by lia.
  - rewrite length_app. simpl. apply Nat.ltb_lt. lia.
Qed.

Lemma VR_fresh_pair σ a b :
  VR (σ ++ [a; b]) (VTuple [VRef a; VRef b]) (VTuple [VRef (length σ); VRef (S (length σ))]).
Proof.
  split; simpl.
  - rewrite lookup_app_r, Nat.sub_diag by lia. simpl.
    rewrite lookup_app_r by lia.
    by replace (S (length σ) - length σ)%nat with 1%nat by lia.
  - rewrite length_app. simpl.
    rewrite !andb_true_r. apply andb_true_iff. split; apply Nat.ltb_lt; lia.
Qed.

(** One call, answered with one object on either side. *)
Lemma rel_ext_step σ E w w' T i EF TF cL cF vsL vsF kL kF a :
  SR σ (State E w T i) (State EF (length σ) TF i) ->
  CR σ cL cF -> VRs σ vsL vsF -> KRs σ kL kF ->
  exists σ', σ `prefix_of` σ' /\ VR σ' (VRef a) (VRef (length σ))
    /\ SR σ' (State E w' (T ++ [Event i cL vsL kL (Ret (VRef a))]) i)
             (State EF (S (length σ)) (TF ++ [Event i cF vsF kF (Ret (VRef (length σ)))]) i).
Proof.
  intros HS HC HV HK. exists (σ ++ [a]).
  assert (Hp : σ `prefix_of` σ ++ [a]) by by apply prefix_app_r.
  pose proof (VR_fresh σ a) as HVa.
  split; [done|]. split; [done|].
  pose proof (SR_step σ (σ ++ [a]) E w w' T i EF TF cL cF vsL vsF kL kF
                (Ret (VRef (length σ))) Hp HS HC HV HK (proj2 HVa)) as HS'.
  simpl in HS'. destruct HVa as [HV1 _]. simpl in HV1. rewrite <- HV1 in HS'.
  rewrite length_app in HS'. simpl in HS'.
  by replace (length σ + 1)%nat with (S (length σ)) in HS' by lia.
Qed.

Lemma rel_ext_step_pair σ E w w' T i EF TF cL cF vsL vsF kL kF a b :
  SR σ (State E w T i) (State EF (length σ) TF i) ->
  CR σ cL cF -> VRs σ vsL vsF -> KRs σ kL kF ->
  exists σ', σ `prefix_of` σ'
    /\ VR σ' (VTuple [VRef a; VRef b]) (VTuple [VRef (length σ); VRef (S (length σ))])
    /\ SR σ' (State E w' (T ++ [Event i cL vsL kL (Ret (VTuple [VRef a; VRef b]))]) i)
             (State EF (S (S (length σ)))
                (TF ++ [Event i cF vsF kF
                          (Ret (VTuple [VRef (length σ); VRef (S (length σ))]))]) i).
Proof.
  intros HS HC HV HK. exists (σ ++ [a; b]).
  assert (Hp : σ `prefix_of` σ ++ [a; b]) by by apply prefix_app_r.
  pose proof (VR_fresh_pair σ a b) as HVa.
  split; [done|]. split; [done|].
  pose proof (SR_step σ (σ ++ [a; b]) E w w' T i EF TF cL cF vsL vsF kL kF
                (Ret (VTuple [VRef (length σ); VRef (S (length σ))])) Hp HS HC HV HK
                (proj2 HVa)) as HS'.
  simpl in HS'. destruct HVa as [HV1 _]. simpl in HV1. rewrite <- HV1 in HS'.
  rewrite length_app in HS'. simpl in HS'.
  by replace (length σ + 2)%nat with (S (S (length σ))) in HS' by lia.
Qed.

Lemma rel_ext_call σ0 cL cF vsL vsF kL kF :
  CR σ0 cL cF -> VRs σ0 vsL vsF -> KRs σ0 kL kF ->
  rel_from σ0 VR (ext_call cL vsL kL) (@ext_call nat fresh_objects cF vsF kF).
Proof.
  unfold rel_from. intros HC HV HK σ [E w T i] [EF n TF i'] Hp HS.
  pose proof (CR_mono σ0 σ _ _ Hp HC) as HC'.
  pose proof (VRs_mono σ0 σ _ _ Hp HV) as HV'.
  pose proof (KRs_mono σ0 σ _ _ Hp HK) as HK'.
  assert (i' = i /\ n = length σ) as [-> ->] by (destruct HS as (_ & _ & _ & _ & ? & ?); done).
  unfold ext_call. simpl. rewrite fresh_call.
  pose proof (HL cL vsL kL w) as HLc.
  assert (HcL : cL = ren_callee σ cF) by apply HC'.
  destruct cF as [q|r m|r attr|r]; simpl in HcL; rewrite HcL in HLc.
  1: destruct (String.eqb q "matplotlib.pyplot.subplots").
  1: destruct HLc as (a & b & w' & Hcall).
  2-5: destruct HLc as (a & w' & Hcall).
  all: rewrite <- HcL in Hcall; rewrite Hcall.
  1: by eapply rel_ext_step_pair.
  all: by eapply rel_ext_step.
Qed.
Lemma py_index_ren σ (l : list value) i :
  py_index (ren σ <$> l) i = ren σ <$> py_index l i.
Proof.
  unfold py_index. rewrite length_fmap.
  destruct (_ && _); [|done]. by rewrite list_lookup_fmap.
Qed.

Lemma slice_bound_ren σ len d b : slice_bound len d (ren σ b) = slice_bound len d b.
Proof. by destruct b. Qed.

Lemma py_slice_ren σ (l : list value) lo hi :
  py_slice (ren σ <$> l) (ren σ lo) (ren σ hi)
  = (fun l' : list value => ren σ <$> l') <$> py_slice l lo hi.
Proof.
  unfold py_slice. rewrite length_fmap, !slice_bound_ren.
  destruct (slice_bound (Z.of_nat (length l)) 0 lo) as [a|]; [|done].
  destruct (slice_bound (Z.of_nat (length l)) (Z.of_nat (length l)) hi) as [b|]; [|done].
  simpl. by rewrite fmap_take, fmap_drop.
Qed.

Lemma forallb_sublist (f : value -> bool) (l k : list value) :
  k ⊆ l -> forallb f l = true -> forallb f k = true.
Proof.
  rewrite !forallb_forall. intros Hsub Hl x Hx.
  apply Hl. apply list_elem_of_In, Hsub. by apply list_elem_of_In.
Qed.

Lemma py_index_bounded n (l : list value) i x :
  forallb (bounded n) l = true -> py_index l i = Some x -> bounded n x = true.
Proof.
  unfold py_index. intros Hl. destruct (_ && _); [|done]. intros Hx.
  rewrite forallb_forall in Hl. apply Hl. apply list_elem_of_In.
  by eapply list_elem_of_lookup_2.
Qed.

Lemma py_slice_bounded n (l l' : list value) lo hi :
  forallb (bounded n) l = true -> py_slice l lo hi = Some l' -> forallb (bounded n) l' = true.
Proof.
  unfold py_slice. intros Hl.
  destruct (slice_bound (Z.of_nat (length l)) 0 lo) as [a|]; [|done].
  destruct (slice_bound (Z.of_nat (length l)) (Z.of_nat (length l)) hi) as [b|]; [|done].
  intros [= <-]. eapply forallb_sublist; [|exact Hl].
  etrans; [apply subseteq_take | apply subseteq_drop].
Qed.

Lemma concat_replicate_ren σ n (l : list value) :
  ren σ <$> concat (replicate n l) = concat (replicate n (ren σ <$> l)).
Proof. induction n as [|n IH]; [done|]. simpl. by rewrite fmap_app, IH. Qed.

Lemma concat_replicate_bounded m n (l : list value) :
  forallb (bounded m) l = true -> forallb (bounded m) (concat (replicate n l)) = true.
Proof.
  intros Hl. induction n as [|n IH]; [done|]. simpl. by rewrite forallb_app, Hl, IH.
Qed.

Lemma VR_const σ v : bounded 0 v = true -> ren σ v = v -> VR σ v v.
Proof.
  intros Hb Hr. split; [done|].
  by destruct (ren_mono [] σ v (prefix_nil σ) Hb) as [_ ?].
Qed.

Lemma rel_get_attr σ0 vL vF a :
  VR σ0 vL vF -> rel_from σ0 VR (get_attr vL a) (@get_attr nat fresh_objects vF a).
Proof.
  intros [HvL Hb].
  destruct vF; simpl in HvL; subst vL; simpl;
    first [ apply rel_ret; intros; by apply VR_const
          | apply rel_ext_call; by split ].
Qed.
Lemma rel_ret_VR σ0 vL vF : VR σ0 vL vF -> rel_from σ0 VR (ret vL) (ret vF).
Proof. intros HV. apply rel_ret. intros σ Hp. by apply (VR_mono σ0). Qed.

Lemma rel_get_item σ0 vL vF kL kF :
  VR σ0 vL vF -> VR σ0 kL kF ->
  rel_from σ0 VR (get_item vL kL) (@get_item nat fresh_objects vF kF).
Proof.
  intros [HvL Hbv] [HkL Hbk]. subst vL kL.
  destruct vF; simpl;
    try (apply rel_ext_call; split; simpl; rewrite ?andb_true_r; done).
  all: destruct kF; simpl; try apply rel_raise.
  all: simpl in Hbv, Hbk.
  1,3: rewrite py_index_ren;
       destruct (py_index vs n) as [x|] eqn:Hx; simpl; [|apply rel_raise];
       apply rel_ret_VR; split; [done | by eapply py_index_bounded].
  all: apply andb_true_iff in Hbk as [Hlo Hhi];
       rewrite py_slice_ren;
       destruct (py_slice vs kF1 kF2) as [l'|] eqn:Hl'; simpl; [|apply rel_raise];
       apply rel_ret_VR; split; [done | by eapply py_slice_bounded].
Qed.

Lemma py_range_VR σ a b : VR σ (VList (py_range a b)) (VList (py_range a b)).
Proof.
  unfold py_range. split; cbn [ren bounded].
  - f_equal. induction (seq 0 (Z.to_nat (b - a))) as [|i l IH]; [done|].
    cbn [map]. rewrite fmap_cons. cbn [ren]. by f_equal.
  - by induction (seq 0 (Z.to_nat (b - a))).
Qed.

Lemma rel_call_value σ0 fL fF vsL vsF kL kF :
  VR σ0 fL fF -> VRs σ0 vsL vsF -> KRs σ0 kL kF ->
  rel_from σ0 VR (call_value fL vsL kL) (@call_value nat fresh_objects fF vsF kF).
Proof.
  intros [HfL Hbf] HV HK. subst fL.
  destruct fF; simpl; try apply rel_raise.
  - destruct (String.eqb qualname "builtins.range"); [|by apply rel_ext_call].
    destruct HV as [-> _], HK as [-> _].
    destruct vsF as [|[] [|[] []]]; simpl; try apply rel_raise;
      destruct kF; simpl; try apply rel_raise;
      apply rel_ret; intros; apply py_range_VR.
  - by apply rel_ext_call.
Qed.

Lemma rel_call_attr σ0 rL rF m vsL vsF kL kF :
  VR σ0 rL rF -> VRs σ0 vsL vsF -> KRs σ0 kL kF ->
  rel_from σ0 VR (call_attr rL m vsL kL) (@call_attr nat fresh_objects rF m vsF kF).
Proof.
  intros [HrL Hbr] HV HK. subst rL. unfold call_attr.
  destruct rF; cbn [ren];
    first [ apply rel_call_value; [by split | done | done]
          | apply rel_ext_call; [by split | done | done] ].
Qed.

Lemma rel_bin_op σ0 op xL xF yL yF :
  VR σ0 xL xF -> VR σ0 yL yF ->
  rel_from σ0 VR (bin_op (W := W) op xL yL) (bin_op (W := nat) op xF yF).
Proof.
  intros [HxL Hbx] [HyL Hby]. subst xL yL.
  destruct op, xF, yF; simpl; try apply rel_raise; simpl in Hbx, Hby;
    apply rel_ret_VR; split; simpl;
    rewrite ?fmap_app, ?concat_replicate_ren, ?forallb_app, ?Hbx, ?Hby;
    try done; by apply concat_replicate_bounded.
Qed.

Lemma rel_mapM_values σ0 (es : list expr) :
  Forall (fun e => forall σ, rel_from σ VR (eval e) (@eval nat fresh_objects e)) es ->
  rel_from σ0 VRs (mapM eval es) (mapM (@eval nat fresh_objects) es).
Proof.
  intros Hes. revert σ0. induction Hes as [|e es He _ IH]; intros σ0; simpl.
  - by apply rel_ret.
  - eapply rel_bind; [apply He|]. intros σ1 b bF Hp1 Hb.
    eapply rel_bind; [apply IH|]. intros σ2 bs bsF Hp2 [Hbs Hbb].
    apply rel_ret. intros σ Hp.
    destruct (VR_mono σ1 σ b bF) as [Hb1 Hb2]; [by etrans | done |].
    destruct (VRs_mono σ2 σ bs bsF Hp (conj Hbs Hbb)) as [Hbs1 Hbs2].
    split; [by rewrite fmap_cons, Hb1, Hbs1 | simpl; by rewrite Hb2, Hbs2].
Qed.

Lemma rel_mapM_kwargs σ0 (kws : list (string * expr)) :
  Forall (fun kv => forall σ, rel_from σ VR (eval kv.2) (@eval nat fresh_objects kv.2)) kws ->
  rel_from σ0 KRs
    (mapM (fun '(k, e') => v <- eval e' ;; ret (k, v)) kws)
    (mapM (fun '(k, e') => v <- @eval nat fresh_objects e' ;; ret (k, v)) kws).
Proof.
  intros Hes. revert σ0. induction Hes as [|[k e] kws He _ IH]; intros σ0; simpl.
  - by apply rel_ret.
  - eapply rel_bind.
    { eapply rel_bind; [apply He|]. intros σ1 b bF Hp1 Hb.
      apply (rel_ret σ1 (fun σ (x y : string * value) => x.1 = y.1 /\ VR σ x.2 y.2)).
      intros σ Hp. split; [done|]. by apply (VR_mono σ1). }
    intros σ1 [k1 b] [k2 bF] Hp1 [Hk Hb]. simpl in Hk, Hb. subst k2.
    eapply rel_bind; [apply IH|]. intros σ2 bs bsF Hp2 [Hbs Hbb].
    apply rel_ret. intros σ Hp.
    destruct (VR_mono σ1 σ b bF) as [Hb1 Hb2]; [by etrans | done |].
    destruct (KRs_mono σ2 σ bs bsF Hp (conj Hbs Hbb)) as [Hbs1 Hbs2].
    split; [rewrite fmap_cons, Hbs1; unfold ren_kw at 1; simpl; by rewrite Hb1
           | simpl; by rewrite Hb2, Hbs2].
Qed.
Lemma rel_eval e : forall σ0, rel_from σ0 VR (eval e) (@eval nat fresh_objects e).
Proof.
  induction e as [x|n|m k|s|es IH|es IH|e a IH|e i IHe IHi|lo hi IHlo IHhi
                 |op e1 e2 IH1 IH2|f args kwargs IHf IHr IHargs IHkw]
    using expr_nested_ind; intros σ0; simpl.
  - apply rel_lookup_name.
  - apply rel_ret_VR. by split.
  - apply rel_ret_VR. by split.
  - apply rel_ret_VR. by split.
  - eapply rel_bind; [by apply rel_mapM_values|]. intros σ1 vs vsF Hp1 [Hvs Hb].
    apply rel_ret_VR. split; [by rewrite Hvs | done].
  - eapply rel_bind; [by apply rel_mapM_values|]. intros σ1 vs vsF Hp1 [Hvs Hb].
    apply rel_ret_VR. split; [by rewrite Hvs | done].
  - eapply rel_bind; [apply IH|]. intros σ1 v vF Hp1 Hv. by apply rel_get_attr.
  - eapply rel_bind; [apply IHe|]. intros σ1 v vF Hp1 Hv.
    eapply rel_bind; [apply IHi|]. intros σ2 k kF Hp2 Hk.
    apply rel_get_item; [by apply (VR_mono σ1) | done].
  - eapply (rel_bind _ VR).
    { destruct lo as [e|]; [by eapply IHlo | apply rel_ret_VR; by split]. }
    intros σ1 l lF Hp1 Hl.
    eapply (rel_bind _ VR).
    { destruct hi as [e|]; [by eapply IHhi | apply rel_ret_VR; by split]. }
    intros σ2 h hF Hp2 Hh.
    apply rel_ret_VR. destruct (VR_mono σ1 σ2 l lF Hp2 Hl) as [Hl1 Hl2].
    destruct Hh as [Hh1 Hh2]. split; simpl; [by rewrite Hl1, Hh1 | by rewrite Hl2, Hh2].
  - eapply rel_bind; [apply IH1|]. intros σ1 x xF Hp1 Hx.
    eapply rel_bind; [apply IH2|]. intros σ2 y yF Hp2 Hy.
    apply rel_bin_op; [by apply (VR_mono σ1) | done].
  - assert (Hcall : forall σ0 (mL : M W value) (mF : M nat value)
                      (kL : value -> list value -> list (string * value) -> M W value)
                      (kF : value -> list value -> list (string * value) -> M nat value),
              (forall σ, rel_from σ VR mL mF) ->
              (forall σ v vF vs vsF kw kwF, VR σ v vF -> VRs σ vs vsF -> KRs σ kw kwF ->
                 rel_from σ VR (kL v vs kw) (kF vF vsF kwF)) ->
              rel_from σ0 VR
                (v <- mL ;; vs <- mapM eval args ;;
                 kvs <- mapM (fun '(k, e') => v <- eval e' ;; ret (k, v)) kwargs ;;
                 kL v vs kvs)
                (v <- mF ;; vs <- mapM (@eval nat fresh_objects) args ;;
                 kvs <- mapM (fun '(k, e') => v <- @eval nat fresh_objects e' ;; ret (k, v))
                          kwargs ;;
                 kF v vs kvs)).
    { intros σ mL mF kL kF Hm Hk.
      eapply rel_bind; [apply Hm|]. intros σ1 v vF Hp1 Hv.
      eapply rel_bind; [by apply rel_mapM_values|]. intros σ2 vs vsF Hp2 Hvs.
      eapply rel_bind; [by apply rel_mapM_kwargs|]. intros σ3 kw kwF Hp3 Hkw.
      apply Hk; [|by apply (VRs_mono σ2)|done].
      apply (VR_mono σ1); [by etrans | done]. }
    destruct f; try (apply Hcall; [exact IHf | intros; by apply rel_call_value]).
    apply Hcall; [by eapply IHr | intros; by apply rel_call_attr].
Qed.
Lemma rel_ret_unit σ0 : rel_from σ0 UR (ret tt) (ret tt).
Proof. by apply rel_ret. Qed.

Lemma rel_then_unit {A B} σ0 (RA : list nat -> A -> B -> Prop) mL mF :
  rel_from σ0 RA mL mF -> rel_from σ0 UR (mL ;;; ret tt) (mF ;;; ret tt).
Proof. intros Hm. eapply rel_bind; [exact Hm|]. intros. apply rel_ret_unit. Qed.

Lemma rel_bind_names σ0 (xs : list string) vsL vsF :
  VRs σ0 vsL vsF ->
  rel_from σ0 (fun _ (_ _ : list unit) => True)
    (mapM (fun '(x, v) => bind_name x v) (zip xs vsL))
    (mapM (fun '(x, v) => bind_name x v) (zip xs vsF)).
Proof.
  intros [HvL Hb]. subst vsL. revert σ0 vsF Hb.
  induction xs as [|x xs IH]; intros σ0 [|v vs] Hb; try by apply rel_ret.
  rewrite fmap_cons. simpl in *. apply andb_true_iff in Hb as [Hb1 Hb2].
  eapply rel_bind; [by apply (rel_bind_name σ0 x (ren σ0 v) v)|].
  intros σ1 u1 u2 Hp1 _.
  destruct (ren_mono_list σ0 σ1 vs Hp1 Hb2) as [Hr Hb2'].
  eapply rel_bind; [rewrite <- Hr; by apply IH|].
  intros. by apply rel_ret.
Qed.

Lemma rel_assign σ0 t vL vF :
  VR σ0 vL vF -> rel_from σ0 UR (assign t vL) (@assign nat t vF).
Proof.
  intros HV. destruct t as [x|xs]; simpl; [by apply rel_bind_name|].
  destruct HV as [HvL Hb]. subst vL.
  destruct vF; cbn [ren]; try apply rel_raise; rewrite length_fmap;
    (destruct (Nat.eqb _ _); [|apply rel_raise]);
    (eapply rel_then_unit, rel_bind_names; by split).
Qed.

Lemma rel_iter_values σ0 vL vF :
  VR σ0 vL vF -> rel_from σ0 VRs (iter_values vL) (@iter_values nat vF).
Proof.
  intros [HvL Hb]. subst vL.
  destruct vF; cbn [ren iter_values]; try apply rel_raise;
    (apply rel_ret; intros σ Hp; by apply (VRs_mono σ0)).
Qed.

Lemma rel_for_each σ0 x bodyL bodyF vsL vsF :
  VRs σ0 vsL vsF -> (forall σ, rel_from σ UR bodyL bodyF) ->
  rel_from σ0 UR (for_each x bodyL vsL) (for_each x bodyF vsF).
Proof.
  intros [HvL Hb] Hbody. subst vsL. revert σ0 Hb.
  induction vsF as [|v vs IH]; intros σ0 Hb; [apply rel_ret_unit|].
  rewrite fmap_cons. simpl in *. apply andb_true_iff in Hb as [Hb1 Hb2].
  eapply rel_bind; [by apply (rel_bind_name σ0 x (ren σ0 v) v)|].
  intros σ1 _ _ Hp1 _.
  eapply rel_bind; [apply Hbody|]. intros σ2 _ _ Hp2 _.
  assert (Hp02 : σ0 `prefix_of` σ2) by by etrans.
  destruct (ren_mono_list σ0 σ2 vs Hp02 Hb2) as [Hr Hb2'].
  rewrite <- Hr. by apply IH.
Qed.

Lemma rel_exec_block_of (ss : list stmt) :
  Forall (fun s => forall σ, rel_from σ UR (exec s) (@exec nat fresh_objects s)) ss ->
  forall σ0, rel_from σ0 UR (exec_block ss) (@exec_block nat fresh_objects ss).
Proof.
  induction 1 as [|s ss Hs _ IH]; intros σ0; simpl; [apply rel_ret_unit|].
  eapply rel_bind; [apply Hs|]. intros. apply IH.
Qed.

Lemma rel_exec s : forall σ0, rel_from σ0 UR (exec s) (@exec nat fresh_objects s).
Proof.
  induction s as [m a|m ns|l|t e|e|x it body IH|c thn els IH1 IH2|body handler IH1 IH2|cls msg]
    using stmt_nested_ind; intros σ0.
  - simpl. apply rel_bind_name. by split.
  - simpl. eapply rel_then_unit.
    instantiate (1 := fun _ (_ _ : list unit) => True).
    revert σ0. induction ns as [|n ns IHns]; intros σ0; simpl; [by apply rel_ret|].
    eapply rel_bind; [apply (rel_bind_name σ0 n); by split|]. intros.
    eapply rel_bind; [apply IHns|]. intros. by apply rel_ret.
  - apply rel_ret_unit.
  - simpl. eapply rel_bind; [apply rel_eval|]. intros. by apply rel_assign.
  - simpl. eapply rel_then_unit. apply rel_eval.
  - rewrite !exec_for.
    eapply rel_bind; [apply rel_eval|]. intros σ1 v vF Hp1 Hv.
    eapply rel_bind; [by apply rel_iter_values|]. intros σ2 vs vsF Hp2 Hvs.
    apply rel_for_each; [done|]. by apply rel_exec_block_of.
  - rewrite !exec_if.
    eapply rel_bind; [apply rel_eval|]. intros σ1 v vF Hp1 [Hv Hb].
    assert (Ht : truthy v = truthy vF).
    { subst v. destruct vF; try done; cbn [ren truthy]; by destruct vs. }
    rewrite Ht. destruct (truthy vF); by apply rel_exec_block_of.
  - pose proof (rel_exec_block_of body IH1) as Hbody.
    pose proof (rel_exec_block_of handler IH2) as Hhandler.
    unfold rel_from. intros σ stL stF Hp HS. rewrite !exec_try.
    specialize (Hbody σ0 σ stL stF Hp HS).
    destruct (exec_block body stL) as [a stL'|e stL'],
             (@exec_block nat fresh_objects body stF) as [b stF'|e' stF']; try done.
    destruct Hbody as (_ & σ' & Hp' & HS').
    specialize (Hhandler σ' σ' stL' stF' (reflexivity _) HS').
    destruct (exec_block handler stL') as [a stL''|e2 stL''],
             (@exec_block nat fresh_objects handler stF') as [b stF''|e2' stF'']; try done.
    + destruct Hhandler as (σ'' & Hp'' & _ & HS''). exists σ''. split; [by etrans | done].
    + destruct Hhandler as (-> & σ'' & Hp'' & HS''). split; [done|]. exists σ''.
      split; [by etrans | done].
  - apply rel_raise.
Qed.

Lemma rel_run_cells (cs : list cell) : forall i σ stL stF,
  SR σ stL stF ->
  match run_cells i cs stL, @run_cells nat fresh_objects i cs stF with
  | Completed stL', Completed stF' => exists σ', SR σ' stL' stF'
  | Failed j e stL', Failed j' e' stF' => j = j' /\ e = e' /\ exists σ', SR σ' stL' stF'
  | _, _ => False
  end.
Proof.
  induction cs as [|[t|src] cs IH]; intros i σ stL stF HS; simpl.
  - by exists σ.
  - by apply (IH _ σ).
  - assert (HS' : SR σ (enter_cell i stL) (enter_cell i stF)).
    { destruct HS as (? & ? & ? & ? & ? & ?). by repeat split. }
    assert (Hall : Forall (fun s => forall σ, rel_from σ UR (exec s) (@exec nat fresh_objects s))
                     src) by (apply Forall_forall; intros s _; apply rel_exec).
    pose proof (rel_exec_block_of src Hall σ σ
                  (enter_cell i stL) (enter_cell i stF) (reflexivity _) HS') as Hsrc.
    destruct (exec_block src (enter_cell i stL)) as [a stL'|e stL'],
             (@exec_block nat fresh_objects src (enter_cell i stF)) as [b stF'|e' stF'];
      try done.
    + destruct Hsrc as (σ' & _ & _ & HS''). by apply (IH _ σ').
    + destruct Hsrc as (-> & σ' & _ & HS''). eauto.
Qed.

(** Whatever objects a library of objects returns, the run against it is the
    run against [fresh_objects] with the objects renamed: same calls in the
    same order with the same arguments up to the renaming, same outcome. *)
Theorem fresh_run_is_general (nb : notebook) (w : W) :
  exists σ : list nat,
    final_trace (run nb w) = ren_event σ <$> final_trace (run_fresh nb)
    /\ completed (run nb w) = completed (run_fresh nb).
Proof.
  assert (HS : SR [] (init w) (@init nat 0%nat)).
  { unfold SR, init. simpl. split; [|split; [|done]].
    - unfold builtins. by rewrite !fmap_insert, fmap_empty.
    - unfold builtins.
      apply map_Forall_insert_2; [done|].
      apply map_Forall_insert_2; [done|]. apply map_Forall_empty. }
  pose proof (rel_run_cells nb 0 [] (init w) (@init nat 0%nat) HS) as Hrun.
  unfold run_fresh, run.
  destruct (run_cells 0 nb (init w)) as [stL|j e stL],
           (@run_cells nat fresh_objects 0 nb (init 0%nat)) as [stF|j' e' stF]; try done.
  - destruct Hrun as (σ & _ & _ & HT & _). by exists σ.
  - destruct Hrun as (_ & _ & σ & _ & _ & HT & _). by exists σ.
Qed.
End Simulation.

Lemma fresh_objects_object_returning : object_returning fresh_objects.
Proof.
  intros c vs kvs n. rewrite fresh_call.
  destruct c as [q| | |]; [destruct (String.eqb q "matplotlib.pyplot.subplots")|..]; eauto.
Qed.

(** ** Names are bound before they are read *)

Section DefiniteAssignment.
Context {W : Type} `{Library W}.

Definition bound (D : list string) (st : state W) : Prop :=
  forall x, x ∈ D -> is_Some (env st !! x).

(** An expression-level computation: it leaves the namespace alone, and
    started where [D] is bound it raises no [NameError] of its own. *)
Definition careful {A} (D : list string) (m : M W A) : Prop :=
  forall st, bound D st ->
    match m st with
    | Done _ st' => env st' = env st
    | Raised e st' =>
        env st' = env st /\ (raised_by_library e (trace st') \/ exn_class e <> "NameError")
    end.

Lemma bound_env D (st st' : state W) : env st' = env st -> bound D st -> bound D st'.
Proof. intros Heq Hb x Hx. rewrite Heq. by apply Hb. Qed.

Lemma careful_ret {A} D (a : A) : careful D (ret a).
Proof. by intros st _. Qed.

Lemma careful_raise {A} D cls msg :
  cls <> "NameError" -> careful D (raise (A := A) cls msg).
Proof. intros Hc st _. simpl. split; [done | by right]. Qed.

Lemma careful_bind {A B} D (m : M W A) (f : A -> M W B) :
  careful D m -> (forall a, careful D (f a)) -> careful D (bind m f).
Proof.
  intros Hm Hf st Hb. unfold bind. specialize (Hm st Hb).
  destruct (m st) as [a st1|e st1]; [|exact Hm].
  specialize (Hf a st1 (bound_env D st st1 Hm Hb)).
  destruct (f a st1) as [b st2|e st2].
  - congruence.
  - destruct Hf as [Heq Hr]. split; [congruence | exact Hr].
Qed.

Lemma careful_mapM {A B} D (f : A -> M W B) (l : list A) :
  Forall (fun a => careful D (f a)) l -> careful D (mapM f l).
Proof.
  induction 1 as [|a l Ha _ IH]; simpl.
  - apply careful_ret.
  - apply careful_bind; [exact Ha | intros b].
    apply careful_bind; [exact IH | intros bs]. apply careful_ret.
Qed.

Lemma careful_lookup_name D x : x ∈ D -> careful D (lookup_name x).
Proof.
  intros Hx st Hb. unfold lookup_name.
  destruct (Hb x Hx) as [v Hv]. by rewrite Hv.
Qed.

Lemma careful_ext_call D c vs kvs : careful D (ext_call c vs kvs).
Proof.
  intros st _. unfold ext_call.
  destruct (lib_call c vs kvs (world st)) as [[v|e] w']; simpl; [done|].
  split; [done|]. left. unfold raised_by_library. by rewrite last_snoc.
Qed.

Lemma careful_get_attr D v a : careful D (get_attr v a).
Proof. destruct v; simpl; first [apply careful_ret | apply careful_ext_call]. Qed.

Lemma careful_get_item D v k : careful D (get_item v k).
Proof.
  destruct v; simpl; try apply careful_ext_call;
    (destruct k; try (by apply careful_raise);
     [ destruct (py_index _ _); [apply careful_ret | by apply careful_raise]
     | destruct (py_slice _ _ _); [apply careful_ret | by apply careful_raise] ]).
Qed.

Lemma careful_call_value D f vs kvs : careful D (call_value f vs kvs).
Proof.
  destruct f; simpl; try (by apply careful_raise); try apply careful_ext_call.
  destruct (String.eqb _ _); [|apply careful_ext_call].
  destruct vs as [|[] [|[] []]]; try (by apply careful_raise);
    destruct kvs; first [apply careful_ret | by apply careful_raise].
Qed.

Lemma careful_call_attr D r m vs kvs : careful D (call_attr r m vs kvs).
Proof.
  unfold call_attr. destruct r; first [apply careful_call_value | apply careful_ext_call].
Qed.

Lemma careful_bin_op D op x y : careful D (bin_op (W := W) op x y).
Proof. destruct op, x, y; simpl; first [apply careful_ret | by apply careful_raise]. Qed.

Lemma reads_within_elem D e x : reads_within D e = true -> x ∈ used_names e -> x ∈ D.
Proof.
  unfold reads_within. rewrite forallb_forall. intros Hall Hx.
  apply list_elem_of_In in Hx. apply Hall in Hx. by apply bool_decide_eq_true in Hx.
Qed.

Lemma reads_within_iff D e : reads_within D e = true <-> forall x, x ∈ used_names e -> x ∈ D.
Proof.
  split; [intros Hr x; by apply reads_within_elem|].
  intros Hall. unfold reads_within. apply forallb_forall. intros x Hx.
  apply bool_decide_eq_true, Hall. by apply list_elem_of_In.
Qed.

Lemma careful_eval D e : reads_within D e = true -> careful D (eval e).
Proof.
  rewrite reads_within_iff.
  induction e as [x|n|d k|s|es IH|es IH|e a IH|e i IHe IHi|lo hi IHlo IHhi
                  |op e1 e2 IH1 IH2|f args kwargs IHf IHr IHargs IHkw]
    using expr_nested_ind; intros Hu; simpl in Hu |- *.
  - apply careful_lookup_name, Hu. by apply list_elem_of_singleton.
  - apply careful_ret.
  - apply careful_ret.
  - apply careful_ret.
  - apply careful_bind; [|intros; apply careful_ret].
    apply careful_mapM. apply Forall_forall. intros e He.
    rewrite Forall_forall in IH. apply IH; [done|]. intros x Hx. apply Hu.
    apply list_elem_of_In, in_flat_map. exists e. split; by apply list_elem_of_In.
  - apply careful_bind; [|intros; apply careful_ret].
    apply careful_mapM. apply Forall_forall. intros e He.
    rewrite Forall_forall in IH. apply IH; [done|]. intros x Hx. apply Hu.
    apply list_elem_of_In, in_flat_map. exists e. split; by apply list_elem_of_In.
  - apply careful_bind; [by apply IH | intros; apply careful_get_attr].
  - apply careful_bind; [apply IHe; intros x Hx; apply Hu; set_solver | intros].
    apply careful_bind; [apply IHi; intros x Hx; apply Hu; set_solver | intros].
    apply careful_get_item.
  - apply careful_bind.
    { destruct lo as [e0|]; [|apply careful_ret].
      apply (IHlo e0 eq_refl). intros x Hx. apply Hu. set_solver. }
    intros. apply careful_bind.
    { destruct hi as [e0|]; [|apply careful_ret].
      apply (IHhi e0 eq_refl). intros x Hx. apply Hu. set_solver. }
    intros. apply careful_ret.
  - apply careful_bind; [apply IH1; intros x Hx; apply Hu; set_solver | intros].
    apply careful_bind; [apply IH2; intros x Hx; apply Hu; set_solver | intros].
    apply careful_bin_op.
  - assert (Hargs : careful D (mapM eval args)).
    { apply careful_mapM. apply Forall_forall. intros e He.
      rewrite Forall_forall in IHargs. apply IHargs; [done|]. intros x Hx. apply Hu.
      apply elem_of_app. right. apply elem_of_app. left.
      apply list_elem_of_In, in_flat_map. exists e. split; by apply list_elem_of_In. }
    assert (Hkw : careful D (mapM (fun '(k, e') => v <- eval e' ;; ret (k, v)) kwargs)).
    { apply careful_mapM. apply Forall_forall. intros [k e] He.
      rewrite Forall_forall in IHkw.
      apply careful_bind; [|intros; apply careful_ret].
      apply (IHkw (k, e) He). intros x Hx. apply Hu.
      apply elem_of_app. right. apply elem_of_app. right.
      apply list_elem_of_In, in_flat_map. exists (k, e). split; by apply list_elem_of_In. }
    assert (Hf : careful D (eval f)).
    { apply IHf. intros x Hx. apply Hu. apply elem_of_app. by left. }
    destruct f; simpl.
    all: try (apply careful_bind; [exact Hf | intros];
              apply careful_bind; [exact Hargs | intros];
              apply careful_bind; [exact Hkw | intros; apply careful_call_value]).
    apply careful_bind.
    { eapply IHr; [reflexivity|]. intros x Hx. apply Hu. apply elem_of_app. by left. }
    intros. apply careful_bind; [exact Hargs | intros].
    apply careful_bind; [exact Hkw | intros; apply careful_call_attr].
Qed.

(** Bindings are never removed. *)
Definition extends (st : state W) (r : option exn * state W) : Prop :=
  forall x, is_Some (env st !! x) -> is_Some (env r.2 !! x).

Lemma exec_block_extends (ss : list stmt) (st : state W) :
  extends st (shape (exec_block ss st)).
Proof.
  revert st. apply (sound_cell extends (fun _ => True) true); unfold extends; simpl.
  - done.
  - done.
  - intros st st1 r H1 H2 x Hx. by apply H2, H1.
  - intros c vs kvs st. unfold ext_call.
    by destruct (lib_call c vs kvs (world st)) as [[v|e] w'].
  - intros y v st _ x Hx. by apply lookup_insert_is_Some'; right.
  - intros _ st e st1 r H1 H2 x Hx. simpl in *. by apply H2, H1.
  - apply Forall_forall. intros s _. split; [|by left].
    apply Forall_forall. done.
Qed.

(** A statement-level computation: started where [D] is bound it ends where
    [D'] is, or raises no [NameError] of its own. *)
Definition orderly (D D' : list string) (m : M W unit) : Prop :=
  forall st, bound D st ->
    match m st with
    | Done _ st' => bound D' st'
    | Raised e st' => raised_by_library e (trace st') \/ exn_class e <> "NameError"
    end.

Lemma reads_defined_for D x it body :
  reads_defined D (SFor x it body)
  = reads_within D it && block_reads_defined (x :: D) body.
Proof. reflexivity. Qed.

Lemma reads_defined_if D c thn els :
  reads_defined D (SIf c thn els)
  = reads_within D c && block_reads_defined D thn && block_reads_defined D els.
Proof. reflexivity. Qed.

Lemma reads_defined_try D body handler :
  reads_defined D (STry body handler)
  = block_reads_defined D body && block_reads_defined D handler.
Proof. reflexivity. Qed.

Lemma defined_after_incl ss : forall D x, x ∈ D -> x ∈ defined_after D ss.
Proof.
  induction ss as [|s ss IH]; intros D x Hx; simpl; [done|].
  apply IH. apply elem_of_app. by right.
Qed.

Lemma bound_incl D D' (st : state W) :
  (forall x, x ∈ D -> x ∈ D') -> bound D' st -> bound D st.
Proof. intros Hi Hb x Hx. by apply Hb, Hi. Qed.

Lemma bound_insert D x v (st : state W) :
  bound D st ->
  bound (x :: D) (State (<[x := v]> (env st)) (world st) (trace st) (cur_cell st)).
Proof.
  intros Hb y Hy. simpl. apply lookup_insert_is_Some'.
  apply elem_of_cons in Hy as [->|Hy]; [by left | right; by apply Hb].
Qed.

(** Binding a list of names binds them all. *)
Lemma bind_all_bound {A} (key : A -> string) (val : A -> value) (l : list A) :
  forall D (st : state W), bound D st ->
    exists us st',
      mapM (fun a => bind_name (key a) (val a)) l st = Done us st'
      /\ bound ((key <$> l) ++ D) st'.
Proof.
  induction l as [|a l IH]; intros D st Hb; simpl.
  - by exists [], st.
  - unfold bind at 1. unfold bind_name at 1.
    destruct (IH _ _ (bound_insert D (key a) (val a) st Hb)) as (us & st' & Hrun & Hb').
    unfold bind. rewrite Hrun. exists (tt :: us), st'. split; [done|].
    intros x Hx. apply Hb'.
    apply elem_of_cons in Hx. rewrite elem_of_app in Hx.
    rewrite elem_of_app, elem_of_cons. tauto.
Qed.

Lemma bind_pairs (l : list (string * value)) (st : state W) :
  mapM (fun '(x, v) => bind_name x v) l st
  = mapM (fun a : string * value => bind_name a.1 a.2) l st.
Proof.
  revert st. induction l as [|[x v] l IH]; intros st; simpl; [done|].
  unfold bind at 1 3. unfold bind_name at 1 3. unfold bind. by rewrite IH.
Qed.

Lemma orderly_assign D t v : orderly D (target_names t ++ D) (assign t v).
Proof.
  intros st Hb. destruct t as [x|xs]; simpl.
  - by apply bound_insert.
  - assert (Hzip : forall vs, (Nat.eqb (length xs) (length vs)) = true ->
               match (mapM (fun '(x, v') => bind_name x v') (zip xs vs) ;;; ret tt) st with
               | Done _ st' => bound (xs ++ D) st'
               | Raised e st' =>
                   raised_by_library e (trace st') \/ exn_class e <> "NameError"
               end).
    { intros vs Hlen. apply Nat.eqb_eq in Hlen.
      destruct (bind_all_bound fst snd (zip xs vs) D st Hb) as (us & st' & Hrun & Hb').
      unfold bind.
      rewrite bind_pairs, Hrun. simpl. by rewrite fst_zip in Hb' by lia. }
    destruct v; simpl; try (by right).
    + destruct (Nat.eqb (length xs) (length vs)) eqn:Hlen; [by apply Hzip | by right].
    + destruct (Nat.eqb (length xs) (length vs)) eqn:Hlen; [by apply Hzip | by right].
Qed.

Lemma orderly_after_careful {A} D D' (m : M W A) (f : A -> M W unit) :
  careful D m -> (forall a, orderly D D' (f a)) -> orderly D D' (bind m f).
Proof.
  intros Hm Hf st Hb. unfold bind. specialize (Hm st Hb).
  destruct (m st) as [a st1|e st1]; [|tauto].
  apply Hf. by apply (bound_env D st).
Qed.

Lemma orderly_block (ss : list stmt) :
  Forall (fun s => forall D, reads_defined D s = true ->
                             orderly D (defines s ++ D) (exec s)) ss ->
  forall D, block_reads_defined D ss = true ->
            orderly D (defined_after D ss) (exec_block ss).
Proof.
  induction 1 as [|s ss Hs _ IH]; intros D Hc st Hb; simpl in *; [done|].
  apply andb_true_iff in Hc as [Hc1 Hc2].
  unfold bind. specialize (Hs D Hc1 st Hb).
  destruct (exec s st) as [a st1|e st1]; [|exact Hs].
  by apply IH.
Qed.

Lemma orderly_for_each D x body vs :
  orderly (x :: D) D body -> orderly D D (for_each x body vs).
Proof.
  intros Hbody. induction vs as [|v vs IH]; intros st Hb; simpl; [done|].
  unfold bind at 1. unfold bind_name at 1. unfold bind at 1.
  specialize (Hbody _ (bound_insert D x v st Hb)).
  destruct (body _) as [a st1|e st1]; [|exact Hbody].
  by apply IH.
Qed.

Lemma orderly_weaken D D1 D2 m :
  (forall x, x ∈ D2 -> x ∈ D1) -> orderly D D1 m -> orderly D D2 m.
Proof.
  intros Hi Hm st Hb. specialize (Hm st Hb).
  destruct (m st) as [a st1|e st1]; [|exact Hm]. by apply (bound_incl D2 D1).
Qed.

Theorem orderly_exec (s : stmt) :
  forall D, reads_defined D s = true -> orderly D (defines s ++ D) (exec s).
Proof.
  induction s as [m a|m ns|l|t e|e|x it body IH|c thn els IH1 IH2|body handler IH1 IH2|cls msg]
    using stmt_nested_ind; intros D Hc.
  - intros st Hb. by apply bound_insert.
  - intros st Hb. simpl. unfold bind.
    destruct (bind_all_bound id (fun n => VExt (qualify m n)) ns D st Hb)
      as (us & st' & Hrun & Hb').
    change (mapM (fun n => bind_name n (VExt (qualify m n))) ns st)
      with (mapM (fun a => bind_name (id a) (VExt (qualify m a))) ns st).
    rewrite Hrun. simpl. by rewrite list_fmap_id in Hb'.
  - by intros st Hb.
  - simpl in Hc |- *. apply orderly_after_careful; [by apply careful_eval | intros v].
    apply orderly_assign.
  - simpl in Hc |- *. apply orderly_after_careful; [by apply careful_eval | intros v].
    by intros st Hb.
  - rewrite reads_defined_for in Hc. apply andb_true_iff in Hc as [Hit Hbody].
    rewrite exec_for. simpl defines. simpl app.
    apply orderly_after_careful; [by apply careful_eval | intros v].
    apply orderly_after_careful.
    { destruct v; simpl; first [apply careful_ret | by apply careful_raise]. }
    intros vs. apply orderly_for_each.
    eapply orderly_weaken; [|by apply orderly_block].
    intros y Hy. apply defined_after_incl. apply elem_of_cons. by right.
  - rewrite reads_defined_if in Hc. apply andb_true_iff in Hc as [Hc Hels].
    apply andb_true_iff in Hc as [Hc Hthn].
    rewrite exec_if. simpl defines. simpl app.
    apply orderly_after_careful; [by apply careful_eval | intros v].
    destruct (truthy v);
      (eapply orderly_weaken; [|by apply orderly_block]); apply defined_after_incl.
  - rewrite reads_defined_try in Hc. apply andb_true_iff in Hc as [Hbody Hhandler].
    simpl defines. simpl app. intros st Hb. rewrite exec_try.
    pose proof (orderly_block body IH1 D Hbody st Hb) as H1.
    pose proof (exec_block_extends body st) as Hext.
    destruct (exec_block body st) as [a st1|e st1]; simpl in *.
    + by apply (bound_incl D (defined_after D body)); [apply defined_after_incl|].
    + assert (Hb1 : bound D st1) by (intros y Hy; by apply Hext, Hb).
      pose proof (orderly_block handler IH2 D Hhandler st1 Hb1) as H2.
      destruct (exec_block handler st1) as [a st2|e2 st2]; [|exact H2].
      by apply (bound_incl D (defined_after D handler)); [apply defined_after_incl|].
  - simpl in Hc. intros st _. simpl. right. simpl.
    intros ->. by rewrite String.eqb_refl in Hc.
Qed.

Lemma orderly_cell (src : list stmt) D :
  block_reads_defined D src = true -> orderly D (defined_after D src) (exec_block src).
Proof.
  apply orderly_block. apply Forall_forall. intros s _. apply orderly_exec.
Qed.

(** A notebook whose cells read only names bound above: when it completes,
    every name its statements define is bound; when it fails, not on an
    unbound name. *)
Theorem cells_read_defined_sound (cs : list cell) : forall D i (st : state W),
  cells_read_defined D cs = true -> bound D st ->
  match run_cells i cs st with
  | Completed st' => bound (defined_after_cells D cs) st'
  | Failed _ e st' => raised_by_library e (trace st') \/ exn_class e <> "NameError"
  end.
Proof.
  induction cs as [|[t|src] cs IH]; intros D i st Hc Hb; simpl in *.
  - exact Hb.
  - by apply IH.
  - apply andb_true_iff in Hc as [Hsrc Hcs].
    pose proof (orderly_cell src D Hsrc (enter_cell i st) Hb) as Hrun.
    destruct (exec_block src (enter_cell i st)) as [a st1|e st1]; [|exact Hrun].
    by apply IH.
Qed.
End DefiniteAssignment.

(** ** Imports are bound once *)

Section Imports.
Context {W : Type} `{Library W}.
Variable tbl : gmap string value.

Definition keeps_agreeing (st : state W) (r : option exn * state W) : Prop :=
  agrees tbl (env st) -> agrees tbl (env r.2).

Lemma agrees_insert E x v :
  (forall u, tbl !! x = Some u -> u = v) -> agrees tbl E -> agrees tbl (<[x := v]> E).
Proof.
  intros Hx HE y u Hy. destruct (decide (y = x)) as [->|Hne].
  - right. rewrite lookup_insert_eq. f_equal. symmetry. by apply Hx.
  - rewrite lookup_insert_ne by done. by apply HE.
Qed.

Lemma bind_imports_agrees (l : list (string * value)) : forall st : state W,
  forallb (fun xv => bool_decide (tbl !! xv.1 = Some xv.2)) l = true ->
  agrees tbl (env st) ->
  exists us st',
    mapM (fun a : string * value => bind_name a.1 a.2) l st = Done us st'
    /\ agrees tbl (env st').
Proof.
  induction l as [|[x v] l IH]; intros st Hl HE; simpl in *.
  - by exists [], st.
  - apply andb_true_iff in Hl as [Hx Hl]. apply bool_decide_eq_true in Hx.
    unfold bind at 1. unfold bind_name at 1.
    destruct (IH (State (<[x := v]> (env st)) (world st) (trace st) (cur_cell st)) Hl)
      as (us & st' & Hrun & HE').
    { simpl. apply agrees_insert; [|done]. intros u Hu. congruence. }
    unfold bind. rewrite Hrun. by exists (tt :: us), st'.
Qed.

Lemma bind_from_imports m (ns : list string) (st : state W) :
  mapM (fun n => bind_name n (VExt (qualify m n))) ns st
  = mapM (fun a : string * value => bind_name a.1 a.2)
         (map (fun n => (n, VExt (qualify m n))) ns) st.
Proof.
  revert st. induction ns as [|n ns IH]; intros st; simpl; [done|].
  unfold bind at 1 3. unfold bind_name at 1 3. unfold bind. by rewrite IH.
Qed.

Lemma exec_keeps_imports (s : stmt) (st : state W) :
  keeps_imports tbl s = true -> keeps_agreeing st (shape (exec s st)).
Proof.
  intros Hk.
  assert (Hother :
    forallb (fun x => bool_decide (tbl !! x = None)) (bound_names s) = true ->
    keeps_agreeing st (shape (exec s st))).
  { intros Hb. revert st.
    apply (sound_exec keeps_agreeing (fun y => tbl !! y = None) true);
      unfold keeps_agreeing; simpl.
    - done.
    - done.
    - intros st st1 r H1 H2 HE. by apply H2, H1.
    - intros c vs kvs st. unfold ext_call.
      by destruct (lib_call c vs kvs (world st)) as [[v|e] w'].
    - intros y v st Hy HE. apply agrees_insert; [|done]. intros u Hu. congruence.
    - intros _ st e st1 r H1 H2 HE. simpl in *. by apply H2, H1.
    - split; [|by left]. apply Forall_forall. intros y Hy.
      rewrite forallb_forall in Hb. apply list_elem_of_In in Hy.
      by apply Hb, bool_decide_eq_true in Hy. }
  destruct s as [m a|m ns| | | | | | |]; try (by apply Hother).
  - intros HE. simpl in Hk |- *. apply andb_true_iff in Hk as [Hk _].
    apply bool_decide_eq_true in Hk. simpl in Hk.
    apply agrees_insert; [|done]. intros u Hu. congruence.
  - intros HE. simpl in Hk. simpl exec. unfold bind.
    destruct (bind_imports_agrees _ st Hk HE) as (us & st' & Hrun & HE').
    by rewrite bind_from_imports, Hrun.
Qed.

Lemma exec_block_keeps_imports (ss : list stmt) : forall st : state W,
  forallb (keeps_imports tbl) ss = true -> keeps_agreeing st (shape (exec_block ss st)).
Proof.
  induction ss as [|s ss IH]; intros st Hk HE; simpl in *; [done|].
  apply andb_true_iff in Hk as [Hs Hss].
  pose proof (exec_keeps_imports s st Hs HE) as H1.
  unfold bind. destruct (exec s st) as [a st1|e st1]; simpl in *; [|done].
  by apply IH.
Qed.

(** Whatever the library does and wherever the run stops, an imported name
    is unbound or names its import. *)
Theorem run_cells_keeps_imports (cs : list cell) : forall i (st : state W),
  forallb (keeps_imports tbl) (all_stmts cs) = true ->
  agrees tbl (env st) -> agrees tbl (final_env (run_cells i cs st)).
Proof.
  induction cs as [|[t|src] cs IH]; intros i st Hk HE; simpl.
  - done.
  - by apply IH.
  - unfold all_stmts in Hk. simpl in Hk. rewrite forallb_app in Hk.
    apply andb_true_iff in Hk as [Hsrc Hcs].
    pose proof (exec_block_keeps_imports src (enter_cell i st) Hsrc HE) as H1.
    destruct (exec_block src (enter_cell i st)) as [a st1|e st1]; simpl in *; [|done].
    by apply IH.
Qed.
End Imports.

Lemma builtins_bound {W} (w : W) : bound ["print"; "range"] (init w).
Proof.
  intros x Hx. apply elem_of_cons in Hx as [->|Hx]; [by eexists|].
  apply elem_of_cons in Hx as [->|Hx]; [by eexists|]. by apply elem_of_nil in Hx.
Qed.

Lemma fixed_names_agree {W} `{Library W} (nb : notebook) (w : W) :
  forallb (keeps_imports (list_to_map (fixed_names nb))) (all_stmts nb) = true ->
  agrees (list_to_map (fixed_names nb)) builtins ->
  NoDup (fixed_names nb).*1 ->
  Forall (fun xv => final_env (run nb w) !! xv.1 = None
                    \/ final_env (run nb w) !! xv.1 = Some xv.2) (fixed_names nb).
Proof.
  intros Hk HE Hnd. apply Forall_forall. intros [x v] Hxv.
  apply (run_cells_keeps_imports _ nb 0 (init w) Hk HE).
  by apply elem_of_list_to_map.
Qed.

(** ** Calls come in cell order *)

Section CellOrder.
Context {W : Type} `{Library W}.





End CellOrder.

(** ** A bound on the calls of a run *)

Section Budget.
Context {W : Type} `{Library W}.

(** [m] adds at most [n] events to the trace. *)
Definition spends {A} (n : nat) (m : M W A) : Prop :=
  forall st, (length (trace (shape (m st)).2) <= length (trace st) + n)%nat.

Lemma spends_ret {A} (a : A) : spends 0 (ret a).
Proof. intros st. simpl. lia. Qed.

Lemma spends_raise {A} cls msg : spends 0 (raise (A := A) cls msg).
Proof. intros st. simpl. lia. Qed.

Lemma spends_more {A} n n' (m : M W A) : (n <= n')%nat -> spends n m -> spends n' m.
Proof. intros Hn Hm st. specialize (Hm st). lia. Qed.

Lemma spends_bind {A B} n1 n2 (m : M W A) (f : A -> M W B) :
  spends n1 m -> (forall a, spends n2 (f a)) -> spends (n1 + n2) (bind m f).
Proof.
  intros Hm Hf st. unfold bind. specialize (Hm st).
  destruct (m st) as [a st1|e st1]; simpl in *; [|lia].
  specialize (Hf a st1). lia.
Qed.

Lemma spends_ext_call c vs kvs : spends 1 (ext_call c vs kvs).
Proof.
  intros st. unfold ext_call.
  destruct (lib_call c vs kvs (world st)) as [[v|e] w']; simpl; rewrite length_app; simpl; lia.
Qed.

Lemma spends_mapM {A B} (cost : A -> nat) (f : A -> M W B) (l : list A) :
  Forall (fun a => spends (cost a) (f a)) l -> spends (sum_list_with cost l) (mapM f l).
Proof.
  induction 1 as [|a l Ha _ IH]; simpl.
  - apply spends_ret.
  - apply spends_bind; [exact Ha | intros b].
    replace (sum_list_with cost l) with (sum_list_with cost l + 0)%nat by lia.
    apply spends_bind; [exact IH | intros bs; apply spends_ret].
Qed.

Lemma spends_get_attr v a : spends 1 (get_attr v a).
Proof.
  destruct v; simpl; first [apply spends_ext_call | apply (spends_more 0); [lia|apply spends_ret]].
Qed.

Lemma spends_get_item v k : spends 1 (get_item v k).
Proof.
  destruct v; simpl; try apply spends_ext_call;
    (apply (spends_more 0); [lia|]);
    (destruct k; try apply spends_raise;
     [ destruct (py_index _ _); [apply spends_ret | apply spends_raise]
     | destruct (py_slice _ _ _); [apply spends_ret | apply spends_raise] ]).
Qed.

Lemma spends_call_value f vs kvs : spends 1 (call_value f vs kvs).
Proof.
  destruct f; simpl; try apply spends_ext_call;
    try (apply (spends_more 0); [lia | apply spends_raise]).
  destruct (String.eqb _ _); [|apply spends_ext_call].
  apply (spends_more 0); [lia|].
  destruct vs as [|[] [|[] []]]; try apply spends_raise;
    destruct kvs; first [apply spends_ret | apply spends_raise].
Qed.

Lemma spends_call_attr r m vs kvs : spends 1 (call_attr r m vs kvs).
Proof.
  unfold call_attr. destruct r; first [apply spends_call_value | apply spends_ext_call].
Qed.

Lemma spends_bin_op op x y : spends 0 (bin_op (W := W) op x y).
Proof. destruct op, x, y; simpl; first [apply spends_ret | apply spends_raise]. Qed.

Lemma spends_eval e : spends (max_calls e) (eval e).
Proof.
  induction e as [x|n|d k|s|es IH|es IH|e a IH|e i IHe IHi|lo hi IHlo IHhi
                  |op e1 e2 IH1 IH2|f args kwargs IHf IHr IHargs IHkw]
    using expr_nested_ind; simpl.
  - intros st. unfold lookup_name. destruct (env st !! x); simpl; lia.
  - apply spends_ret.
  - apply spends_ret.
  - apply spends_ret.
  - eapply spends_more; [|apply spends_bind; [by apply spends_mapM | intros; apply spends_ret]].
    lia.
  - eapply spends_more; [|apply spends_bind; [by apply spends_mapM | intros; apply spends_ret]].
    lia.
  - eapply spends_more; [|apply spends_bind; [exact IH | intros; apply spends_get_attr]]. lia.
  - eapply spends_more;
      [|apply spends_bind; [exact IHe | intros];
        apply spends_bind; [exact IHi | intros; apply spends_get_item]].
    lia.
  - eapply spends_more;
      [|apply (spends_bind (match lo with Some e' => max_calls e' | None => 0%nat end));
        [destruct lo; [eauto | apply spends_ret] | intros];
        apply (spends_bind (match hi with Some e' => max_calls e' | None => 0%nat end));
        [destruct hi; [eauto | apply spends_ret] | intros; apply spends_ret]].
    lia.
  - eapply spends_more;
      [|apply spends_bind; [exact IH1 | intros];
        apply spends_bind; [exact IH2 | intros; apply spends_bin_op]].
    lia.
  - assert (Hargs : spends (sum_list_with max_calls args) (mapM eval args))
      by by apply spends_mapM.
    assert (Hkw : spends (sum_list_with (fun kv : string * expr => max_calls kv.2) kwargs)
                    (mapM (fun '(k, e') => v <- eval e' ;; ret (k, v)) kwargs)).
    { apply spends_mapM. eapply Forall_impl; [exact IHkw|].
      intros [k e'] He'. simpl in *.
      eapply spends_more; [|apply spends_bind; [exact He' | intros; apply spends_ret]]. lia. }
    destruct f; simpl.
    all: try (eapply spends_more;
              [|apply spends_bind; [exact IHf | intros];
                apply spends_bind; [exact Hargs | intros];
                apply spends_bind; [exact Hkw | intros; apply spends_call_value]];
              simpl; lia).
    eapply spends_more;
      [|apply spends_bind; [by eapply IHr | intros];
        apply spends_bind; [exact Hargs | intros];
        apply spends_bind; [exact Hkw | intros; apply spends_call_attr]].
    lia.
Qed.

Lemma spends_bind_all {A} (f : A -> M W unit) (l : list A) :
  (forall a, spends 0 (f a)) -> spends 0 (mapM f l).
Proof.
  intros Hf. induction l as [|a l IH]; simpl; [apply spends_ret|].
  apply (spends_bind 0 0); [apply Hf | intros].
  apply (spends_bind 0 0); [exact IH | intros; apply spends_ret].
Qed.

Lemma spends_bind_name x v : spends 0 (bind_name (W := W) x v).
Proof. intros st. simpl. lia. Qed.

Lemma spends_assign t v : spends 0 (assign t v).
Proof.
  destruct t as [x|xs]; simpl; [apply spends_bind_name|].
  destruct v; try apply spends_raise;
    (destruct (Nat.eqb _ _); [|apply spends_raise]);
    (apply (spends_bind 0 0); [|intros; apply spends_ret]);
    apply spends_bind_all; intros [y u]; apply spends_bind_name.
Qed.

Lemma spends_exec s : straight_line_stmt s = true -> spends (stmt_max_calls s) (exec s).
Proof.
  destruct s as [m a|m ns|l|t e|e| | | |]; try discriminate; intros _; simpl.
  - apply spends_bind_name.
  - apply (spends_bind 0 0); [|intros; apply spends_ret].
    apply spends_bind_all. intros n. apply spends_bind_name.
  - apply spends_ret.
  - eapply spends_more; [|apply spends_bind; [apply spends_eval | intros; apply spends_assign]].
    lia.
  - eapply spends_more; [|apply spends_bind; [apply spends_eval | intros; apply spends_ret]].
    lia.
Qed.

Lemma spends_exec_block ss :
  forallb straight_line_stmt ss = true ->
  spends (sum_list_with stmt_max_calls ss) (exec_block ss).
Proof.
  induction ss as [|s ss IH]; simpl; intros Hs; [apply spends_ret|].
  apply andb_true_iff in Hs as [Hs Hss].
  apply spends_bind; [by apply spends_exec | intros _; by apply IH].
Qed.

(** A notebook without loops and branches makes at most as many calls as
    its expressions have attribute reads, subscripts and calls. *)
Theorem straight_line_budget (cs : list cell) : forall i (st : state W),
  straight_line cs = true ->
  (length (final_trace (run_cells i cs st))
   <= length (trace st) + notebook_max_calls cs)%nat.
Proof.
  unfold straight_line, notebook_max_calls, all_stmts.
  induction cs as [|[t|src] cs IH]; intros i st Hs; simpl in *.
  - lia.
  - by apply IH.
  - rewrite forallb_app in Hs. apply andb_true_iff in Hs as [Hsrc Hcs].
    rewrite sum_list_with_app.
    pose proof (spends_exec_block src Hsrc (enter_cell i st)) as H1.
    destruct (exec_block src (enter_cell i st)) as [a st1|e st1]; simpl in *; [|lia].
    specialize (IH (S i) st1 Hcs). lia.
Qed.
End Budget.

(** The namespace a run against a library of objects ends with is the one
    the run against [fresh_objects] ends with, renamed like the trace. *)
Theorem fresh_namespace_is_general {W} (L : Library W) (nb : notebook) (w : W) :
  object_returning L ->
  exists σ : list nat,
    final_env (run nb w) = ren σ <$> final_env (run_fresh nb)
    /\ final_trace (run nb w) = ren_event σ <$> final_trace (run_fresh nb).
Proof.
  intros HL.
  assert (HS : SR [] (init w) (@init nat 0%nat)).
  { unfold SR, init. simpl. split; [|split; [|done]].
    - unfold builtins. by rewrite !fmap_insert, fmap_empty.
    - unfold builtins.
      apply map_Forall_insert_2; [done|].
      apply map_Forall_insert_2; [done|]. apply map_Forall_empty. }
  pose proof (rel_run_cells L HL nb 0 [] (init w) (@init nat 0%nat) HS) as Hrun.
  unfold run_fresh, run.
  destruct (run_cells 0 nb (init w)) as [stL|j e stL],
           (@run_cells nat fresh_objects 0 nb (init 0%nat)) as [stF|j' e' stF]; try done.
  - destruct Hrun as (σ & HE & _ & HT & _). by exists σ.
  - destruct Hrun as (_ & _ & σ & HE & _ & HT & _). by exists σ.
Qed.

Ltac against_fresh_namespace HL σ :=
  match goal with
  | |- context [final_env (@run ?W ?L ?nb ?w)] =>
      let HE := fresh "HE" in
      let HT := fresh "HT" in
      destruct (fresh_namespace_is_general L nb w HL) as (σ & HE & HT);
      rewrite HE, ?HT; clear HE HT
  end.


(** ** The claims *)

(** Replaces the trace of a run against a library of objects by the renamed
    trace of the run against [fresh_objects]. *)
Ltac against_fresh_objects HL σ :=
  match goal with
  | |- context [final_trace (@run ?W ?L ?nb ?w)] =>
      let HT := fresh "HT" in
      destruct (fresh_run_is_general L HL nb w) as (σ & HT & _); rewrite HT; clear HT
  end.

Lemma fresh_runs_complete :
  completed (run_fresh LatentDistributionNotebook.cells) = true
  /\ completed (run_fresh OmnibusNotebook.cells) = true.
Proof. split; vm_compute; reflexivity. Qed.

(** C1, as stated, fails: what the [fit] calls of the hypothesis-test notebook
    receive are not results of the embedding step. *)
Lemma C1_tests_not_run_on_embeddings : tests_on_embeddings T_ldt = false.
Proof. vm_compute. reflexivity. Qed.

(** C1 (amended): each graph is sampled by [sbm] and embedded by
    [AdjacencySpectralEmbed(n_components=2).fit_transform]; the embeddings are
    passed to [pairplot].  The latent-distribution tests, built from a test
    name, [metric="euclidean"] and [n_bootstraps=200], are fit on the sampled
    adjacency matrices themselves.  This much holds of the run against every
    library of objects.  In the run in which every object is fresh, moreover,
    the embeddings reach [pairplot] and nothing else, every matrix a test is
    fit on was embedded by an earlier call, and on every fitted test object
    the p-value, the null distribution and the test statistic are read after
    its [fit]. *)
Theorem C1_pipeline :
  forall (W : Type) (L : Library W) (w : W),
    object_returning L ->
    (exists a1 a2 a1' a3 e1 e2 e3 e4 x1 x2 x1' x3 t1 t2 t3 t4 : value,
       let T := final_trace (run LatentDistributionNotebook.cells w) in
       map result_of (calls Graspy.sbm T) = [Some a1; Some a2; Some a1'; Some a3]
       /\ map (fun ev => (signature ev, result_of ev)) (calls Graspy.AdjacencySpectralEmbed T)
          = [ (([], [("n_components", VInt 2)]), Some e1);
              (([], [("n_components", VInt 2)]), Some e2);
              (([], [("n_components", VInt 2)]), Some e3);
              (([], [("n_components", VInt 2)]), Some e4) ]
       /\ map (fun ev => (receiver ev, ev_args ev, result_of ev)) (method_calls "fit_transform" T)
          = [ (Some e1, [a1], Some x1); (Some e2, [a2], Some x2);
              (Some e3, [a1'], Some x1'); (Some e4, [a3], Some x3) ]
       /\ map ev_args (calls Graspy.pairplot T) = [[x1]; [x2]; [x3]]
       /\ map (fun ev => (signature ev, result_of ev)) (calls Graspy.LatentDistributionTest T)
          = [ (([VStr "dcorr"], ldt_kwargs), Some t1); (([VStr "mgc"], ldt_kwargs), Some t2);
              (([VStr "dcorr"], ldt_kwargs), Some t3); (([VStr "mgc"], ldt_kwargs), Some t4) ]
       /\ map (fun ev => (receiver ev, ev_args ev)) (method_calls "fit" T)
          = [ (Some t1, [a1'; a2]); (Some t2, [a1'; a2]);
              (Some t3, [a1'; a3]); (Some t4, [a1'; a3]) ])
    /\ (exists x1 x2 x1' x3 t1 t2 t3 t4 : value,
          map result_of (method_calls "fit_transform" T_ldt)
            = [Some x1; Some x2; Some x1'; Some x3]
          /\ map (fun ev => callee_name (ev_callee ev))
                 (users x1 T_ldt ++ users x2 T_ldt ++ users x1' T_ldt ++ users x3 T_ldt)
             = [Graspy.pairplot; Graspy.pairplot; Graspy.pairplot]
          /\ embedded_before_tested [] T_ldt = true
          /\ map result_of (calls Graspy.LatentDistributionTest T_ldt)
             = [Some t1; Some t2; Some t3; Some t4]
          /\ Forall (fun t => map (fun ev => callee_name (ev_callee ev)) (on_receiver t T_ldt)
                              = fit_then_report) [t1; t2; t3; t4]).
Proof.
  intros W L w HL. split.
  - against_fresh_objects HL σ.
    exists (ren σ (VRef 2)), (ren σ (VRef 7)), (ren σ (VRef 10)), (ren σ (VRef 46)).
    exists (ren σ (VRef 3)), (ren σ (VRef 8)), (ren σ (VRef 11)), (ren σ (VRef 48)).
    exists (ren σ (VRef 4)), (ren σ (VRef 9)), (ren σ (VRef 12)), (ren σ (VRef 49)).
    exists (ren σ (VRef 15)), (ren σ (VRef 17)), (ren σ (VRef 51)), (ren σ (VRef 53)).
    cbv zeta. compute_all.
  - exists (VRef 4), (VRef 9), (VRef 12), (VRef 49).
    exists (VRef 15), (VRef 17), (VRef 51), (VRef 53).
    compute_all.
Qed.

(** C1 at the library of fresh objects. *)
Lemma C1_fresh_objects :
  object_returning fresh_objects
  /\ exists a1 a2 a1' a3 t1 t2 t3 t4 : value,
       map result_of (calls Graspy.sbm T_ldt) = [Some a1; Some a2; Some a1'; Some a3]
       /\ map (fun ev => (receiver ev, ev_args ev)) (method_calls "fit" T_ldt)
          = [ (Some t1, [a1'; a2]); (Some t2, [a1'; a2]);
              (Some t3, [a1'; a3]); (Some t4, [a1'; a3]) ].
Proof.
  split; [exact fresh_objects_object_returning|].
  destruct (C1_pipeline nat fresh_objects 0%nat fresh_objects_object_returning)
    as [(a1 & a2 & a1' & a3 & e1 & e2 & e3 & e4 & x1 & x2 & x1' & x3 & t1 & t2 & t3 & t4
         & Hsbm & _ & _ & _ & _ & Hfit) _].
  exists a1, a2, a1', a3, t1, t2, t3, t4. split; [exact Hsbm | exact Hfit].
Defined.

(** C2: two graphs are sampled by [sbm] from block-probability matrices that
    differ; one [OmnibusEmbed] is constructed, with no argument at all, and
    its single [fit_transform] receives the list of both graphs; the result is
    subscripted by 0 and by 1; four scatter plots carry the labels of the two
    blocks of the two graphs and fifty lines are drawn.  This much holds of
    the run against every library of objects.  In the run in which every
    object is fresh, moreover, the first block [Zhat[0]] is bound to [Xhat1]
    and drawn under the labels of graph 1, the second block [Zhat[1]] to
    [Xhat2] and drawn under the labels of graph 2, and the fifty lines join
    row [i] of one to row [i] of the other. *)
Theorem C2_joint_embedding :
  forall (W : Type) (L : Library W) (w : W),
    object_returning L ->
    (exists g1 g2 emb zhat xh1 xh2 : value,
       let T := final_trace (run OmnibusNotebook.cells w) in
       let n := VList [VInt 25; VInt 25] in
       let P1 := VList [VList [VFloat 3 1; VFloat 1 1]; VList [VFloat 1 1; VFloat 7 1]] in
       let P2 := VList [VList [VFloat 3 1; VFloat 1 1]; VList [VFloat 1 1; VFloat 3 1]] in
       map (fun ev => (signature ev, result_of ev)) (calls Graspy.sbm T)
         = [(([n; P1], []), Some g1); (([n; P2], []), Some g2)]
       /\ P1 <> P2
       /\ map (fun ev => (signature ev, result_of ev)) (calls Graspy.OmnibusEmbed T)
          = [(([], []), Some emb)]
       /\ map (fun ev => (receiver ev, signature ev, result_of ev))
              (method_calls "fit_transform" T)
          = [(Some emb, ([VList [g1; g2]], []), Some zhat)]
       /\ map (fun ev => (receiver ev, ev_args ev, result_of ev)) (take 2 (item_reads T))
          = [(Some zhat, [VInt 0], Some xh1); (Some zhat, [VInt 1], Some xh2)]
       /\ map (kwarg "label") (method_calls "scatter" T)
          = [ Some (VStr "Graph 1, Block 1"); Some (VStr "Graph 1, Block 2");
              Some (VStr "Graph 2, Block 1"); Some (VStr "Graph 2, Block 2") ]
       /\ length (method_calls "plot" T) = 50%nat
       /\ completed (run OmnibusNotebook.cells w) = true)
    /\ (exists zhat xh1 xh2 : value,
          map result_of (method_calls "fit_transform" T_omni) = [Some zhat]
          /\ map (fun ev => (ev_args ev, result_of ev)) (subscripts_of zhat T_omni)
             = [([VInt 0], Some xh1); ([VInt 1], Some xh2)]
          /\ env_after 9 OmnibusNotebook.cells "Xhat1" = Some xh1
          /\ env_after 9 OmnibusNotebook.cells "Xhat2" = Some xh2
          /\ map (fun ev => (map (subscript_of T_omni) (ev_args ev), kwarg "label" ev))
                 (method_calls "scatter" T_omni)
             = [ ([Some (xh1, rows VNone (VInt 25) 0); Some (xh1, rows VNone (VInt 25) 1)],
                  Some (VStr "Graph 1, Block 1"));
                 ([Some (xh1, rows (VInt 25) VNone 0); Some (xh1, rows (VInt 25) VNone 1)],
                  Some (VStr "Graph 1, Block 2"));
                 ([Some (xh2, rows VNone (VInt 25) 0); Some (xh2, rows VNone (VInt 25) 1)],
                  Some (VStr "Graph 2, Block 1"));
                 ([Some (xh2, rows (VInt 25) VNone 0); Some (xh2, rows (VInt 25) VNone 1)],
                  Some (VStr "Graph 2, Block 2")) ]
          /\ map (line_ends T_omni) (method_calls "plot" T_omni)
             = map (fun i => [ [Some (xh1, at_row i 0); Some (xh2, at_row i 0)];
                               [Some (xh1, at_row i 1); Some (xh2, at_row i 1)] ]) (seq 0 50)
          /\ map (phase_of T_omni) (method_calls "scatter" T_omni ++ method_calls "plot" T_omni)
             = replicate 54 (Some Plotting)).
Proof.
  intros W L w HL. split.
  - destruct (fresh_run_is_general L HL OmnibusNotebook.cells w) as (σ & HT & Hc).
    rewrite Hc, HT. clear HT Hc.
    exists (ren σ (VRef 1)), (ren σ (VRef 2)), (ren σ (VRef 5)).
    exists (ren σ (VRef 6)), (ren σ (VRef 9)), (ren σ (VRef 10)).
    cbv zeta. compute_all. discriminate.
  - exists (VRef 6), (VRef 9), (VRef 10). compute_all.
Qed.

(** C2 at the library of fresh objects. *)
Lemma C2_fresh_objects :
  object_returning fresh_objects
  /\ exists g1 g2 emb zhat : value,
       map (fun ev => (signature ev, result_of ev)) (calls Graspy.OmnibusEmbed T_omni)
         = [(([], []), Some emb)]
       /\ map (fun ev => (receiver ev, signature ev, result_of ev))
              (method_calls "fit_transform" T_omni)
          = [(Some emb, ([VList [g1; g2]], []), Some zhat)].
Proof.
  split; [exact fresh_objects_object_returning|].
  destruct (C2_joint_embedding nat fresh_objects 0%nat fresh_objects_object_returning)
    as [(g1 & g2 & emb & zhat & xh1 & xh2 & _ & _ & Hemb & Hfit & _) _].
  exists g1, g2, emb, zhat. split; [exact Hemb | exact Hfit].
Defined.

(** C3, as stated, fails: the hypothesis-test notebook does not run generate,
    embed, test, plot in that order, and it plots before it tests. *)
Lemma C3_plots_precede_tests :
  linear_flow (phases T_ldt) = false /\ no_plot_before_test (phases T_ldt) = false.
Proof. split; vm_compute; reflexivity. Qed.

(** C3 (amended): the calls of each notebook run top to bottom, but not as one
    generate, embed, test, plot pass.  In the hypothesis-test notebook the
    phases alternate, graphs are plotted before the first test, and the
    histograms follow the tests; the omnibus notebook has no testing call. *)
Theorem C3_phase_order :
  runs (phases T_ldt)
    = [ Generating; Embedding; Plotting;
        Generating; Embedding; Generating; Embedding; Plotting;
        Testing; Plotting;
        Generating; Plotting; Embedding; Plotting;
        Testing; Plotting ]
  /\ runs (phases T_omni) = [Generating; Plotting; Embedding; Plotting]
  /\ List.filter (fun p => bool_decide (p = Testing)) (phases T_omni) = []
  /\ completed (run_fresh LatentDistributionNotebook.cells) = true
  /\ completed (run_fresh OmnibusNotebook.cells) = true.
Proof. compute_all. Qed.

(** C4: against every library of objects, the functions and classes the two
    runs call by name are the ones listed, and those of graspy among them are
    five of the six entry points in the hypothesis-test notebook and three in
    the omnibus notebook.  In the run in which every object is fresh, every
    event that reaches graspy, by calling one of its functions or classes or
    by using an object obtained from one, goes through one of the six entry
    points.  The same holds of the code as written: the names imported from
    graspy that occur in call position stand for those entry points, and
    [rdpg], [symmetrize] and the module name [graspy] are bound by imports and
    mentioned by no expression. *)
Theorem C4_six_entry_points :
  forall (W : Type) (L : Library W) (w : W),
    object_returning L ->
    (remove_dups (fun_names (final_trace (run LatentDistributionNotebook.cells w)))
       = [ "numpy.random.seed"; "numpy.array"; Graspy.sbm; Graspy.heatmap;
           Graspy.AdjacencySpectralEmbed; Graspy.pairplot; Graspy.LatentDistributionTest;
           "builtins.print"; "matplotlib.pyplot.subplots"; "matplotlib.pyplot.show" ]
     /\ remove_dups (fun_names (final_trace (run OmnibusNotebook.cells w)))
        = [ "numpy.random.seed"; Graspy.sbm; Graspy.heatmap; Graspy.OmnibusEmbed;
            "builtins.print"; "matplotlib.pyplot.subplots" ]
     /\ completed (run LatentDistributionNotebook.cells w) = true
     /\ completed (run OmnibusNotebook.cells w) = true)
    /\ Forall (fun q => q ∈ six_entry_points)
              (omap (graspy_entry T_ldt) T_ldt ++ omap (graspy_entry T_omni) T_omni)
    /\ remove_dups (omap (graspy_entry T_ldt) T_ldt)
       = [ Graspy.sbm; Graspy.heatmap; Graspy.AdjacencySpectralEmbed; Graspy.pairplot;
           Graspy.LatentDistributionTest ]
    /\ remove_dups (omap (graspy_entry T_omni) T_omni)
       = [ Graspy.sbm; Graspy.heatmap; Graspy.OmnibusEmbed ]
    /\ graspy_called LatentDistributionNotebook.cells
       = [ Graspy.LatentDistributionTest; Graspy.AdjacencySpectralEmbed; Graspy.sbm;
           Graspy.heatmap; Graspy.pairplot ]
    /\ graspy_called OmnibusNotebook.cells
       = [ Graspy.sbm; Graspy.heatmap; Graspy.OmnibusEmbed ]
    /\ List.filter
         (fun x => bool_decide
                     (x ∈ flat_map used_names
                            (notebook_exprs LatentDistributionNotebook.cells
                             ++ notebook_exprs OmnibusNotebook.cells)))
         ["rdpg"; "symmetrize"; "graspy"]
       = [].
Proof.
  intros W L w HL. split.
  - destruct (fresh_run_is_general L HL LatentDistributionNotebook.cells w) as (σ & HT & Hc).
    destruct (fresh_run_is_general L HL OmnibusNotebook.cells w) as (σ' & HT' & Hc').
    rewrite Hc, HT, Hc', HT'. clear HT Hc HT' Hc'.
    split_all; vm_compute; reflexivity.
  - split; [by_computation|].
    split_all; vm_compute; reflexivity.
Qed.

(** C4 at the library of fresh objects. *)
Lemma C4_fresh_objects :
  object_returning fresh_objects
  /\ remove_dups (fun_names T_omni)
     = [ "numpy.random.seed"; Graspy.sbm; Graspy.heatmap; Graspy.OmnibusEmbed;
         "builtins.print"; "matplotlib.pyplot.subplots" ].
Proof.
  split; [exact fresh_objects_object_returning|].
  destruct (C4_six_entry_points nat fresh_objects 0%nat fresh_objects_object_returning)
    as [(_ & Homni & _) _].
  exact Homni.
Defined.

(** C5, as stated, fails: the omnibus notebook is not loop-free. *)
Lemma C5_omnibus_has_a_loop : straight_line OmnibusNotebook.cells = false.
Proof. vm_compute. reflexivity. Qed.

(** C5 (amended): the hypothesis-test notebook is a straight line of imports,
    assignments and calls.  The omnibus notebook is one too, but for a single
    loop, [for i in range(50)] around one plotting call: it has no branch,
    no handler and no other loop, and whatever the library does it runs
    exactly as the loop-free notebook in which that loop is written out fifty
    times. *)
Theorem C5_straight_line_up_to_one_loop :
  straight_line LatentDistributionNotebook.cells = true
  /\ control_stmts OmnibusNotebook.cells
     = [SFor "i" (fn_call "range" [EInt 50] []) [OmnibusNotebook.plot_line]]
  /\ straight_line_stmt OmnibusNotebook.plot_line = true
  /\ straight_line OmnibusUnrolled.cells = true
  /\ forall (W : Type) (L : Library W) (w : W),
       run OmnibusNotebook.cells w = run OmnibusUnrolled.cells w.
Proof.
  split; [vm_compute; reflexivity|].
  split; [vm_compute; reflexivity|].
  split; [vm_compute; reflexivity|].
  split; [vm_compute; reflexivity|].
  intros W L w. apply omnibus_unrolled.
Qed.

(** C6: neither notebook contains a handler; whatever the library does,
    an exception one of its calls raises ends the run at once in the cell
    that made the call, with that very exception.  The state the run ends in
    is the state the raising call itself left: the namespace is as it was at
    the call, the raising call is the last event, and no call before it
    raised. *)
Theorem C6_exceptions_propagate :
  forall (W : Type) (L : Library W) (w : W) (nb : notebook) (ev : event) (e : exn),
    nb = LatentDistributionNotebook.cells \/ nb = OmnibusNotebook.cells ->
    ev ∈ final_trace (run nb w) ->
    ev_out ev = Exn e ->
    handler_free_notebook nb = true
    /\ exists st0 st : state W,
         run nb w = Failed (ev_cell ev) e st
         /\ clean (trace st0)
         /\ ext_call (ev_callee ev) (ev_args ev) (ev_kwargs ev) st0 = Raised e st
         /\ trace st = trace st0 ++ [ev]
         /\ env st = env st0.
Proof.
  intros W L w nb ev e Hnb Hin Hout.
  assert (Hf : handler_free_notebook nb = true)
    by (destruct Hnb as [-> | ->]; vm_compute; reflexivity).
  split; [exact Hf|].
  assert (Hraise : raising ev = true) by (unfold raising; by rewrite Hout).
  pose proof (run_cells_propagated nb 0 (init w) Hf (Forall_nil_2 _)) as Hrun.
  fold (run nb w) in Hrun.
  destruct (run nb w) as [st'|j e' st']; simpl in *.
  - eapply Forall_forall in Hrun; [|exact Hin]. congruence.
  - destruct Hrun as [Hclean | (st0 & c & vs & kvs & Hcell & Hclean & Hcall)].
    + eapply Forall_forall in Hclean; [|exact Hin]. congruence.
    + destruct (ext_call_raised _ _ _ _ _ _ Hcall) as (Henv & _ & HT & _).
      rewrite HT in Hin. apply elem_of_app in Hin as [Hin | Hin].
      * eapply Forall_forall in Hclean; [|exact Hin]. congruence.
      * apply list_elem_of_singleton in Hin. subst ev. simpl in *.
        injection Hout as <-. exists st0, st'. rewrite Hcell in *. done.
Qed.

(** C6 at a library whose sampler raises: the first [sbm] call, in cell 3 of
    the hypothesis-test notebook, ends the run with the sampler's exception. *)
Lemma C6_sampler_failure_propagates :
  handler_free_notebook LatentDistributionNotebook.cells = true
  /\ exists st0 st : state unit,
       @run unit sampler_raises LatentDistributionNotebook.cells tt
         = Failed 3 (PyExn "ValueError" "p must be a probability matrix") st
       /\ clean (trace st0)
       /\ @ext_call unit sampler_raises (CFun Graspy.sbm) [VList [VInt 50; VInt 50]; VNone] [] st0
          = Raised (PyExn "ValueError" "p must be a probability matrix") st
       /\ trace st
          = trace st0 ++ [Event 3 (CFun Graspy.sbm) [VList [VInt 50; VInt 50]; VNone] []
                            (Exn (PyExn "ValueError" "p must be a probability matrix"))]
       /\ env st = env st0.
Proof.
  apply (C6_exceptions_propagate unit sampler_raises tt LatentDistributionNotebook.cells
           (Event 3 (CFun Graspy.sbm) [VList [VInt 50; VInt 50]; VNone] []
              (Exn (PyExn "ValueError" "p must be a probability matrix")))
           (PyExn "ValueError" "p must be a probability matrix")).
  - left. reflexivity.
  - apply (list_elem_of_lookup_2 _ 2). vm_compute. reflexivity.
  - reflexivity.
Defined.

(** C8: against every library of objects, the matrices [sbm] receives are
    P1 = [[0.3, 0.1], [0.1, 0.7]] and P2 = [[0.3, 0.1], [0.1, 0.3]]; they
    differ in the bottom-right entry and nowhere else, each is symmetric, both
    calls get the block sizes [25, 25], fifty vertices in all; the 0.2 of the
    markdown cell is an entry of neither. *)
Theorem C8_block_probabilities :
  forall (W : Type) (L : Library W) (w : W),
    object_returning L ->
    exists n P1 P2 : value,
      map ev_args (calls Graspy.sbm (final_trace (run OmnibusNotebook.cells w)))
        = [[n; P1]; [n; P2]]
      /\ n = VList [VInt 25; VInt 25]
      /\ total_size n = Some 50
      /\ P1 = VList [VList [VFloat 3 1; VFloat 1 1]; VList [VFloat 1 1; VFloat 7 1]]
      /\ P2 = VList [VList [VFloat 3 1; VFloat 1 1]; VList [VFloat 1 1; VFloat 3 1]]
      /\ differing_entries P1 P2 = [(1, 1)%nat]
      /\ symmetric P1 = true /\ symmetric P2 = true
      /\ has_entry (VFloat 2 1) P1 = false /\ has_entry (VFloat 2 1) P2 = false
      /\ differing_entries P1 OmnibusNotebook.markdown_P1 = [(0, 0)%nat]
      /\ differing_entries P2 OmnibusNotebook.markdown_P2 = [(0, 0); (1, 1)]%nat
      /\ has_entry (VFloat 2 1) OmnibusNotebook.markdown_P1 = true
      /\ has_entry (VFloat 2 1) OmnibusNotebook.markdown_P2 = true.
Proof.
  intros W L w HL. against_fresh_objects HL σ.
  exists (VList [VInt 25; VInt 25]).
  exists (VList [VList [VFloat 3 1; VFloat 1 1]; VList [VFloat 1 1; VFloat 7 1]]).
  exists (VList [VList [VFloat 3 1; VFloat 1 1]; VList [VFloat 1 1; VFloat 3 1]]).
  compute_all.
Qed.

(** C8 at the library of fresh objects. *)
Lemma C8_fresh_objects :
  object_returning fresh_objects
  /\ exists n P1 P2 : value,
       map ev_args (calls Graspy.sbm T_omni) = [[n; P1]; [n; P2]]
       /\ differing_entries P1 P2 = [(1, 1)%nat].
Proof.
  split; [exact fresh_objects_object_returning|].
  destruct (C8_block_probabilities nat fresh_objects 0%nat fresh_objects_object_returning)
    as (n & P1 & P2 & Hargs & _ & _ & _ & _ & Hdiff & _).
  exists n, P1, P2. split; [exact Hargs | exact Hdiff].
Defined.

(** C9: against every library of objects, [sbm] is called four times and
    every [fit] receives the result of the third call, the second sampling of
    [A1], as its first argument, and the first [heatmap] the result of the
    first call.  In the run in which every object is fresh, moreover, [A1]
    and [X1] are bound twice, the second sampling coming after [A2] is
    sampled, and the first sample reaches only its own embedding and that
    heatmap, never a test. *)
Theorem C9_tests_use_second_sample :
  forall (W : Type) (L : Library W) (w : W),
    object_returning L ->
    (exists a1 a2 a1' a3 : value,
       let T := final_trace (run LatentDistributionNotebook.cells w) in
       map (fun ev => (ev_cell ev, result_of ev)) (calls Graspy.sbm T)
         = [(3%nat, Some a1); (5%nat, Some a2); (5%nat, Some a1'); (14%nat, Some a3)]
       /\ map ev_args (method_calls "fit" T)
          = [[a1'; a2]; [a1'; a2]; [a1'; a3]; [a1'; a3]]
       /\ map ev_args (calls Graspy.heatmap T) = [[a1]; [a2]; [a3]])
    /\ (exists a1 a2 a1' a3 x1 x1' : value,
          map result_of (calls Graspy.sbm T_ldt) = [Some a1; Some a2; Some a1'; Some a3]
          /\ NoDup [a1; a2; a1'; a3]
          /\ env_after 3 LatentDistributionNotebook.cells "A1" = Some a1
          /\ env_after 3 LatentDistributionNotebook.cells "X1" = Some x1
          /\ env_after 5 LatentDistributionNotebook.cells "A1" = Some a1'
          /\ env_after 5 LatentDistributionNotebook.cells "X1" = Some x1'
          /\ env_after 5 LatentDistributionNotebook.cells "A2" = Some a2
          /\ env_after 20 LatentDistributionNotebook.cells "A1" = Some a1'
          /\ x1 <> x1'
          /\ map ev_args (method_calls "fit" T_ldt)
             = [[a1'; a2]; [a1'; a2]; [a1'; a3]; [a1'; a3]]
          /\ map (entry_point T_ldt) (method_calls "fit" T_ldt)
             = replicate 4 (Some Graspy.LatentDistributionTest)
          /\ map ev_args (calls Graspy.heatmap T_ldt) = [[a1]; [a2]; [a3]]
          /\ map (fun ev => (callee_name (ev_callee ev), phase_of T_ldt ev)) (users a1 T_ldt)
             = [(".fit_transform", Some Embedding); (Graspy.heatmap, Some Plotting)]).
Proof.
  intros W L w HL. split.
  - against_fresh_objects HL σ.
    exists (ren σ (VRef 2)), (ren σ (VRef 7)), (ren σ (VRef 10)), (ren σ (VRef 46)).
    cbv zeta. compute_all.
  - exists (VRef 2), (VRef 7), (VRef 10), (VRef 46), (VRef 4), (VRef 12).
    compute_all.
    + by_computation.
    + discriminate.
Qed.

(** C9 at the library of fresh objects. *)
Lemma C9_fresh_objects :
  object_returning fresh_objects
  /\ exists a1 a2 a1' a3 : value,
       map (fun ev => (ev_cell ev, result_of ev)) (calls Graspy.sbm T_ldt)
         = [(3%nat, Some a1); (5%nat, Some a2); (5%nat, Some a1'); (14%nat, Some a3)]
       /\ map ev_args (method_calls "fit" T_ldt)
          = [[a1'; a2]; [a1'; a2]; [a1'; a3]; [a1'; a3]].
Proof.
  split; [exact fresh_objects_object_returning|].
  destruct (C9_tests_use_second_sample nat fresh_objects 0%nat fresh_objects_object_returning)
    as [(a1 & a2 & a1' & a3 & Hsbm & Hfit & _) _].
  exists a1, a2, a1', a3. split; [exact Hsbm | exact Hfit].
Defined.

(** C10: whatever the library, the first call of the hypothesis-test notebook
    is [np.random.seed(8888)] and the first call of the omnibus notebook is
    [np.random.seed(8)], so each generator is seeded before any graph is
    sampled; and with a library whose seeding forgets what came before, two
    runs of a notebook agree in every call, every result and the final state,
    whatever states the library started in. *)
Theorem C10_seeded_runs_agree :
  forall (W : Type) (L : Library W),
    seed_resets L ->
    forall w w' : W,
      run LatentDistributionNotebook.cells w = run LatentDistributionNotebook.cells w'
      /\ run OmnibusNotebook.cells w = run OmnibusNotebook.cells w'
      /\ (exists out,
            head (final_trace (run LatentDistributionNotebook.cells w))
            = Some (Event 1 (CFun "numpy.random.seed") [VInt 8888] [] out))
      /\ (exists out,
            head (final_trace (run OmnibusNotebook.cells w))
            = Some (Event 3 (CFun "numpy.random.seed") [VInt 8] [] out)).
Proof.
  intros W L Hseed w w'.
  split; [by apply ldt_seeded|].
  split; [by apply omnibus_seeded|].
  split; [apply ldt_seed_first | apply omnibus_seed_first].
Qed.

Lemma toy_generator_seed_resets : seed_resets toy_generator.
Proof. intros k w w'. reflexivity. Defined.

(** C10 at the toy generator, started in states 0 and 1. *)
Lemma C10_toy_generator_runs_agree :
  @run Z toy_generator LatentDistributionNotebook.cells 0
    = @run Z toy_generator LatentDistributionNotebook.cells 1
  /\ @run Z toy_generator OmnibusNotebook.cells 0
     = @run Z toy_generator OmnibusNotebook.cells 1
  /\ (exists out,
        head (final_trace (@run Z toy_generator LatentDistributionNotebook.cells 0))
        = Some (Event 1 (CFun "numpy.random.seed") [VInt 8888] [] out))
  /\ (exists out,
        head (final_trace (@run Z toy_generator OmnibusNotebook.cells 0))
        = Some (Event 3 (CFun "numpy.random.seed") [VInt 8] [] out)).
Proof. exact (C10_seeded_runs_agree Z toy_generator toy_generator_seed_resets 0 1). Defined.

(** The seeding is what makes the runs agree: with the seed statement
    removed, the same generator samples different graphs from different
    starting states. *)
Lemma unseeded_runs_differ :
  map result_of (calls Graspy.sbm
                   (final_trace (@run Z toy_generator (without_seed OmnibusNotebook.cells) 0)))
    = [Some (VInt 0); Some (VInt 12345)]
  /\ map result_of (calls Graspy.sbm
                      (final_trace (@run Z toy_generator (without_seed OmnibusNotebook.cells) 1)))
     = [Some (VInt 1); Some (VInt 1103527590)]
  /\ map result_of (calls Graspy.sbm
                      (final_trace (@run Z toy_generator OmnibusNotebook.cells 1)))
     = [Some (VInt 8); Some (VInt 238199713)].
Proof. split_all; vm_compute; reflexivity. Qed.

(** ** Further properties of the notebooks *)

(** X1: against every library of objects, the hypothesis-test notebook seeds
    once, with 8888, in cell 1; it passes [[0.9, 0.6], [0.6, 0.9]] and
    [[0.9, 0.4], [0.4, 0.9]] to [np.array], in cells 3 and 14; the first three
    [sbm] calls receive the block sizes [50, 50] (the value of [[50] * 2], a
    hundred vertices) with the first array, the fourth the same sizes with
    the second.  The two matrices are symmetric and differ in the two
    off-diagonal entries only. *)
Theorem ldt_sampling_parameters :
  forall (W : Type) (L : Library W) (w : W),
    object_returning L ->
    exists p p2 : value,
      let T := final_trace (run LatentDistributionNotebook.cells w) in
      let csize := VList [VInt 50; VInt 50] in
      let P := VList [VList [VFloat 9 1; VFloat 6 1]; VList [VFloat 6 1; VFloat 9 1]] in
      let P2 := VList [VList [VFloat 9 1; VFloat 4 1]; VList [VFloat 4 1; VFloat 9 1]] in
      map (fun ev => (ev_cell ev, signature ev, result_of ev)) (calls "numpy.array" T)
        = [(3%nat, ([P], []), Some p); (14%nat, ([P2], []), Some p2)]
      /\ map (fun ev => (ev_cell ev, signature ev)) (calls Graspy.sbm T)
         = [ (3%nat, ([csize; p], [])); (5%nat, ([csize; p], []));
             (5%nat, ([csize; p], [])); (14%nat, ([csize; p2], [])) ]
      /\ total_size csize = Some 100
      /\ differing_entries P P2 = [(0, 1); (1, 0)]%nat
      /\ symmetric P = true /\ symmetric P2 = true
      /\ map (fun ev => (ev_cell ev, signature ev)) (calls "numpy.random.seed" T)
         = [(1%nat, ([VInt 8888], []))].
Proof.
  intros W L w HL. against_fresh_objects HL σ.
  exists (ren σ (VRef 1)), (ren σ (VRef 45)). cbv zeta. compute_all.
Qed.

(** X1 at the library of fresh objects. *)
Lemma ldt_sampling_parameters_fresh :
  object_returning fresh_objects
  /\ exists p p2 : value,
       map (fun ev => (ev_cell ev, signature ev)) (calls Graspy.sbm T_ldt)
       = [ (3%nat, ([VList [VInt 50; VInt 50]; p], []));
           (5%nat, ([VList [VInt 50; VInt 50]; p], []));
           (5%nat, ([VList [VInt 50; VInt 50]; p], []));
           (14%nat, ([VList [VInt 50; VInt 50]; p2], [])) ].
Proof.
  split; [exact fresh_objects_object_returning|].
  destruct (ldt_sampling_parameters nat fresh_objects 0%nat fresh_objects_object_returning)
    as (p & p2 & _ & Hsbm & _).
  exists p, p2. exact Hsbm.
Defined.

(** X2: against every library of objects, each [print] cell reads [p_value_]
    from the two tests constructed last, the dcorr one first: cell 10 from
    the tests of cells 8 and 9, cell 18 from those of cells 16 and 17, and
    [print] receives the two values read, in that order. *)
Theorem ldt_reports_current_tests :
  forall (W : Type) (L : Library W) (w : W),
    object_returning L ->
    exists t1 t2 t3 t4 p1 p2 p3 p4 r r' : value,
      let T := final_trace (run LatentDistributionNotebook.cells w) in
      map (fun ev => (ev_cell ev, ev_args ev, result_of ev))
          (calls Graspy.LatentDistributionTest T)
        = [ (8%nat, [VStr "dcorr"], Some t1); (9%nat, [VStr "mgc"], Some t2);
            (16%nat, [VStr "dcorr"], Some t3); (17%nat, [VStr "mgc"], Some t4) ]
      /\ map view (cell_events 10 T)
         = [ (CGetAttr t1 "p_value_", [], [], Some p1);
             (CGetAttr t2 "p_value_", [], [], Some p2);
             (CFun "builtins.print", [p1; p2], [], Some r) ]
      /\ map view (cell_events 18 T)
         = [ (CGetAttr t3 "p_value_", [], [], Some p3);
             (CGetAttr t4 "p_value_", [], [], Some p4);
             (CFun "builtins.print", [p3; p4], [], Some r') ].
Proof.
  intros W L w HL. against_fresh_objects HL σ.
  exists (ren σ (VRef 15)), (ren σ (VRef 17)), (ren σ (VRef 51)), (ren σ (VRef 53)).
  exists (ren σ (VRef 19)), (ren σ (VRef 20)), (ren σ (VRef 55)), (ren σ (VRef 56)).
  exists (ren σ (VRef 21)), (ren σ (VRef 57)).
  cbv zeta. compute_all.
Qed.

(** X2 at the library of fresh objects. *)
Lemma ldt_reports_current_tests_fresh :
  object_returning fresh_objects
  /\ exists t3 t4 p3 p4 r' : value,
       map view (cell_events 18 T_ldt)
       = [ (CGetAttr t3 "p_value_", [], [], Some p3);
           (CGetAttr t4 "p_value_", [], [], Some p4);
           (CFun "builtins.print", [p3; p4], [], Some r') ].
Proof.
  split; [exact fresh_objects_object_returning|].
  destruct (ldt_reports_current_tests nat fresh_objects 0%nat fresh_objects_object_returning)
    as (t1 & t2 & t3 & t4 & p1 & p2 & p3 & p4 & r & r' & _ & _ & H18).
  exists t3, t4, p3, p4, r'. exact H18.
Defined.

(** X3: against every library of objects, each histogram cell asks
    [plt.subplots(1, 2, figsize=(10, 6))] for a figure and axes, draws the
    dcorr test on [ax[0]] and the mgc test on [ax[1]] (the null distribution
    as a histogram of 50 bins, the statistic as a red vertical line, the
    p-value formatted into the title of the same test) and ends with
    [plt.show()]; cell 11 draws the tests of cells 8 and 9, cell 19 those of
    cells 16 and 17. *)
Theorem ldt_histograms_wiring :
  forall (W : Type) (L : Library W) (w : W),
    object_returning L ->
    exists (t1 t2 t3 t4 fig axes shown fig' axes' shown' : value)
           (d m d' m' : panel_objects),
      let T := final_trace (run LatentDistributionNotebook.cells w) in
      map result_of (calls Graspy.LatentDistributionTest T)
        = [Some t1; Some t2; Some t3; Some t4]
      /\ map view (cell_events 11 T) = histogram_calls t1 t2 fig axes d m shown
      /\ map view (cell_events 19 T) = histogram_calls t3 t4 fig' axes' d' m' shown'.
Proof.
  intros W L w HL. against_fresh_objects HL σ.
  exists (ren σ (VRef 15)), (ren σ (VRef 17)), (ren σ (VRef 51)), (ren σ (VRef 53)).
  exists (ren σ (VRef 22)), (ren σ (VRef 23)), (ren σ (VRef 44)).
  exists (ren σ (VRef 58)), (ren σ (VRef 59)), (ren σ (VRef 80)).
  exists (panel_at σ 24), (panel_at σ 34), (panel_at σ 60), (panel_at σ 70).
  cbv zeta. compute_all.
Qed.

(** X3 at the library of fresh objects. *)
Lemma ldt_histograms_wiring_fresh :
  object_returning fresh_objects
  /\ exists (t3 t4 fig' axes' shown' : value) (d' m' : panel_objects),
       map view (cell_events 19 T_ldt) = histogram_calls t3 t4 fig' axes' d' m' shown'.
Proof.
  split; [exact fresh_objects_object_returning|].
  destruct (ldt_histograms_wiring nat fresh_objects 0%nat fresh_objects_object_returning)
    as (t1 & t2 & t3 & t4 & fig & axes & shown & fig' & axes' & shown' & d & m & d' & m'
        & _ & _ & H19).
  exists t3, t4, fig', axes', shown', d', m'. exact H19.
Defined.

(** The objects of one scatter call: the two column reads and the answer. *)

(** X4: against every library of objects, the import cell of the omnibus
    notebook makes no call; cell 3 seeds with 8 and then samples the two
    graphs; cell 5 draws the first graph under the title of graph 1 and the
    second under that of graph 2, both with [figsize=(7, 7)]; cell 7
    constructs the embedder, fits it on the list of the two graphs and prints
    the [shape] of what the fit returned. *)
Theorem omnibus_draws_and_embeds :
  forall (W : Type) (L : Library W) (w : W),
    object_returning L ->
    exists seeded g1 g2 h1 h2 emb zhat shape printed : value,
      let T := final_trace (run OmnibusNotebook.cells w) in
      let n := VList [VInt 25; VInt 25] in
      let P1 := VList [VList [VFloat 3 1; VFloat 1 1]; VList [VFloat 1 1; VFloat 7 1]] in
      let P2 := VList [VList [VFloat 3 1; VFloat 1 1]; VList [VFloat 1 1; VFloat 3 1]] in
      cell_events 1 T = []
      /\ map view (cell_events 3 T)
         = [ (CFun "numpy.random.seed", [VInt 8], [], Some seeded);
             (CFun Graspy.sbm, [n; P1], [], Some g1);
             (CFun Graspy.sbm, [n; P2], [], Some g2) ]
      /\ map view (cell_events 5 T)
         = [ (CFun Graspy.heatmap, [g1],
              [("figsize", VTuple [VInt 7; VInt 7]); ("title", VStr "Visualization of Graph 1")],
              Some h1);
             (CFun Graspy.heatmap, [g2],
              [("figsize", VTuple [VInt 7; VInt 7]); ("title", VStr "Visualization of Graph 2")],
              Some h2) ]
      /\ map view (cell_events 7 T)
         = [ (CFun Graspy.OmnibusEmbed, [], [], Some emb);
             (CMethod emb "fit_transform", [VList [g1; g2]], [], Some zhat);
             (CGetAttr zhat "shape", [], [], Some shape);
             (CFun "builtins.print", [shape], [], Some printed) ].
Proof.
  intros W L w HL. against_fresh_objects HL σ.
  exists (ren σ (VRef 0)).
  exists (ren σ (VRef 1)), (ren σ (VRef 2)), (ren σ (VRef 3)), (ren σ (VRef 4)).
  exists (ren σ (VRef 5)), (ren σ (VRef 6)), (ren σ (VRef 7)), (ren σ (VRef 8)).
  cbv zeta. compute_all.
Qed.

(** X4 at the library of fresh objects. *)
Lemma omnibus_draws_and_embeds_fresh :
  object_returning fresh_objects
  /\ exists g1 g2 h1 h2 : value,
       map view (cell_events 5 T_omni)
       = [ (CFun Graspy.heatmap, [g1],
            [("figsize", VTuple [VInt 7; VInt 7]); ("title", VStr "Visualization of Graph 1")],
            Some h1);
           (CFun Graspy.heatmap, [g2],
            [("figsize", VTuple [VInt 7; VInt 7]); ("title", VStr "Visualization of Graph 2")],
            Some h2) ].
Proof.
  split; [exact fresh_objects_object_returning|].
  destruct (omnibus_draws_and_embeds nat fresh_objects 0%nat fresh_objects_object_returning)
    as (seeded & g1 & g2 & h1 & h2 & emb & zhat & shape & printed & _ & _ & H5 & _).
  exists g1, g2, h1, h2. exact H5.
Defined.

(** X5: against every library of objects, the calls of the plotting cell of
    the omnibus notebook are, in order: [Zhat[0]] and [Zhat[1]];
    [plt.subplots(figsize=(10, 10))]; four scatter plots on its axes, rows
    [:25] and [25:] of the first block in blue, of the second in red, block 1
    as squares and block 2 as circles, each of columns 0 and 1; [ax.legend()];
    for [i] from 0 to 49 a black line of [alpha=0.15] from row [i] of the
    first block to row [i] of the second; and the title. *)
Theorem omnibus_plot_cell_calls :
  forall (W : Type) (L : Library W) (w : W),
    object_returning L ->
    exists (zhat xh1 xh2 fig axes legend titled : value)
           (s11 s12 s21 s22 : scatter_objects) (line : nat -> line_objects),
      let T := final_trace (run OmnibusNotebook.cells w) in
      map result_of (method_calls "fit_transform" T) = [Some zhat]
      /\ map view (cell_events 9 T)
         = [ (CGetItem zhat, [VInt 0], [], Some xh1);
             (CGetItem zhat, [VInt 1], [], Some xh2);
             (CFun "matplotlib.pyplot.subplots", [],
              [("figsize", VTuple [VInt 10; VInt 10])], Some (VTuple [fig; axes])) ]
           ++ scatter_calls axes xh1 VNone (VInt 25) "s" "blue" "Graph 1, Block 1" s11
           ++ scatter_calls axes xh1 (VInt 25) VNone "o" "blue" "Graph 1, Block 2" s12
           ++ scatter_calls axes xh2 VNone (VInt 25) "s" "red" "Graph 2, Block 1" s21
           ++ scatter_calls axes xh2 (VInt 25) VNone "o" "red" "Graph 2, Block 2" s22
           ++ [(CMethod axes "legend", [], [], Some legend)]
           ++ flat_map (fun i => line_calls axes xh1 xh2 i (line i)) (seq 0 50)
           ++ [(CMethod axes "set_title", [VStr "Latent Positions from Omnibus Embedding"],
                [("fontsize", VInt 20)], Some titled)].
Proof.
  intros W L w HL. against_fresh_objects HL σ.
  exists (ren σ (VRef 6)), (ren σ (VRef 9)), (ren σ (VRef 10)).
  exists (ren σ (VRef 11)), (ren σ (VRef 12)), (ren σ (VRef 25)), (ren σ (VRef 276)).
  exists (scatter_at σ 13), (scatter_at σ 16), (scatter_at σ 19), (scatter_at σ 22).
  exists (fun i => line_at σ (26 + 5 * i)).
  cbv zeta. compute_all.
Qed.

(** X5 at the library of fresh objects. *)
Lemma omnibus_plot_cell_calls_fresh :
  object_returning fresh_objects
  /\ exists zhat : value, map result_of (method_calls "fit_transform" T_omni) = [Some zhat].
Proof.
  split; [exact fresh_objects_object_returning|].
  destruct (omnibus_plot_cell_calls nat fresh_objects 0%nat fresh_objects_object_returning)
    as (zhat & xh1 & xh2 & fig & axes & legend & titled & s11 & s12 & s21 & s22 & line
        & Hfit & _).
  exists zhat. exact Hfit.
Defined.

(** X6: against every library of objects, the hypothesis-test notebook ends
    with 25 names bound: the two builtins, its imports, and its variables,
    of which [A1] and [X1] name the second sample and its embedding,
    [ldt_dcorr] and [ldt_mgc] the tests of cells 16 and 17, [fig] and [ax]
    the second figure; the first sample, the first two tests and the first
    figure are bound to no name. *)
Theorem ldt_final_namespace :
  forall (W : Type) (L : Library W) (w : W),
    object_returning L ->
    exists p p2 a1 a2 a1' a3 x1 x2 x1' x3 t1 t2 t3 t4 fig axes fig' axes' : value,
      let T := final_trace (run LatentDistributionNotebook.cells w) in
      let E := final_env (run LatentDistributionNotebook.cells w) in
      map result_of (calls "numpy.array" T) = [Some p; Some p2]
      /\ map result_of (calls Graspy.sbm T) = [Some a1; Some a2; Some a1'; Some a3]
      /\ map result_of (method_calls "fit_transform" T)
         = [Some x1; Some x2; Some x1'; Some x3]
      /\ map result_of (calls Graspy.LatentDistributionTest T)
         = [Some t1; Some t2; Some t3; Some t4]
      /\ map result_of (calls "matplotlib.pyplot.subplots" T)
         = [Some (VTuple [fig; axes]); Some (VTuple [fig'; axes'])]
      /\ Forall (fun xv => E !! xv.1 = Some xv.2)
           (fixed_names LatentDistributionNotebook.cells
            ++ [ ("n_components", VInt 2); ("P", p); ("csize", VList [VInt 50; VInt 50]);
                 ("A1", a1'); ("X1", x1'); ("A2", a2); ("X2", x2);
                 ("ldt_dcorr", t3); ("ldt_mgc", t4); ("fig", fig'); ("ax", axes');
                 ("P2", p2); ("A3", a3); ("X3", x3) ])
      /\ size E = 25%nat.
Proof.
  intros W L w HL. against_fresh_namespace HL σ.
  exists (ren σ (VRef 1)), (ren σ (VRef 45)).
  exists (ren σ (VRef 2)), (ren σ (VRef 7)), (ren σ (VRef 10)), (ren σ (VRef 46)).
  exists (ren σ (VRef 4)), (ren σ (VRef 9)), (ren σ (VRef 12)), (ren σ (VRef 49)).
  exists (ren σ (VRef 15)), (ren σ (VRef 17)), (ren σ (VRef 51)), (ren σ (VRef 53)).
  exists (ren σ (VRef 22)), (ren σ (VRef 23)), (ren σ (VRef 58)), (ren σ (VRef 59)).
  cbv zeta. compute_all.
Qed.

(** X6 at the library of fresh objects. *)
Lemma ldt_final_namespace_fresh :
  object_returning fresh_objects
  /\ exists t1 t2 t3 t4 : value,
       map result_of (calls Graspy.LatentDistributionTest T_ldt)
       = [Some t1; Some t2; Some t3; Some t4]
       /\ size (final_env (run_fresh LatentDistributionNotebook.cells)) = 25%nat.
Proof.
  split; [exact fresh_objects_object_returning|].
  destruct (ldt_final_namespace nat fresh_objects 0%nat fresh_objects_object_returning)
    as (p & p2 & a1 & a2 & a1' & a3 & x1 & x2 & x1' & x3 & t1 & t2 & t3 & t4
        & fig & axes & fig' & axes' & _ & _ & _ & Hldt & _ & _ & Hsize).
  exists t1, t2, t3, t4. split; [exact Hldt | exact Hsize].
Defined.

(** X7: against every library of objects, the omnibus notebook ends with 20
    names bound; the loop variable [i] outlives the loop with its last value,
    49, and [P1], [P2] and [n] are the lists written in cell 3. *)
Theorem omnibus_final_namespace :
  forall (W : Type) (L : Library W) (w : W),
    object_returning L ->
    exists g1 g2 emb zhat xh1 xh2 fig axes : value,
      let T := final_trace (run OmnibusNotebook.cells w) in
      let E := final_env (run OmnibusNotebook.cells w) in
      map result_of (calls Graspy.sbm T) = [Some g1; Some g2]
      /\ map result_of (calls Graspy.OmnibusEmbed T) = [Some emb]
      /\ map result_of (method_calls "fit_transform" T) = [Some zhat]
      /\ map result_of (take 2 (item_reads T)) = [Some xh1; Some xh2]
      /\ map result_of (calls "matplotlib.pyplot.subplots" T) = [Some (VTuple [fig; axes])]
      /\ Forall (fun xv => E !! xv.1 = Some xv.2)
           (fixed_names OmnibusNotebook.cells
            ++ [ ("n", VList [VInt 25; VInt 25]);
                 ("P1", VList [VList [VFloat 3 1; VFloat 1 1]; VList [VFloat 1 1; VFloat 7 1]]);
                 ("P2", VList [VList [VFloat 3 1; VFloat 1 1]; VList [VFloat 1 1; VFloat 3 1]]);
                 ("G1", g1); ("G2", g2); ("embedder", emb); ("Zhat", zhat);
                 ("Xhat1", xh1); ("Xhat2", xh2); ("fig", fig); ("ax", axes);
                 ("i", VInt 49) ])
      /\ size E = 20%nat.
Proof.
  intros W L w HL. against_fresh_namespace HL σ.
  exists (ren σ (VRef 1)), (ren σ (VRef 2)), (ren σ (VRef 5)), (ren σ (VRef 6)).
  exists (ren σ (VRef 9)), (ren σ (VRef 10)), (ren σ (VRef 11)), (ren σ (VRef 12)).
  cbv zeta. compute_all.
Qed.

(** X7 at the library of fresh objects. *)
Lemma omnibus_final_namespace_fresh :
  object_returning fresh_objects
  /\ exists zhat : value,
       map result_of (method_calls "fit_transform" T_omni) = [Some zhat]
       /\ size (final_env (run_fresh OmnibusNotebook.cells)) = 20%nat.
Proof.
  split; [exact fresh_objects_object_returning|].
  destruct (omnibus_final_namespace nat fresh_objects 0%nat fresh_objects_object_returning)
    as (g1 & g2 & emb & zhat & xh1 & xh2 & fig & axes & _ & _ & Hfit & _ & _ & _ & Hsize).
  exists zhat. split; [exact Hfit | exact Hsize].
Defined.

(** X8: whatever the library does, neither notebook reads a name before it
    is bound: a run that fails fails with the exception the last call
    raised, or with one that is not a [NameError]; a run that completes has
    bound every name the notebook assigns or imports. *)
Theorem names_bound_before_read :
  forall (W : Type) (L : Library W) (w : W),
    match run LatentDistributionNotebook.cells w with
    | Completed st =>
        Forall (fun x => is_Some (env st !! x))
          [ "np"; "plt"; "LatentDistributionTest"; "AdjacencySpectralEmbed"; "sbm"; "rdpg";
            "symmetrize"; "heatmap"; "pairplot"; "n_components"; "P"; "csize"; "A1"; "X1";
            "A2"; "X2"; "ldt_dcorr"; "ldt_mgc"; "fig"; "ax"; "P2"; "A3"; "X3" ]
    | Failed _ e st => raised_by_library e (trace st) \/ exn_class e <> "NameError"
    end
    /\ match run OmnibusNotebook.cells w with
       | Completed st =>
           Forall (fun x => is_Some (env st !! x))
             [ "graspy"; "plt"; "np"; "sbm"; "n"; "P1"; "P2"; "G1"; "G2"; "heatmap";
               "OmnibusEmbed"; "embedder"; "Zhat"; "Xhat1"; "Xhat2"; "fig"; "ax" ]
       | Failed _ e st => raised_by_library e (trace st) \/ exn_class e <> "NameError"
       end.
Proof.
  intros W L w. split.
  - pose proof (cells_read_defined_sound LatentDistributionNotebook.cells
                  ["print"; "range"] 0 (init w) eq_refl (builtins_bound w)) as Hrun.
    unfold run. destruct (run_cells 0 LatentDistributionNotebook.cells (init w)); [|exact Hrun].
    repeat (apply Forall_cons_2; [apply Hrun; by_computation|]). apply Forall_nil_2.
  - pose proof (cells_read_defined_sound OmnibusNotebook.cells
                  ["print"; "range"] 0 (init w) eq_refl (builtins_bound w)) as Hrun.
    unfold run. destruct (run_cells 0 OmnibusNotebook.cells (init w)); [|exact Hrun].
    repeat (apply Forall_cons_2; [apply Hrun; by_computation|]). apply Forall_nil_2.
Qed.

(** X9: whatever the library does, neither notebook rebinds [print],
    [range] or a name it imports: when the run completes each of them names
    what was imported, and when it fails each is still unbound or names what
    was imported. *)
Theorem imports_never_rebound :
  forall (W : Type) (L : Library W) (w : W),
    fixed_names LatentDistributionNotebook.cells
      = [ ("print", VExt "builtins.print"); ("range", VExt "builtins.range");
          ("np", VExt "numpy"); ("plt", VExt "matplotlib.pyplot");
          ("LatentDistributionTest", VExt Graspy.LatentDistributionTest);
          ("AdjacencySpectralEmbed", VExt Graspy.AdjacencySpectralEmbed);
          ("sbm", VExt Graspy.sbm); ("rdpg", VExt "graspy.simulations.rdpg");
          ("symmetrize", VExt "graspy.utils.symmetrize");
          ("heatmap", VExt Graspy.heatmap); ("pairplot", VExt Graspy.pairplot) ]
    /\ fixed_names OmnibusNotebook.cells
       = [ ("print", VExt "builtins.print"); ("range", VExt "builtins.range");
           ("graspy", VExt "graspy"); ("plt", VExt "matplotlib.pyplot");
           ("np", VExt "numpy"); ("sbm", VExt Graspy.sbm);
           ("heatmap", VExt Graspy.heatmap); ("OmnibusEmbed", VExt Graspy.OmnibusEmbed) ]
    /\ Forall (fun nb : notebook =>
                 Forall (fun xv =>
                           match run nb w with
                           | Completed st => env st !! xv.1 = Some xv.2
                           | Failed _ _ st =>
                               env st !! xv.1 = None \/ env st !! xv.1 = Some xv.2
                           end) (fixed_names nb))
              [LatentDistributionNotebook.cells; OmnibusNotebook.cells].
Proof.
  intros W L w. split; [vm_compute; reflexivity|]. split; [vm_compute; reflexivity|].
  assert (Hgen : forall nb D,
            forallb (keeps_imports (list_to_map (fixed_names nb))) (all_stmts nb) = true ->
            agrees (list_to_map (fixed_names nb)) builtins ->
            NoDup (fixed_names nb).*1 ->
            cells_read_defined ["print"; "range"] nb = true ->
            D = defined_after_cells ["print"; "range"] nb ->
            Forall (fun xv => xv.1 ∈ D) (fixed_names nb) ->
            Forall (fun xv =>
                      match run nb w with
                      | Completed st => env st !! xv.1 = Some xv.2
                      | Failed _ _ st =>
                          env st !! xv.1 = None \/ env st !! xv.1 = Some xv.2
                      end) (fixed_names nb)).
  { intros nb D Hk HE Hnd Hc -> Hin.
    pose proof (fixed_names_agree nb w Hk HE Hnd) as Hag.
    pose proof (cells_read_defined_sound nb ["print"; "range"] 0 (init w) Hc
                  (builtins_bound w)) as Hb.
    unfold run in *. destruct (run_cells 0 nb (init w)) as [st|j e st]; simpl in *; [|done].
    rewrite Forall_forall in Hag, Hin. apply Forall_forall. intros xv Hxv.
    destruct (Hag xv Hxv) as [Hnone|Hsome]; [|done].
    destruct (Hb xv.1 (Hin xv Hxv)) as [u Hu]. congruence. }
  apply Forall_cons_2; [|apply Forall_cons_2; [|apply Forall_nil_2]].
  - eapply Hgen; [vm_compute; reflexivity | by_computation | by_computation
                 | vm_compute; reflexivity | reflexivity | by_computation].
  - eapply Hgen; [vm_compute; reflexivity | by_computation | by_computation
                 | vm_compute; reflexivity | reflexivity | by_computation].
Qed.


(** X11: whatever the library does, the hypothesis-test notebook makes at
    most 80 calls and the omnibus notebook at most 277, one for each
    attribute read, subscript and call of the code with the loop written
    out; against fresh objects they make 79 and 276 (the read of
    [np.random] is no call). *)
Theorem call_budget :
  forall (W : Type) (L : Library W) (w : W),
    (length (final_trace (run LatentDistributionNotebook.cells w)) <= 80)%nat
    /\ (length (final_trace (run OmnibusNotebook.cells w)) <= 277)%nat
    /\ notebook_max_calls LatentDistributionNotebook.cells = 80%nat
    /\ notebook_max_calls OmnibusUnrolled.cells = 277%nat
    /\ length T_ldt = 79%nat
    /\ length T_omni = 276%nat.
Proof.
  intros W L w.
  assert (Hn1 : notebook_max_calls LatentDistributionNotebook.cells = 80%nat)
    by (vm_compute; reflexivity).
  assert (Hn2 : notebook_max_calls OmnibusUnrolled.cells = 277%nat)
    by (vm_compute; reflexivity).
  assert (Hs1 : straight_line LatentDistributionNotebook.cells = true)
    by (vm_compute; reflexivity).
  assert (Hs2 : straight_line OmnibusUnrolled.cells = true)
    by (vm_compute; reflexivity).
  split; [|split; [|split_all; first [exact Hn1 | exact Hn2 | vm_compute; reflexivity]]].
  - pose proof (straight_line_budget _ 0 (init w) Hs1) as Hb.
    rewrite Hn1 in Hb. exact Hb.
  - rewrite omnibus_unrolled.
    pose proof (straight_line_budget _ 0 (init w) Hs2) as Hb.
    rewrite Hn2 in Hb. exact Hb.
Qed.

(** X12: against every library of objects, the three graph cells of the
    hypothesis-test notebook make these calls, in this order: cell 3 builds
    the matrix, samples, embeds, draws the heatmap and the pair plot; cell 5
    samples and embeds twice and draws the first of the two samples only;
    cell 14 draws the heatmap before it embeds.  Every embedding is fit on
    the graph sampled just before it, every plot carries its title, every
    pair plot [height=4.5]. *)
Theorem ldt_graph_cells_calls :
  forall (W : Type) (L : Library W) (w : W),
    object_returning L ->
    exists p p2 a1 a2 a1' a3 e1 e2 e1' e3 x1 x2 x1' x3 h1 h2 h3 r1 r2 r3 : value,
      let T := final_trace (run LatentDistributionNotebook.cells w) in
      let csize := VList [VInt 50; VInt 50] in
      let title := ("title", VStr "2-block SBM adjacency matrix") in
      let embedding := ("title", VStr "2-block adjacency spectral embedding") in
      let height := ("height", VFloat 45 1) in
      map view (cell_events 3 T)
        = [ (CFun "numpy.array",
             [VList [VList [VFloat 9 1; VFloat 6 1]; VList [VFloat 6 1; VFloat 9 1]]], [],
             Some p);
            (CFun Graspy.sbm, [csize; p], [], Some a1) ]
          ++ embed_calls a1 e1 x1
          ++ [ (CFun Graspy.heatmap, [a1], [title], Some h1);
               (CFun Graspy.pairplot, [x1], [embedding; height], Some r1) ]
      /\ map view (cell_events 5 T)
         = [ (CFun Graspy.sbm, [csize; p], [], Some a2) ]
           ++ embed_calls a2 e2 x2
           ++ [ (CFun Graspy.sbm, [csize; p], [], Some a1') ]
           ++ embed_calls a1' e1' x1'
           ++ [ (CFun Graspy.heatmap, [a2], [title], Some h2);
                (CFun Graspy.pairplot, [x2], [embedding; height], Some r2) ]
      /\ map view (cell_events 14 T)
         = [ (CFun "numpy.array",
              [VList [VList [VFloat 9 1; VFloat 4 1]; VList [VFloat 4 1; VFloat 9 1]]], [],
              Some p2);
             (CFun Graspy.sbm, [csize; p2], [], Some a3);
             (CFun Graspy.heatmap, [a3],
              [("title", VStr "2-block SBM adjacency matrix A3")], Some h3) ]
           ++ embed_calls a3 e3 x3
           ++ [ (CFun Graspy.pairplot, [x3],
                 [("title", VStr "2-block adjacency spectral embedding A3"); height],
                 Some r3) ].
Proof.
  intros W L w HL. against_fresh_objects HL σ.
  exists (ren σ (VRef 1)), (ren σ (VRef 45)).
  exists (ren σ (VRef 2)), (ren σ (VRef 7)), (ren σ (VRef 10)), (ren σ (VRef 46)).
  exists (ren σ (VRef 3)), (ren σ (VRef 8)), (ren σ (VRef 11)), (ren σ (VRef 48)).
  exists (ren σ (VRef 4)), (ren σ (VRef 9)), (ren σ (VRef 12)), (ren σ (VRef 49)).
  exists (ren σ (VRef 5)), (ren σ (VRef 13)), (ren σ (VRef 47)).
  exists (ren σ (VRef 6)), (ren σ (VRef 14)), (ren σ (VRef 50)).
  cbv zeta. compute_all.
Qed.

(** X12 at the library of fresh objects. *)
Lemma ldt_graph_cells_calls_fresh :
  object_returning fresh_objects
  /\ exists p a1 e1 x1 h1 r1 : value,
       map view (cell_events 3 T_ldt)
       = [ (CFun "numpy.array",
            [VList [VList [VFloat 9 1; VFloat 6 1]; VList [VFloat 6 1; VFloat 9 1]]], [],
            Some p);
           (CFun Graspy.sbm, [VList [VInt 50; VInt 50]; p], [], Some a1) ]
         ++ embed_calls a1 e1 x1
         ++ [ (CFun Graspy.heatmap, [a1],
               [("title", VStr "2-block SBM adjacency matrix")], Some h1);
              (CFun Graspy.pairplot, [x1],
               [("title", VStr "2-block adjacency spectral embedding");
                ("height", VFloat 45 1)], Some r1) ].
Proof.
  split; [exact fresh_objects_object_returning|].
  destruct (ldt_graph_cells_calls nat fresh_objects 0%nat fresh_objects_object_returning)
    as (p & p2 & a1 & a2 & a1' & a3 & e1 & e2 & e1' & e3 & x1 & x2 & x1' & x3
        & h1 & h2 & h3 & r1 & r2 & r3 & H3 & _).
  exists p, a1, e1, x1, h1, r1. exact H3.
Defined.

